(** * gonb, package goexec: composition of the Go file that is compiled

    A shallow embedding of [goexec/composer.go]: the writer that tracks the
    cursor ([WriterWithCursor]), the renderers of the declarations
    ([RenderImports], [RenderTypes], [RenderConstants], [RenderVariables],
    [RenderFunctions]), the composer of [main.go]
    ([createMainContentsFromDecls], [createMainFileFromDecls]) and the
    composer of a cell's lines ([createGoFileFromLines],
    [writeLinesToFile]).

    Conventions.
    - Go's [int] is a 64-bit signed integer: it is a [Z], and [+] on it is
      [int_add], which wraps.
    - A Go [string] is a sequence of bytes: Rocq's [string].
    - A Go [error] value is an [option error], [None] for [nil].
    - A Go [map[string]T] is a [gmap string T]; the order in which [range]
      enumerates it is not fixed by Go, and is a parameter ([MapRange]).
    - An [io.Writer] is an interface: the class [IoWriter] over the type of
      the states of the object behind it; a method that mutates its receiver
      returns the new state.
    - What composer.go takes from elsewhere is a parameter: [strconv.Quote]
      behind the verb [%q] ([Strconv]), and [NoCursor] and [HasCursor], which
      another file of the package declares ([CursorSentinel]).
    - A loop that Go does not bound, the one along the [Next] links of the
      constants, counts its iterations down from a fuel; [None] is a run
      that does not end within it. *)

From Stdlib Require Import Ascii.
From stdpp Require Import gmap strings list sorting.

Local Open Scope Z_scope.
Local Open Scope string_scope.

(** ** Go's [int] *)

Definition int_wrap (z : Z) : Z := (z + 2 ^ 63) `mod` 2 ^ 64 - 2 ^ 63.

Definition int_add (a b : Z) : Z := int_wrap (a + b).

Definition int_range (z : Z) : Prop := - 2 ^ 63 <= z < 2 ^ 63.

(** [len(s)] of a Go string. *)
Definition len (s : string) : Z := Z.of_nat (String.length s).

(** ** The bytes the source writes as escapes *)

Definition NL : string := String "010"%char "".
Definition TAB : string := String "009"%char "".
Definition DQUOTE : string := String "034"%char "".

(** [strings.Split(s, "\n")]: the pieces of [s] between its newlines; one
    piece more than [s] has newlines, so never empty. *)
Fixpoint strings_Split_NL (s : string) : list string :=
  match s with
  | "" => [""]
  | String c r =>
      if Ascii.eqb c "010"%char then "" :: strings_Split_NL r
      else match strings_Split_NL r with
           | p :: ps => String c p :: ps
           | [] => [String c ""]
           end
  end.

(** [strings.HasPrefix(s, prefix)]. *)
Definition strings_HasPrefix (s prefix : string) : bool := String.prefix prefix s.

(** [strings.Replace(s, old, new, 1)]: the first occurrence of [old] in [s]
    replaced by [new]; an empty [old] matches at the start of [s]. *)
Definition strings_Replace1 (s old new : string) : string :=
  if decide (old = "") then new +:+ s
  else match String.index 0 old s with
       | Some i =>
           String.substring 0 i s +:+ new +:+
           String.substring (i + String.length old)
                            (String.length s - (i + String.length old)) s
       | None => s
       end.

(** ** Errors (package [errors] of github.com/pkg/errors, and [io]) *)

Inductive error : Type :=
  | ErrIO (what : string)
      (** an error of the object behind an [io.Writer], or of the file system *)
  | ErrShortWrite (content : string) (want got : Z)
      (** [errors.Errorf("failed to write %q, %d bytes: wrote only %d", ...)] *)
  | ErrWrap (cause : error) (msg : string).
      (** [errors.Wrapf(cause, msg)] and [errors.WithMessagef(cause, msg)] *)

Global Instance error_eq_dec : EqDecision error.
Proof. solve_decision. Defined.

(** [errors.WithMessagef(err, format, args...)]: "If err is nil,
    WithMessagef returns nil." *)
Definition errors_WithMessagef (err : option error) (msg : string) : option error :=
  match err with
  | None => None
  | Some e => Some (ErrWrap e msg)
  end.

(** [errors.Wrapf(err, format, args...)]: "If err is nil, Wrapf returns nil." *)
Definition errors_Wrapf (err : option error) (msg : string) : option error :=
  match err with
  | None => None
  | Some e => Some (ErrWrap e msg)
  end.

(** ** Package [fmt] *)

(** [strconv.Quote], which the verb [%q] applies to a string. *)
Class Strconv := strconv_Quote : string -> string.

(** [fmt.Sprintf(format, args...)] for the verbs the source uses, [%s] and
    [%q], on string operands. An operand that is missing prints as Go prints
    it; operands left over are reported at the end. *)
Fixpoint Sprintf_extra (args : list string) : string :=
  match args with
  | [] => ""
  | [a] => "string=" +:+ a
  | a :: rest => "string=" +:+ a +:+ ", " +:+ Sprintf_extra rest
  end.

Fixpoint Sprintf {SC : Strconv} (format : string) (args : list string) : string :=
  match format with
  | "" => match args with
          | [] => ""
          | _ => "%!(EXTRA " +:+ Sprintf_extra args +:+ ")"
          end
  | String c rest =>
      if Ascii.eqb c "%"%char then
        match rest with
        | "" => "%!(NOVERB)"
        | String v rest' =>
            if Ascii.eqb v "s"%char then
              match args with
              | a :: args' => a +:+ Sprintf rest' args'
              | [] => "%!s(MISSING)" +:+ Sprintf rest' []
              end
            else if Ascii.eqb v "q"%char then
              match args with
              | a :: args' => strconv_Quote a +:+ Sprintf rest' args'
              | [] => "%!q(MISSING)" +:+ Sprintf rest' []
              end
            else String c (Sprintf rest args)
        end
      else String c (Sprintf rest args)
  end.

(** ** Cursor *)

(** A position in a cell or in a file. The type is declared in another file
    of the package; composer.go uses its fields [Line] and [Col], both [int]. *)
Record Cursor : Type := mkCursor { Line : Z; Col : Z }.

Global Instance Cursor_eq_dec : EqDecision Cursor.
Proof. solve_decision. Defined.

(** [NoCursor] and the method [HasCursor] are declared in another file of the
    package: they are parameters of the development. *)
Class CursorSentinel := {
  NoCursor : Cursor;
  HasCursor : Cursor -> bool
}.

(** ** [io.Writer] *)

(** [Write(p []byte) (n int, err error)] on the state of the object. *)
Class IoWriter (S : Type) := ioWrite : S -> string -> S * (Z * option error).

(** ** [WriterWithCursor] *)

Record WriterWithCursor (S : Type) : Type := mkWriter {
  w_w : S;
  w_err : option error;
  w_Line : Z;
  w_Col : Z
}.
Global Arguments mkWriter {S} _ _ _ _.
Global Arguments w_w {S} _.
Global Arguments w_err {S} _.
Global Arguments w_Line {S} _.
Global Arguments w_Col {S} _.

Section Writer.
Context {S : Type} {IW : IoWriter S} {SC : Strconv}.

Definition NewWriterWithCursor (w : S) : WriterWithCursor S :=
  mkWriter w None 0 0.

Definition WriterCursor (w : WriterWithCursor S) : Cursor :=
  {| Line := w_Line w; Col := w_Col w |}.

Definition CursorPlusDelta (w : WriterWithCursor S) (delta : Cursor) : Cursor :=
  let fileCursor := WriterCursor w in
  let fileCursor := {| Line := int_add (Line fileCursor) (Line delta);
                       Col := Col fileCursor |} in
  if decide (Line delta > 0)
  then {| Line := Line fileCursor; Col := Col delta |}
  else {| Line := Line fileCursor; Col := int_add (Col fileCursor) (Col delta) |}.

Definition Error (w : WriterWithCursor S) : option error := w_err w.

Definition Write (w : WriterWithCursor S) (content : string) : WriterWithCursor S :=
  match w_err w with
  | Some _ => w
  | None =>
      let '(s, (n, e)) := ioWrite (w_w w) content in
      let e := if decide (n ≠ len content)
               then Some (ErrShortWrite content (len content) n)
               else e in
      match e with
      | Some _ => mkWriter s e (w_Line w) (w_Col w)
      | None =>
          let parts := strings_Split_NL content in
          if decide (length parts = 1%nat)
          then mkWriter s e (w_Line w) (int_add (w_Col w) (len (default "" (head parts))))
          else mkWriter s e
                 (int_add (w_Line w) (Z.of_nat (length parts) - 1))
                 (len (default "" (last parts)))
      end
  end.

Definition Writef (w : WriterWithCursor S) (format : string) (args : list string)
  : WriterWithCursor S :=
  match w_err w with
  | Some _ => w
  | None => let text := Sprintf format args in Write w text
  end.

End Writer.

(** ** Declarations *)

(** The types of the declarations are declared in another file of the
    package; each record has the fields composer.go reads. Every one embeds a
    [Cursor]: the position of the cell's cursor relative to the start of the
    text the flag [CursorIn...] names. *)

Record Import : Type := mkImport {
  imp_Cursor : Cursor;
  imp_Alias : string;
  imp_Path : string;
  imp_CursorInAlias : bool;
  imp_CursorInPath : bool
}.

Record Variable_ : Type := mkVariable {
  var_Cursor : Cursor;
  var_Name : string;
  var_TypeDefinition : string;
  var_ValueDefinition : string;
  var_CursorInName : bool;
  var_CursorInType : bool;
  var_CursorInValue : bool
}.

Record TypeDecl : Type := mkTypeDecl {
  ty_Cursor : Cursor;
  ty_TypeDefinition : string;
  ty_CursorInKey : bool;
  ty_CursorInType : bool
}.

Record Function_ : Type := mkFunction {
  fn_Cursor : Cursor;
  fn_Definition : string
}.

(** A [*Constant]: the address of a [Constant] in the heap of the
    declarations; [None] is [nil]. *)
Definition ptr : Type := positive.

Record Constant : Type := mkConstant {
  const_Cursor : Cursor;
  const_Key : string;
  const_TypeDefinition : string;
  const_ValueDefinition : string;
  const_CursorInKey : bool;
  const_CursorInType : bool;
  const_CursorInValue : bool;
  const_Next : option ptr;
  const_Prev : option ptr
}.

(** [Declarations]. The constants of one [const ( ... )] block are linked
    through [Next] and [Prev], so [Constants] maps a key to the address of its
    [Constant], and [constHeap] holds the objects. *)
Record Declarations : Type := mkDeclarations {
  Imports : gmap string Import;
  Types : gmap string TypeDecl;
  Constants : gmap string ptr;
  Variables : gmap string Variable_;
  Functions : gmap string Function_;
  constHeap : gmap ptr Constant
}.

(** ** Iteration over a Go map *)

(** [for key := range m] enumerates every key of [m] once, in an order Go
    leaves open. *)
Class MapRange := {
  rangeKeys : forall {T : Type}, gmap string T -> list string;
  rangeKeys_perm : forall (T : Type) (m : gmap string T),
    rangeKeys m ≡ₚ (map_to_list m).*1
}.

(** [sort.Strings]: the strings in increasing byte-wise order. *)
Definition sort_Strings (keys : list string) : list string :=
  merge_sort String.le keys.

Definition sortedKeys {MR : MapRange} {T : Type} (m : gmap string T) : list string :=
  sort_Strings (rangeKeys m).

(** ** The renderers *)

Section Render.
Context {S : Type} {IW : IoWriter S} {SC : Strconv} {CS : CursorSentinel}
        {MR : MapRange}.

Local Abbreviation W := (WriterWithCursor S).

(** The body of the loop of [RenderImports], for one key. A key of
    [sortedKeys] is a key of the map, so the lookup finds it; the branch
    [None] of this and of the next three bodies is never taken. *)
Definition RenderImports_entry (d : Declarations) (st : W * Cursor) (key : string)
  : W * Cursor :=
  let '(w, cursor) := st in
  match Imports d !! key with
  | None => (w, cursor)
  | Some importDecl =>
      let w := Write w TAB in
      let '(w, cursor) :=
        if decide (imp_Alias importDecl ≠ "") then
          let cursor :=
            if imp_CursorInAlias importDecl
            then CursorPlusDelta w (imp_Cursor importDecl) else cursor in
          (Writef w "%s " [imp_Alias importDecl], cursor)
        else (w, cursor) in
      let cursor :=
        if imp_CursorInPath importDecl
        then CursorPlusDelta w (imp_Cursor importDecl) else cursor in
      let w := Writef w ("%q" +:+ NL) [imp_Path importDecl] in
      (w, cursor)
  end.

Definition RenderImports (d : Declarations) (w : W) : W * Cursor :=
  let cursor := NoCursor in
  if decide (size (Imports d) = 0%nat) then (w, cursor)
  else
    let w := Write w ("import (" +:+ NL) in
    let '(w, cursor) :=
      foldl (RenderImports_entry d) (w, cursor) (sortedKeys (Imports d)) in
    let w := Write w (")" +:+ NL +:+ NL) in
    (w, cursor).

Definition RenderVariables_entry (d : Declarations) (st : W * Cursor) (key : string)
  : W * Cursor :=
  let '(w, cursor) := st in
  match Variables d !! key with
  | None => (w, cursor)
  | Some varDecl =>
      let w := Write w TAB in
      let cursor :=
        if var_CursorInName varDecl
        then CursorPlusDelta w (var_Cursor varDecl) else cursor in
      let w := Write w (var_Name varDecl) in
      let '(w, cursor) :=
        if decide (var_TypeDefinition varDecl ≠ "") then
          let w := Write w " " in
          let cursor :=
            if var_CursorInType varDecl
            then CursorPlusDelta w (var_Cursor varDecl) else cursor in
          (Write w (var_TypeDefinition varDecl), cursor)
        else (w, cursor) in
      let '(w, cursor) :=
        if decide (var_ValueDefinition varDecl ≠ "") then
          let w := Write w " = " in
          let cursor :=
            if var_CursorInValue varDecl
            then CursorPlusDelta w (var_Cursor varDecl) else cursor in
          (Write w (var_ValueDefinition varDecl), cursor)
        else (w, cursor) in
      let w := Write w NL in
      (w, cursor)
  end.

Definition RenderVariables (d : Declarations) (w : W) : W * Cursor :=
  let cursor := NoCursor in
  if decide (size (Variables d) = 0%nat) then (w, cursor)
  else
    let w := Write w ("var (" +:+ NL) in
    let '(w, cursor) :=
      foldl (RenderVariables_entry d) (w, cursor) (sortedKeys (Variables d)) in
    let w := Write w (")" +:+ NL +:+ NL) in
    (w, cursor).

Definition RenderFunctions_entry (d : Declarations) (st : W * Cursor) (key : string)
  : W * Cursor :=
  let '(w, cursor) := st in
  match Functions d !! key with
  | None => (w, cursor)
  | Some funcDecl =>
      let def := fn_Definition funcDecl in
      let cursor :=
        if HasCursor (fn_Cursor funcDecl)
        then CursorPlusDelta w (fn_Cursor funcDecl) else cursor in
      let def :=
        if strings_HasPrefix key "init_"
        then strings_Replace1 def key "init" else def in
      (Writef w ("%s" +:+ NL +:+ NL) [def], cursor)
  end.

Definition RenderFunctions (d : Declarations) (w : W) : W * Cursor :=
  let cursor := NoCursor in
  if decide (size (Functions d) = 0%nat) then (w, cursor)
  else foldl (RenderFunctions_entry d) (w, cursor) (sortedKeys (Functions d)).

Definition RenderTypes_entry (d : Declarations) (st : W * Cursor) (key : string)
  : W * Cursor :=
  let '(w, cursor) := st in
  match Types d !! key with
  | None => (w, cursor)
  | Some typeDecl =>
      let w := Write w "type " in
      let cursor :=
        if ty_CursorInKey typeDecl
        then CursorPlusDelta w (ty_Cursor typeDecl) else cursor in
      let w := Writef w "%s " [key] in
      let cursor :=
        if ty_CursorInType typeDecl
        then CursorPlusDelta w (ty_Cursor typeDecl) else cursor in
      let w := Writef w ("%s" +:+ NL) [ty_TypeDefinition typeDecl] in
      (w, cursor)
  end.

Definition RenderTypes (d : Declarations) (w : W) : W * Cursor :=
  let cursor := NoCursor in
  if decide (size (Types d) = 0%nat) then (w, cursor)
  else
    let '(w, cursor) :=
      foldl (RenderTypes_entry d) (w, cursor) (sortedKeys (Types d)) in
    let w := Write w NL in
    (w, cursor).

(** [Constant.Render]: the declaration without the [const] keyword. The
    [*Cursor] it updates is the second component of the state. *)
Definition Constant_Render (c : Constant) (st : W * Cursor) : W * Cursor :=
  let '(w, cursor) := st in
  let cursor :=
    if const_CursorInKey c then CursorPlusDelta w (const_Cursor c) else cursor in
  let w := Write w (const_Key c) in
  let '(w, cursor) :=
    if decide (const_TypeDefinition c ≠ "") then
      let w := Write w " " in
      let cursor :=
        if const_CursorInType c then CursorPlusDelta w (const_Cursor c) else cursor in
      (Write w (const_TypeDefinition c), cursor)
    else (w, cursor) in
  let '(w, cursor) :=
    if decide (const_ValueDefinition c ≠ "") then
      let w := Write w " = " in
      let cursor :=
        if const_CursorInValue c then CursorPlusDelta w (const_Cursor c) else cursor in
      (Write w (const_ValueDefinition c), cursor)
    else (w, cursor) in
  (w, cursor).

(** The loop [for constDecl != nil { ...; constDecl = constDecl.Next }]. It
    follows [Next] through the heap and ends at [nil]; on a chain that never
    reaches [nil] it does not end, so the model counts the iterations down
    from [fuel] and gives [None] when none is left. Go has no dangling
    pointer: an address the heap does not hold gives [None] too. *)
Fixpoint RenderConstants_chain (fuel : nat) (h : gmap ptr Constant)
    (constDecl : option ptr) (st : W * Cursor) : option (W * Cursor) :=
  match constDecl with
  | None => Some st
  | Some a =>
      match fuel with
      | O => None
      | Datatypes.S fuel =>
          match h !! a with
          | None => None
          | Some c =>
              let '(w, cursor) := st in
              let w := Write w TAB in
              let '(w, cursor) := Constant_Render c (w, cursor) in
              let w := Write w NL in
              RenderConstants_chain fuel h (const_Next c) (w, cursor)
          end
      end
  end.

(** The first loop of [RenderConstants]: the keys whose constant has no
    [Prev], in the order of the enumeration. *)
Fixpoint RenderConstants_heads (d : Declarations) (keys : list string)
  : option (list string) :=
  match keys with
  | [] => Some []
  | key :: keys =>
      match Constants d !! key ≫= (λ a, constHeap d !! a) with
      | None => None
      | Some constDecl =>
          match RenderConstants_heads d keys with
          | None => None
          | Some headKeys =>
              Some (if decide (const_Prev constDecl = None)
                    then key :: headKeys else headKeys)
          end
      end
  end.

(** The body of the second loop of [RenderConstants], for one head key. *)
Definition RenderConstants_block (fuel : nat) (d : Declarations)
    (st : W * Cursor) (headKey : string) : option (W * Cursor) :=
  let '(w, cursor) := st in
  match Constants d !! headKey with
  | None => None
  | Some a =>
      match constHeap d !! a with
      | None => None
      | Some constDecl =>
          if decide (const_Next constDecl = None) then
            let w := Write w "const " in
            let '(w, cursor) := Constant_Render constDecl (w, cursor) in
            let w := Write w (NL +:+ NL) in
            Some (w, cursor)
          else
            let w := Write w ("const (" +:+ NL) in
            match RenderConstants_chain fuel (constHeap d) (Some a) (w, cursor) with
            | None => None
            | Some (w, cursor) => Some (Write w (")" +:+ NL +:+ NL), cursor)
            end
      end
  end.

Fixpoint RenderConstants_blocks (fuel : nat) (d : Declarations)
    (st : W * Cursor) (headKeys : list string) : option (W * Cursor) :=
  match headKeys with
  | [] => Some st
  | headKey :: headKeys =>
      match RenderConstants_block fuel d st headKey with
      | None => None
      | Some st => RenderConstants_blocks fuel d st headKeys
      end
  end.

Definition RenderConstants (fuel : nat) (d : Declarations) (w : W)
  : option (W * Cursor) :=
  let cursor := NoCursor in
  if decide (size (Constants d) = 0%nat) then Some (w, cursor)
  else
    match RenderConstants_heads d (rangeKeys (Constants d)) with
    | None => None
    | Some headKeys =>
        let headKeys := sort_Strings headKeys in
        RenderConstants_blocks fuel d (w, cursor) headKeys
    end.

End Render.

(** ** Files *)

(** An [*os.File]: an [io.Writer] that can be closed. [os.Create] is a call
    to the operating system: its outcome, an error or the file, is an input
    of the functions below. *)
Class OsFile (F : Type) := {
  file_Writer :: IoWriter F;
  file_Close : F -> F * option error
}.

Definition is_directive (line : string) : bool :=
  strings_HasPrefix line "%main" || strings_HasPrefix line "%%".

Definition funcMainHeader : string :=
  "func main() {" +:+ NL +:+ TAB +:+ "flag.Parse" +:+ NL.

Definition funcMainFooter : string := NL +:+ "}" +:+ NL.

Definition packageMain : string := "package main" +:+ NL +:+ NL.

(** ** The composers *)

Section Compose.
Context {S : Type} {IW : IoWriter S} {SC : Strconv} {CS : CursorSentinel}
        {MR : MapRange}.

Local Abbreviation W := (WriterWithCursor S).

(** [writeLinesToFile]; [lines] is what the channel delivers, in order. The
    result is [err] and the file once closed ([None] when it was not
    created). *)
Definition writeLinesToFile_line {F : Type} {OF : OsFile F} (filePath : string)
    (st : F * option error) (line : string) : F * option error :=
  let '(f, err) := st in
  if decide (err ≠ None) then (f, err)
  else
    let '(f, (_, err)) := ioWrite f (Sprintf ("%s" +:+ NL) [line]) in
    if decide (err ≠ None)
    then (f, errors_Wrapf err (Sprintf "writing to %q" [filePath]))
    else (f, err).

Definition writeLinesToFile {F : Type} {OF : OsFile F} (created : error + F)
    (filePath : string) (lines : list string) : option error * option F :=
  match created with
  | inl err => (errors_Wrapf (Some err) (Sprintf "creating %q" [filePath]), None)
  | inr f =>
      let '(f, err) := foldl (writeLinesToFile_line filePath) (f, None) lines in
      (* the deferred function runs at the return *)
      let '(f, newErr) := file_Close f in
      let err :=
        if decide (newErr ≠ None ∧ err = None)
        then errors_Wrapf newErr (Sprintf "closing %q" [filePath])
        else err in
      (err, Some f)
  end.

(** The loop of [createGoFileFromLines] over [lines], from index [ii] on. The
    state is the writer, [createdFuncMain] and [cursorInFile]. *)
Definition createGoFileFromLines_line (skipLines : gset Z) (cursorInCell : Cursor)
    (ii : Z) (line : string) (st : W * bool * Cursor) : W * bool * Cursor :=
  let '(w, createdFuncMain, cursorInFile) := st in
  if is_directive line then (Write w funcMainHeader, true, cursorInFile)
  else if decide (ii ∈ skipLines) then (w, createdFuncMain, cursorInFile)
  else
    let w := if createdFuncMain && bool_decide (line ≠ "") then Write w TAB else w in
    let cursorInFile :=
      if decide (ii = Line cursorInCell)
      then CursorPlusDelta w {| Line := 0; Col := Col cursorInCell |}
      else cursorInFile in
    let w := Write w line in
    let w := Write w NL in
    (w, createdFuncMain, cursorInFile).

Fixpoint createGoFileFromLines_loop (skipLines : gset Z) (cursorInCell : Cursor)
    (ii : Z) (lines : list string) (st : W * bool * Cursor) : W * bool * Cursor :=
  match lines with
  | [] => st
  | line :: lines =>
      createGoFileFromLines_loop skipLines cursorInCell (ii + 1) lines
        (createGoFileFromLines_line skipLines cursorInCell ii line st)
  end.

(** [createMainContentsFromDecls]. The closure [mergeCursorAndReportError]
    reads and assigns the results [cursor] and [err] of the function around
    it: they are its last argument and the second component of what it
    returns. *)
Definition mergeCursorAndReportError (w : W) (cursorInFile : Cursor) (name : string)
    (res : Cursor * option error) : bool * (Cursor * option error) :=
  let '(cursor, err) := res in
  if decide (Error w ≠ None)
  then (true, (cursor, errors_WithMessagef err (Sprintf "in block %q" [name])))
  else if HasCursor cursorInFile then (false, (cursorInFile, err))
  else (false, (cursor, err)).

(** The result is [cursor], [err] and the writer as the function leaves it;
    [None] when the loop over a chain of constants does not end within
    [fuel] iterations. *)
Definition createMainContentsFromDecls (fuel : nat) (writer : S)
    (decls : Declarations) (mainDecl : option Function_)
  : option (Cursor * option error * W) :=
  let cursor := NoCursor in
  let err : option error := None in
  let w := NewWriterWithCursor writer in
  let w := Writef w packageMain [] in
  if decide (err ≠ None) then Some (cursor, err, w)
  else
  let '(w, c) := RenderImports decls w in
  let '(stop, (cursor, err)) := mergeCursorAndReportError w c "imports" (cursor, err) in
  if stop then Some (cursor, err, w)
  else
  let '(w, c) := RenderTypes decls w in
  let '(stop, (cursor, err)) := mergeCursorAndReportError w c "types" (cursor, err) in
  if stop then Some (cursor, err, w)
  else
  match RenderConstants fuel decls w with
  | None => None
  | Some (w, c) =>
  let '(stop, (cursor, err)) := mergeCursorAndReportError w c "constants" (cursor, err) in
  if stop then Some (cursor, err, w)
  else
  let '(w, c) := RenderVariables decls w in
  let '(stop, (cursor, err)) := mergeCursorAndReportError w c "variables" (cursor, err) in
  if stop then Some (cursor, err, w)
  else
  let '(w, c) := RenderFunctions decls w in
  let '(stop, (cursor, err)) := mergeCursorAndReportError w c "functions" (cursor, err) in
  if stop then Some (cursor, err, w)
  else
  match mainDecl with
  | Some mainDecl =>
      let w := Writef w NL [] in
      let cursor :=
        if HasCursor (fn_Cursor mainDecl)
        then {| Line := int_add (Line (fn_Cursor mainDecl)) (w_Line w);
                Col := Col (fn_Cursor mainDecl) |}
        else cursor in
      let w := Writef w ("%s" +:+ NL) [fn_Definition mainDecl] in
      Some (cursor, err, w)
  | None => Some (cursor, err, w)
  end
  end.

End Compose.

Section ComposeFile.
Context {F : Type} {OF : OsFile F} {SC : Strconv} {CS : CursorSentinel}
        {MR : MapRange}.

(** [createGoFileFromLines]. The result is [cursorInFile], [err] and the file
    as the function leaves it ([None] when it was not created). *)
Definition createGoFileFromLines (created : error + F) (filePath : string)
    (lines : list string) (skipLines : gset Z) (cursorInCell : Cursor)
  : Cursor * option error * option F :=
  let cursorInFile := NoCursor in
  match created with
  | inl err =>
      (cursorInFile, errors_Wrapf (Some err) (Sprintf "Failed to create %q" [filePath]), None)
  | inr f =>
      let w := NewWriterWithCursor f in
      let w := Write w packageMain in
      let '(w, createdFuncMain, cursorInFile) :=
        createGoFileFromLines_loop skipLines cursorInCell 0 lines (w, false, cursorInFile) in
      let w := if createdFuncMain then Write w funcMainFooter else w in
      if decide (Error w ≠ None) then
        (* [f != nil]: the deferred function closes the file *)
        let '(f, _) := file_Close (w_w w) in
        (cursorInFile, Error w, Some f)
      else
        let '(f, err) := file_Close (w_w w) in
        if decide (err ≠ None) then
          (* [f != nil] still: the deferred function closes it again *)
          let '(f, _) := file_Close f in
          (cursorInFile, errors_Wrapf err (Sprintf "Failed to close %q" [filePath]), Some f)
        else (cursorInFile, err, Some f)
  end.

(** [createMainFileFromDecls]; [created] is the outcome of
    [os.Create(s.MainPath())]. When the file is not created the result
    [cursor] is the zero value of its type. *)
Definition createMainFileFromDecls (fuel : nat) (created : error + F)
    (decls : Declarations) (mainDecl : option Function_)
  : option (Cursor * option error * option F) :=
  match created with
  | inl err => Some ({| Line := 0; Col := 0 |}, Some err, None)
  | inr f =>
      match createMainContentsFromDecls fuel f decls mainDecl with
      | None => None
      | Some (cursor, err, w) =>
          let '(f, err2) := file_Close (w_w w) in
          if decide (err ≠ None)
          then Some (cursor, errors_Wrapf err "creating main.go", Some f)
          else
            let err := err2 in
            if decide (err ≠ None)
            then Some (cursor, errors_Wrapf err "closing main.go", Some f)
            else Some (cursor, err, Some f)
      end
  end.

End ComposeFile.

Global Arguments Write : simpl never.
Global Arguments Writef : simpl never.
Global Arguments CursorPlusDelta : simpl never.
Global Arguments RenderImports_entry : simpl never.
Global Arguments RenderVariables_entry : simpl never.
Global Arguments RenderFunctions_entry : simpl never.
Global Arguments RenderTypes_entry : simpl never.
Global Arguments Constant_Render : simpl never.
Global Arguments RenderConstants_block : simpl never.
Global Arguments createGoFileFromLines_line : simpl never.
Global Arguments mergeCursorAndReportError : simpl never.

(** ** Instances to run the model on *)

(** A file in memory that takes [mf_room] more bytes: a write that does not
    fit stores the bytes that do, and reports how many with an error, as a
    write to a full device does. [mf_closeErr] is what [Close] returns. *)
Record MemFile : Type := mkMemFile {
  mf_data : string;
  mf_room : nat;
  mf_closeErr : option error;
  mf_closed : nat
}.

Definition MemFile_Write (f : MemFile) (p : string) : MemFile * (Z * option error) :=
  if decide (String.length p ≤ mf_room f)%nat then
    (mkMemFile (mf_data f +:+ p) (mf_room f - String.length p) (mf_closeErr f) (mf_closed f),
     (len p, None))
  else
    (mkMemFile (mf_data f +:+ String.substring 0 (mf_room f) p) 0 (mf_closeErr f) (mf_closed f),
     (Z.of_nat (mf_room f), Some (ErrIO "no space left on device"))).

Definition MemFile_Close (f : MemFile) : MemFile * option error :=
  (mkMemFile (mf_data f) (mf_room f) (mf_closeErr f) (Datatypes.S (mf_closed f)),
   mf_closeErr f).

Global Instance MemFile_IoWriter : IoWriter MemFile := MemFile_Write.

Global Instance MemFile_OsFile : OsFile MemFile :=
  {| file_Writer := MemFile_Write; file_Close := MemFile_Close |}.

(** An empty file with room for [room] bytes whose [Close] succeeds. *)
Definition emptyFile (room : nat) : MemFile := mkMemFile "" room None 0.

(** [strconv.Quote] on a string of printable ASCII characters with no double
    quote and no backslash: the string between double quotes. *)
Definition asciiQuote : Strconv := λ s, DQUOTE +:+ s +:+ DQUOTE.

(** Modelled from the spec: the declarations of [NoCursor] and [HasCursor]
    are in a file of the package that is not composer.go. The spec has a
    position "non-negative, with a sentinel unmapped value distinct from any
    real position", and a candidate is retained when it is not the sentinel. *)
Definition specSentinel : CursorSentinel :=
  {| NoCursor := {| Line := -1; Col := -1 |};
     HasCursor := λ c, bool_decide (c ≠ {| Line := -1; Col := -1 |}) |}.

(** Two orders of enumeration: the one of [map_to_list], and its reverse. *)
Program Definition forwardRange : MapRange :=
  {| rangeKeys := λ T m, (map_to_list m).*1 |}.
Next Obligation. reflexivity. Qed.

Program Definition backwardRange : MapRange :=
  {| rangeKeys := λ T m, reverse (map_to_list m).*1 |}.
Next Obligation. intros. apply reverse_Permutation. Qed.

(** A call of one of the two writing methods of a [WriterWithCursor], and
    its effect. *)
Inductive call : Type :=
  | CallWrite (content : string)
  | CallWritef (format : string) (args : list string).

Definition do_call {S : Type} {IW : IoWriter S} {SC : Strconv}
    (w : WriterWithCursor S) (c : call) : WriterWithCursor S :=
  match c with
  | CallWrite content => Write w content
  | CallWritef format args => Writef w format args
  end.

(** ** Blocks of constants *)

(** The [Constant] a key of [Constants] stands for. *)
Definition constantAt (d : Declarations) (key : string) : option Constant :=
  Constants d !! key ≫= (λ a, constHeap d !! a).

(** A head of a block: an entry of [Constants] with no previous link. *)
Definition isHead (d : Declarations) (key : string) : bool :=
  match constantAt d key with
  | Some c => bool_decide (const_Prev c = None)
  | None => false
  end.

(** [chain h p l]: following [Next] from [p] through the heap [h] reaches
    [nil], and [l] lists the constants on the way, head first. *)
Inductive chain (h : gmap ptr Constant) : option ptr → list Constant → Prop :=
  | chain_nil : chain h None []
  | chain_cons (a : ptr) (c : Constant) (l : list Constant) :
      h !! a = Some c → chain h (const_Next c) l → chain h (Some a) (c :: l).

Section ConstBlocks.
Context {S : Type} {IW : IoWriter S}.

(** One line of a [const ( ... )] block. *)
Definition block_line (st : WriterWithCursor S * Cursor) (c : Constant)
  : WriterWithCursor S * Cursor :=
  let '(w, cursor) := Constant_Render c (Write st.1 TAB, st.2) in
  (Write w NL, cursor).

(** What the spec has for a block whose constants are [l], head first: one
    constant is a single [const] declaration; more are the lines of one
    [const ( ... )] block, in the order of [l]. *)
Definition block_text (st : WriterWithCursor S * Cursor) (l : list Constant)
  : WriterWithCursor S * Cursor :=
  match l with
  | [c] =>
      let '(w, cursor) := Constant_Render c (Write st.1 "const ", st.2) in
      (Write w (NL +:+ NL), cursor)
  | _ =>
      let '(w, cursor) := foldl block_line (Write st.1 ("const (" +:+ NL), st.2) l in
      (Write w (")" +:+ NL +:+ NL), cursor)
  end.

End ConstBlocks.

(** ** The composer, phase by phase *)

Section Phases.
Context {S : Type} {IW : IoWriter S} {SC : Strconv} {CS : CursorSentinel}
        {MR : MapRange}.

Local Abbreviation W := (WriterWithCursor S).

(** The five renderers in the order [createMainContentsFromDecls] calls
    them, under the names it gives them. *)
Definition renderPhases (fuel : nat) (d : Declarations)
  : list (string * (W → option (W * Cursor))) :=
  [ ("imports", λ w, Some (RenderImports d w));
    ("types", λ w, Some (RenderTypes d w));
    ("constants", λ w, RenderConstants fuel d w);
    ("variables", λ w, Some (RenderVariables d w));
    ("functions", λ w, Some (RenderFunctions d w)) ].

(** The writer after the preamble. *)
Definition afterPreamble (writer : S) : W :=
  Writef (NewWriterWithCursor writer) packageMain [].

(** A candidate a renderer reports replaces the cursor when it has a
    position. *)
Definition mergeCursor (cursor candidate : Cursor) : Cursor :=
  if HasCursor candidate then candidate else cursor.

(** Phases that run one after the other, none leaving an error in the
    writer: the cursor merged so far and the writer, or [None] when one of
    them leaves an error (or does not end). *)
Fixpoint phases_ok (ps : list (string * (W → option (W * Cursor))))
    (cursor : Cursor) (w : W) : option (Cursor * W) :=
  match ps with
  | [] => Some (cursor, w)
  | (_, render) :: ps =>
      match render w with
      | None => None
      | Some (w, c) =>
          if decide (w_err w ≠ None) then None
          else phases_ok ps (mergeCursor cursor c) w
      end
  end.

(** The end of [createMainContentsFromDecls]: the entry point. *)
Definition entryPoint (cursor : Cursor) (w : W) (mainDecl : option Function_)
  : Cursor * W :=
  match mainDecl with
  | Some mainDecl =>
      let w := Writef w NL [] in
      let cursor :=
        if HasCursor (fn_Cursor mainDecl)
        then {| Line := int_add (Line (fn_Cursor mainDecl)) (w_Line w);
                Col := Col (fn_Cursor mainDecl) |}
        else cursor in
      (cursor, Writef w ("%s" +:+ NL) [fn_Definition mainDecl])
  | None => (cursor, w)
  end.

(** The composer from some phase on: the phases left, then the entry point.
    It returns after the first phase that leaves an error in the writer, and
    the error it returns is [nil] whatever happens. *)
Fixpoint composeFrom (ps : list (string * (W → option (W * Cursor))))
    (cursor : Cursor) (w : W) (mainDecl : option Function_)
  : option (Cursor * option error * W) :=
  match ps with
  | [] => let '(cursor, w) := entryPoint cursor w mainDecl in Some (cursor, None, w)
  | (_, render) :: ps =>
      match render w with
      | None => None
      | Some (w, c) =>
          if decide (w_err w ≠ None) then Some (cursor, None, w)
          else composeFrom ps (mergeCursor cursor c) w mainDecl
      end
  end.

(** What the spec has for the composer: "all phases are still invoked in
    sequence even after an error", each candidate with a position replacing
    the cursor. The result is the cursor and the writer. *)
Fixpoint allPhases (ps : list (string * (W → option (W * Cursor))))
    (cursor : Cursor) (w : W) : option (Cursor * W) :=
  match ps with
  | [] => Some (cursor, w)
  | (_, render) :: ps =>
      match render w with
      | None => None
      | Some (w, c) => allPhases ps (mergeCursor cursor c) w
      end
  end.

Definition composeAllPhases (fuel : nat) (writer : S) (d : Declarations)
    (mainDecl : option Function_) : option (Cursor * W) :=
  match allPhases (renderPhases fuel d) NoCursor (afterPreamble writer) with
  | None => None
  | Some (cursor, w) => Some (entryPoint cursor w mainDecl)
  end.

End Phases.

(** ** Declarations to run the model on *)

Definition noDeclarations : Declarations := mkDeclarations ∅ ∅ ∅ ∅ ∅ ∅.

(** [import f "fmt"] with the cursor two bytes into the alias, and
    [import "os"]. *)
Definition importFmt : Import :=
  mkImport {| Line := 0; Col := 2 |} "f" "fmt" true false.

Definition importOs : Import :=
  mkImport {| Line := 0; Col := 0 |} "" "os" false false.

Definition twoImports : Declarations :=
  mkDeclarations {[ "fmt" := importFmt; "os" := importOs ]} ∅ ∅ ∅ ∅ ∅.

(** An entry point with the cursor three bytes into its first line. *)
Definition mainWithCursor : Function_ :=
  mkFunction {| Line := 0; Col := 3 |} "func main() {}".

(** ** The text of a cell's file *)

(** What one line of the cell contributes: a line with the prefix of the
    directive is the header of [func main], whether or not its index is in
    [skipLines]; another line is left out when its index is in [skipLines],
    and written with its newline otherwise, after a tab when [func main] is
    open and the line is not empty. *)
Definition lineText (skipLines : gset Z) (inMain : bool) (ii : Z) (line : string)
  : string :=
  if is_directive line then funcMainHeader
  else if decide (ii ∈ skipLines) then ""
  else (if inMain && bool_decide (line ≠ "") then TAB else "") +:+ line +:+ NL.

Fixpoint linesText (skipLines : gset Z) (inMain : bool) (ii : Z)
    (lines : list string) : string :=
  match lines with
  | [] => ""
  | line :: lines =>
      lineText skipLines inMain ii line +:+
      linesText skipLines (inMain || is_directive line) (ii + 1) lines
  end.

Definition goFileText (lines : list string) (skipLines : gset Z) : string :=
  packageMain +:+ linesText skipLines false 0 lines +:+
  (if existsb is_directive lines then funcMainFooter else "").

(** A file that takes every write whole and keeps what it was given; [bytes]
    reads its contents. *)
Class HealthyFile {F : Type} {OF : OsFile F} (bytes : F → string) : Prop := {
  healthy_Write : ∀ (f : F) (p : string),
    ∃ f', ioWrite f p = (f', (len p, None)) ∧ bytes f' = bytes f +:+ p;
  healthy_Close : ∀ f : F, bytes (file_Close f).1 = bytes f
}.

(** A buffer without bound, closed without error. *)
Record Buffer : Type := mkBuffer { buf_data : string; buf_closed : nat }.

Global Instance Buffer_OsFile : OsFile Buffer :=
  {| file_Writer := λ b p, (mkBuffer (buf_data b +:+ p) (buf_closed b), (len p, None));
     file_Close := λ b, (mkBuffer (buf_data b) (Datatypes.S (buf_closed b)), None) |}.

Section Lines.
Context {F : Type} {OF : OsFile F} {CS : CursorSentinel}.

(** The state of the loop of [createGoFileFromLines] when it comes to the
    line of index [n]: the writer, [createdFuncMain] and [cursorInFile]. *)
Definition stateAtLine (f : F) (lines : list string) (skipLines : gset Z)
    (cursorInCell : Cursor) (n : nat) : WriterWithCursor F * bool * Cursor :=
  createGoFileFromLines_loop skipLines cursorInCell 0 (take n lines)
    (Write (NewWriterWithCursor f) packageMain, false, NoCursor).

(** At the start of a line of the cell the writer is at column 0, unless a
    write has failed. *)
Definition atLineStart (w : WriterWithCursor F) : Prop :=
  int_range (w_Line w) ∧ (w_err w = None → w_Col w = 0).

(** The writer of [createGoFileFromLines] after its last write. *)
Definition writerAtEnd (f : F) (lines : list string) (skipLines : gset Z)
    (cursorInCell : Cursor) : WriterWithCursor F :=
  let '(w, createdFuncMain, _) :=
    stateAtLine f lines skipLines cursorInCell (length lines) in
  if createdFuncMain then Write w funcMainFooter else w.

End Lines.

(** A chain of three constants, [A], [B] and [C], and the constant [Pi]
    alone. *)
Definition constA : Constant :=
  mkConstant {| Line := 0; Col := 0 |} "A" "int" "iota" false false false (Some 2%positive) None.

Definition constB : Constant :=
  mkConstant {| Line := 0; Col := 1 |} "B" "" "" true false false (Some 3%positive) (Some 1%positive).

Definition constC : Constant :=
  mkConstant {| Line := 0; Col := 0 |} "C" "" "" false false false None (Some 2%positive).

Definition constPi : Constant :=
  mkConstant {| Line := 0; Col := 0 |} "Pi" "" "3.14" false false false None None.

Definition fourConstants : Declarations :=
  mkDeclarations ∅ ∅
    {[ "A" := 1%positive; "B" := 2%positive; "C" := 3%positive; "Pi" := 4%positive ]}
    ∅ ∅
    {[ 1%positive := constA; 2%positive := constB; 3%positive := constC;
       4%positive := constPi ]}.

(** A writer whose first write failed: three of five bytes went through. *)
Definition failedWriter : WriterWithCursor MemFile :=
  Write (NewWriterWithCursor (emptyFile 3)) "hello".

(** A file with room for 20 bytes whose [Close] fails. *)
Definition smallFileBadClose : MemFile :=
  mkMemFile "" 20 (Some (ErrIO "close failed")) 0.

(** ** Sinks that take every write *)

(** An [io.Writer] that takes every write whole; [bytes] reads what it
    holds. *)
Class HealthySink {S : Type} {IW : IoWriter S} (bytes : S → string) : Prop :=
  healthy_sink : ∀ (s : S) (p : string),
    ∃ s', ioWrite s p = (s', (len p, None)) ∧ bytes s' = bytes s +:+ p.

(** The position at the end of a text: the number of its newlines, and the
    number of bytes after the last of them. *)
Definition endOfText (text : string) : Cursor :=
  {| Line := Z.of_nat (length (strings_Split_NL text)) - 1;
     Col := len (default "" (last (strings_Split_NL text))) |}.

(** The formats [Sprintf] is [fmt.Sprintf] on: every [%] of the format
    starts one of the verbs [%s] and [%q], with no flag, width or index. *)
Fixpoint verbs_s_q (format : string) : bool :=
  match format with
  | "" => true
  | String c rest =>
      if Ascii.eqb c "%"%char then
        match rest with
        | "" => false
        | String v rest' =>
            (Ascii.eqb v "s"%char || Ascii.eqb v "q"%char) && verbs_s_q rest'
        end
      else verbs_s_q rest
  end.

(** The calls whose format, if any, is such a format. *)
Definition call_verbs_s_q (c : call) : bool :=
  match c with
  | CallWrite _ => true
  | CallWritef format _ => verbs_s_q format
  end.

(** The text a call of [Write] or [Writef] hands to the writer, and the text
    of a sequence of calls. *)
Definition call_text {SC : Strconv} (c : call) : string :=
  match c with
  | CallWrite content => content
  | CallWritef format args => Sprintf format args
  end.

Definition calls_text {SC : Strconv} (calls : list call) : string :=
  foldr (λ c text, call_text c +:+ text) "" calls.

(** ** The text of the declarations *)

Section DeclText.
Context {SC : Strconv}.

(** The line of an import, of a variable and of a constant, the declaration
    of a type and the text of a function, as the renderers write them. *)
Definition importText (i : Import) : string :=
  TAB +:+ (if decide (imp_Alias i ≠ "") then imp_Alias i +:+ " " else "") +:+
  strconv_Quote (imp_Path i) +:+ NL.

Definition typeText (key : string) (t : TypeDecl) : string :=
  "type " +:+ key +:+ " " +:+ ty_TypeDefinition t +:+ NL.

Definition variableText (v : Variable_) : string :=
  TAB +:+ var_Name v +:+
  (if decide (var_TypeDefinition v ≠ "") then " " +:+ var_TypeDefinition v else "") +:+
  (if decide (var_ValueDefinition v ≠ "") then " = " +:+ var_ValueDefinition v else "") +:+
  NL.

Definition functionText (key : string) (f : Function_) : string :=
  (if strings_HasPrefix key "init_"
   then strings_Replace1 (fn_Definition f) key "init"
   else fn_Definition f) +:+ NL +:+ NL.

Definition constantText (c : Constant) : string :=
  const_Key c +:+
  (if decide (const_TypeDefinition c ≠ "") then " " +:+ const_TypeDefinition c else "") +:+
  (if decide (const_ValueDefinition c ≠ "") then " = " +:+ const_ValueDefinition c else "").

(** The texts of the entries of a map, one after the other in the
    increasing order of their keys. *)
Definition entriesOf {T : Type} (m : gmap string T) (entry : string → T → string)
    (keys : list string) : string :=
  foldr (λ key text,
           match m !! key with
           | Some x => entry key x +:+ text
           | None => text
           end) "" keys.

Definition entriesText {T : Type} (m : gmap string T) (entry : string → T → string)
  : string :=
  entriesOf m entry (sort_Strings (map_to_list m).*1).

Definition importsText (d : Declarations) : string :=
  if decide (size (Imports d) = 0%nat) then ""
  else "import (" +:+ NL +:+ entriesText (Imports d) (λ _, importText) +:+
       ")" +:+ NL +:+ NL.

Definition typesText (d : Declarations) : string :=
  if decide (size (Types d) = 0%nat) then ""
  else entriesText (Types d) typeText +:+ NL.

Definition variablesText (d : Declarations) : string :=
  if decide (size (Variables d) = 0%nat) then ""
  else "var (" +:+ NL +:+ entriesText (Variables d) (λ _, variableText) +:+
       ")" +:+ NL +:+ NL.

Definition functionsText (d : Declarations) : string :=
  entriesText (Functions d) functionText.

(** A block of constants: one constant is a declaration of its own, more
    are the lines of one [const ( ... )]. *)
Definition constBlockText (l : list Constant) : string :=
  match l with
  | [c] => "const " +:+ constantText c +:+ NL +:+ NL
  | _ =>
      "const (" +:+ NL +:+
      foldr (λ c text, TAB +:+ constantText c +:+ NL +:+ text) "" l +:+
      ")" +:+ NL +:+ NL
  end.

Definition constantsText (blocks : list (list Constant)) : string :=
  foldr (λ l text, constBlockText l +:+ text) "" blocks.

Definition entryPointText (mainDecl : option Function_) : string :=
  match mainDecl with
  | Some mainDecl => NL +:+ fn_Definition mainDecl +:+ NL
  | None => ""
  end.

End DeclText.

(** [blocksOf d heads blocks]: every pointer of [Constants] is to a constant
    of the heap; [heads] are the keys of the constants with no previous
    link, each once, in increasing order; and [blocks] are the chains that
    start at them, each from its head to its tail. *)
Definition blocksOf (d : Declarations) (heads : list string)
    (blocks : list (list Constant)) : Prop :=
  (∀ key a, Constants d !! key = Some a → is_Some (constHeap d !! a)) ∧
  Sorted String.le heads ∧
  NoDup heads ∧
  (∀ key, key ∈ heads ↔ isHead d key = true) ∧
  Forall2 (λ key l, ∃ a, Constants d !! key = Some a ∧
                         chain (constHeap d) (Some a) l) heads blocks.

(** [appended bytes w w' text]: from [w] to [w'] the sink has taken [text],
    and no write has failed. *)
Definition appended {S : Type} (bytes : S → string)
    (w w' : WriterWithCursor S) (text : string) : Prop :=
  w_err w' = None ∧ bytes (w_w w') = bytes (w_w w) +:+ text.

(** ** More inputs to run the model on *)

(** Declarations of every category; none holds the cursor but the constant
    [B]. The constants are those of [fourConstants]. *)
Definition sampleDeclarations : Declarations :=
  mkDeclarations
    {[ "fmt" := mkImport {| Line := 0; Col := 0 |} "f" "fmt" false false;
       "os" := importOs ]}
    {[ "T" := mkTypeDecl {| Line := 0; Col := 0 |} "struct{}" false false ]}
    (Constants fourConstants)
    {[ "x" := mkVariable {| Line := 0; Col := 0 |} "x" "int" "1" false false false;
       "y" := mkVariable {| Line := 0; Col := 0 |} "y" "" "2" false false false ]}
    {[ "f" := mkFunction {| Line := -1; Col := -1 |} "func f() {}";
       "init_a" := mkFunction {| Line := -1; Col := -1 |} "func init_a() {}" ]}
    (constHeap fourConstants).

(** Declarations that hold no cursor at all: an import, a constant and a
    function. *)
Definition plainDeclarations : Declarations :=
  mkDeclarations
    {[ "os" := importOs ]} ∅ {[ "Pi" := 1%positive ]} ∅
    {[ "f" := mkFunction {| Line := -1; Col := -1 |} "func f() {}" ]}
    {[ 1%positive := constPi ]}.

(** Three calls on a writer. *)
Definition threeCalls : list call :=
  [ CallWrite ("ab" +:+ NL +:+ "cd"); CallWritef ("%s" +:+ NL) ["x"]; CallWrite "yz" ].

(** The definition of a function as [RenderFunctions] writes it: the key of
    an [init_...] function gives way to [init]. *)
Definition writtenDefinition (key : string) (f : Function_) : string :=
  if strings_HasPrefix key "init_"
  then strings_Replace1 (fn_Definition f) key "init"
  else fn_Definition f.

(** Three functions; the cursor is in the second line of [f], after four
    bytes. *)
Definition cursorFunctions : Declarations :=
  mkDeclarations ∅ ∅ ∅ ∅
    {[ "a" := mkFunction {| Line := -1; Col := -1 |} "func a() {}";
       "f" := mkFunction {| Line := 1; Col := 4 |}
                ("func f() {" +:+ NL +:+ TAB +:+ "return" +:+ NL +:+ "}");
       "g" := mkFunction {| Line := -1; Col := -1 |} "func g() {}" ]}
    ∅.

(** The position [delta] away from a position: what [CursorPlusDelta] gives
    for a writer at [position]. *)
Definition positionPlusDelta (position delta : Cursor) : Cursor :=
  {| Line := int_add (Line position) (Line delta);
     Col := if decide (Line delta > 0) then Col delta
            else int_add (Col position) (Col delta) |}.

(** A constant of its own, with the cursor two bytes into its value. *)
Definition constE : Constant :=
  mkConstant {| Line := 0; Col := 2 |} "E" "float64" "2.72" false false true None None.

(** * Properties *)

(** ** Go's [int] *)

Lemma int_wrap_range z : int_range (int_wrap z).
Proof.
  unfold int_range, int_wrap.
  pose proof (Z.mod_pos_bound (z + 2 ^ 63) (2 ^ 64)). lia.
Qed.

Lemma int_wrap_id z : int_range z → int_wrap z = z.
Proof.
  unfold int_range, int_wrap. intros Hz.
  rewrite Z.mod_small; lia.
Qed.

Lemma int_range_0 : int_range 0.
Proof. by split; vm_compute. Qed.

Lemma int_add_range a b : int_range (int_add a b).
Proof. apply int_wrap_range. Qed.

Lemma int_add_exact a b : int_range (a + b) → int_add a b = a + b.
Proof. apply int_wrap_id. Qed.

Lemma int_add_0_r a : int_range a → int_add a 0 = a.
Proof. intros Ha. unfold int_add. rewrite Z.add_0_r. by apply int_wrap_id. Qed.

(** ** The writer *)

Section WriterFacts.
Context {S : Type} {IW : IoWriter S} {SC : Strconv}.

Implicit Types w : WriterWithCursor S.

Lemma Write_frozen w content : w_err w ≠ None → Write w content = w.
Proof. unfold Write. by destruct (w_err w). Qed.

Lemma Writef_frozen w format args : w_err w ≠ None → Writef w format args = w.
Proof. unfold Writef. by destruct (w_err w). Qed.

Lemma Writef_Write w format args :
  Writef w format args = Write w (Sprintf format args).
Proof.
  unfold Writef. destruct (w_err w) eqn:E; [|done].
  symmetry. apply Write_frozen. by rewrite E.
Qed.

(** What a call of [Write] that leaves no error has done. *)
Lemma Write_ok w content :
  w_err (Write w content) = None →
  w_err w = None ∧
  ioWrite (w_w w) content = (w_w (Write w content), (len content, None)).
Proof.
  unfold Write. destruct (w_err w) eqn:E; [by intros ?; simplify_eq|].
  destruct (ioWrite (w_w w) content) as [s [n e]].
  case_decide as Hn; [done|]. subst n.
  destruct e; [done|]. by case_decide.
Qed.

Lemma Write_err_mono w content : w_err w ≠ None → w_err (Write w content) ≠ None.
Proof. intros Hw. by rewrite Write_frozen. Qed.

Lemma Write_Line_range w content :
  int_range (w_Line w) → int_range (w_Line (Write w content)).
Proof.
  intros Hr. unfold Write. destruct (w_err w); [done|].
  destruct (ioWrite (w_w w) content) as [s [n e]].
  destruct (if decide (n ≠ len content) then _ else e); [done|].
  case_decide; [done|]. apply int_add_range.
Qed.

Lemma do_call_frozen w c : w_err w ≠ None → do_call w c = w.
Proof. destruct c; [apply Write_frozen | apply Writef_frozen]. Qed.

(** C4. Once the error of a writer is set, no sequence of calls of [Write]
    and [Writef] changes the writer: the object behind it gets no byte,
    [Line] and [Col] stay, and [Error] still returns that first error. *)
Theorem sticky_first_error w (e : error) (calls : list call) :
  Error w = Some e →
  foldl do_call w calls = w ∧
  w_w (foldl do_call w calls) = w_w w ∧
  w_Line (foldl do_call w calls) = w_Line w ∧
  w_Col (foldl do_call w calls) = w_Col w ∧
  Error (foldl do_call w calls) = Some e.
Proof.
  intros He.
  assert (Hfix : foldl do_call w calls = w).
  { induction calls as [|c calls IH]; [done|].
    simpl. rewrite do_call_frozen; [done|].
    unfold Error in He. by rewrite He. }
  by rewrite Hfix.
Qed.

End WriterFacts.

(** ** The renderers on a writer whose error is set *)

Ltac frozen :=
  repeat first
    [ match goal with
      | Hw : w_err ?w ≠ None |- _ =>
          first [ rewrite (Write_frozen w) by exact Hw
                | rewrite (Writef_frozen w) by exact Hw ]
      end
    | case_decide
    | progress simpl ].

Section RenderFrozen.
Context {S : Type} {IW : IoWriter S} {SC : Strconv} {CS : CursorSentinel}
        {MR : MapRange}.

Implicit Types (w : WriterWithCursor S) (d : Declarations) (c : Cursor).

Lemma foldl_frozen {A : Type} (f : WriterWithCursor S * Cursor → A → WriterWithCursor S * Cursor)
    w c (l : list A) :
  (∀ c a, (f (w, c) a).1 = w) → (foldl f (w, c) l).1 = w.
Proof.
  intros Hf. revert c. induction l as [|a l IH]; intros c; [done|].
  simpl. specialize (Hf c a). destruct (f (w, c) a) as [w' c'].
  simpl in Hf. subst w'. apply IH.
Qed.

Lemma RenderImports_entry_frozen d w c key :
  w_err w ≠ None → (RenderImports_entry d (w, c) key).1 = w.
Proof.
  intros Hw. unfold RenderImports_entry.
  destruct (Imports d !! key); [|done]. by frozen.
Qed.

Lemma RenderVariables_entry_frozen d w c key :
  w_err w ≠ None → (RenderVariables_entry d (w, c) key).1 = w.
Proof.
  intros Hw. unfold RenderVariables_entry.
  destruct (Variables d !! key); [|done]. by frozen.
Qed.

Lemma RenderFunctions_entry_frozen d w c key :
  w_err w ≠ None → (RenderFunctions_entry d (w, c) key).1 = w.
Proof.
  intros Hw. unfold RenderFunctions_entry.
  destruct (Functions d !! key); [|done]. by frozen.
Qed.

Lemma RenderTypes_entry_frozen d w c key :
  w_err w ≠ None → (RenderTypes_entry d (w, c) key).1 = w.
Proof.
  intros Hw. unfold RenderTypes_entry.
  destruct (Types d !! key); [|done]. by frozen.
Qed.

Lemma Constant_Render_frozen (k : Constant) w c :
  w_err w ≠ None → (Constant_Render k (w, c)).1 = w.
Proof. intros Hw. unfold Constant_Render. by frozen. Qed.

Lemma RenderImports_frozen d w : w_err w ≠ None → (RenderImports d w).1 = w.
Proof.
  intros Hw. unfold RenderImports. case_decide; [done|].
  rewrite (Write_frozen w) by done.
  pose proof (foldl_frozen (RenderImports_entry d) w NoCursor
                (sortedKeys (Imports d))) as Hf.
  destruct (foldl _ _ _) as [w' c']. simpl in *.
  rewrite Hf; [by rewrite Write_frozen|].
  intros; by apply RenderImports_entry_frozen.
Qed.

Lemma RenderVariables_frozen d w : w_err w ≠ None → (RenderVariables d w).1 = w.
Proof.
  intros Hw. unfold RenderVariables. case_decide; [done|].
  rewrite (Write_frozen w) by done.
  pose proof (foldl_frozen (RenderVariables_entry d) w NoCursor
                (sortedKeys (Variables d))) as Hf.
  destruct (foldl _ _ _) as [w' c']. simpl in *.
  rewrite Hf; [by rewrite Write_frozen|].
  intros; by apply RenderVariables_entry_frozen.
Qed.

Lemma RenderTypes_frozen d w : w_err w ≠ None → (RenderTypes d w).1 = w.
Proof.
  intros Hw. unfold RenderTypes. case_decide; [done|].
  pose proof (foldl_frozen (RenderTypes_entry d) w NoCursor
                (sortedKeys (Types d))) as Hf.
  destruct (foldl _ _ _) as [w' c']. simpl in *.
  rewrite Hf; [by rewrite Write_frozen|].
  intros; by apply RenderTypes_entry_frozen.
Qed.

Lemma RenderFunctions_frozen d w : w_err w ≠ None → (RenderFunctions d w).1 = w.
Proof.
  intros Hw. unfold RenderFunctions. case_decide; [done|].
  apply foldl_frozen. intros; by apply RenderFunctions_entry_frozen.
Qed.

Lemma RenderConstants_chain_frozen fuel h p w c r :
  w_err w ≠ None →
  RenderConstants_chain fuel h p (w, c) = Some r → r.1 = w.
Proof.
  intros Hw. revert p c.
  induction fuel as [|fuel IH]; intros p c; destruct p as [a|];
    cbn [RenderConstants_chain]; try (intros; by simplify_eq).
  destruct (h !! a) as [k|]; [|done].
  rewrite (Write_frozen w) by done.
  pose proof (Constant_Render_frozen k w c Hw) as Hk.
  destruct (Constant_Render k (w, c)) as [w' c']. simpl in Hk. subst w'.
  rewrite (Write_frozen w) by done. apply IH.
Qed.

Lemma RenderConstants_block_frozen fuel d w c headKey r :
  w_err w ≠ None →
  RenderConstants_block fuel d (w, c) headKey = Some r → r.1 = w.
Proof.
  intros Hw. unfold RenderConstants_block.
  destruct (Constants d !! headKey) as [a|]; [|done].
  destruct (constHeap d !! a) as [k|]; [|done].
  case_decide.
  - rewrite (Write_frozen w) by done.
    pose proof (Constant_Render_frozen k w c Hw) as Hk.
    destruct (Constant_Render k (w, c)) as [w' c']. simpl in Hk. subst w'.
    rewrite (Write_frozen w) by done. by intros; simplify_eq.
  - rewrite (Write_frozen w) by done.
    destruct (RenderConstants_chain _ _ _ _) as [[w' c']|] eqn:E; [|done].
    apply RenderConstants_chain_frozen in E; [|done]. simpl in E. subst w'.
    rewrite (Write_frozen w) by done. by intros; simplify_eq.
Qed.

Lemma RenderConstants_blocks_frozen fuel d w c headKeys r :
  w_err w ≠ None →
  RenderConstants_blocks fuel d (w, c) headKeys = Some r → r.1 = w.
Proof.
  intros Hw. revert c. induction headKeys as [|k ks IH]; intros c; simpl.
  - by intros; simplify_eq.
  - destruct (RenderConstants_block fuel d (w, c) k) as [[w' c']|] eqn:E; [|done].
    apply RenderConstants_block_frozen in E; [|done]. simpl in E. subst w'.
    apply IH.
Qed.

Lemma RenderConstants_frozen fuel d w r :
  w_err w ≠ None → RenderConstants fuel d w = Some r → r.1 = w.
Proof.
  intros Hw. unfold RenderConstants. case_decide; [by intros; simplify_eq|].
  destruct (RenderConstants_heads _ _); [|done].
  by apply RenderConstants_blocks_frozen.
Qed.

End RenderFrozen.

(** ** The order of the keys *)

Section SortedKeys.
Context {T : Type}.

Implicit Types (m : gmap string T).

Lemma sort_Strings_Sorted keys : Sorted String.le (sort_Strings keys).
Proof. apply (Sorted_merge_sort String.le). Qed.

Lemma sort_Strings_Permutation keys : sort_Strings keys ≡ₚ keys.
Proof. apply (merge_sort_Permutation String.le). Qed.

(** Sorting forgets the order of what is sorted. *)
Lemma sort_Strings_perm keys1 keys2 :
  keys1 ≡ₚ keys2 → sort_Strings keys1 = sort_Strings keys2.
Proof.
  intros Hp. apply (Sorted_unique String.le); try apply sort_Strings_Sorted.
  by rewrite !sort_Strings_Permutation.
Qed.

(** A sorted list is its own sorting. *)
Lemma sort_Strings_sorted keys : Sorted String.le keys → sort_Strings keys = keys.
Proof.
  intros Hs. apply (Sorted_unique String.le); [apply sort_Strings_Sorted|done|].
  apply sort_Strings_Permutation.
Qed.

Lemma sortedKeys_Sorted (o : MapRange) m : Sorted String.le (sortedKeys m).
Proof. apply sort_Strings_Sorted. Qed.

Lemma sortedKeys_Permutation (o : MapRange) m : sortedKeys m ≡ₚ (map_to_list m).*1.
Proof. unfold sortedKeys. rewrite sort_Strings_Permutation. apply rangeKeys_perm. Qed.

Lemma sortedKeys_NoDup (o : MapRange) m : NoDup (sortedKeys m).
Proof. rewrite sortedKeys_Permutation. apply NoDup_fst_map_to_list. Qed.

Lemma sortedKeys_elem_of (o : MapRange) m key :
  key ∈ sortedKeys m ↔ is_Some (m !! key).
Proof.
  rewrite sortedKeys_Permutation, list_elem_of_fmap. split.
  - intros [[k x] [-> Hx]]. apply elem_of_map_to_list in Hx. by exists x.
  - intros [x Hx]. exists (key, x). split; [done|]. by apply elem_of_map_to_list.
Qed.


End SortedKeys.


(** ** The cursor of an import *)

Section ImportCursor.
Context {S : Type} {IW : IoWriter S} {SC : Strconv} {CS : CursorSentinel}
        {MR : MapRange}.

Implicit Types (w : WriterWithCursor S) (d : Declarations) (c : Cursor).

Lemma Writef_Line_range w format args :
  int_range (w_Line w) → int_range (w_Line (Writef w format args)).
Proof. rewrite Writef_Write. apply Write_Line_range. Qed.

Lemma RenderImports_entry_Line_range d w c key :
  int_range (w_Line w) → int_range (w_Line (RenderImports_entry d (w, c) key).1).
Proof.
  intros Hr. unfold RenderImports_entry.
  destruct (Imports d !! key) as [i|]; [|done].
  case_decide; simpl; auto using Write_Line_range, Writef_Line_range.
Qed.

Lemma RenderImports_entries_Line_range d keys w c :
  int_range (w_Line w) →
  int_range (w_Line (foldl (RenderImports_entry d) (w, c) keys).1).
Proof.
  revert w c. induction keys as [|key keys IH]; intros w c Hr; [done|].
  simpl. pose proof (RenderImports_entry_Line_range d w c key Hr) as Hr'.
  destruct (RenderImports_entry d (w, c) key) as [w' c']. by apply IH.
Qed.

(** An import that holds no cursor leaves the cursor of the renderer. *)
Lemma RenderImports_entry_no_cursor d w c key :
  (∀ i, Imports d !! key = Some i →
        imp_CursorInAlias i = false ∧ imp_CursorInPath i = false) →
  (RenderImports_entry d (w, c) key).2 = c.
Proof.
  intros Hno. unfold RenderImports_entry.
  destruct (Imports d !! key) as [i|]; [|done].
  destruct (Hno i eq_refl) as [-> ->]. by case_decide.
Qed.

Lemma RenderImports_entries_no_cursor d keys w c :
  (∀ key i, key ∈ keys → Imports d !! key = Some i →
            imp_CursorInAlias i = false ∧ imp_CursorInPath i = false) →
  (foldl (RenderImports_entry d) (w, c) keys).2 = c.
Proof.
  revert w c. induction keys as [|key keys IH]; intros w c Hno; [done|].
  simpl.
  pose proof (RenderImports_entry_no_cursor d w c key) as Hc.
  destruct (RenderImports_entry d (w, c) key) as [w' c']. simpl in Hc.
  rewrite IH.
  - apply Hc. intros i Hi. apply (Hno key); [left|done].
  - intros k i Hk. apply Hno. by right.
Qed.

Lemma CursorPlusDelta_Line w delta :
  Line (CursorPlusDelta w delta) = int_add (w_Line w) (Line delta).
Proof. unfold CursorPlusDelta. by case_decide. Qed.

Lemma CursorPlusDelta_Col_later w delta :
  Line delta > 0 → Col (CursorPlusDelta w delta) = Col delta.
Proof. intros Hd. unfold CursorPlusDelta. by case_decide. Qed.

Lemma CursorPlusDelta_Col_same w delta :
  Line delta <= 0 → Col (CursorPlusDelta w delta) = int_add (w_Col w) (Col delta).
Proof. intros Hd. unfold CursorPlusDelta. case_decide; [lia|done]. Qed.

(** C2. The line of [CursorPlusDelta] is the line of the writer plus the
    line of the delta (Go's [+] on [int]; the sum of the integers when it is
    an [int]). Its column is the column of the delta when the line of the
    delta is positive, and the column of the writer plus the column of the
    delta otherwise. In particular, for the import under [key] that has an
    alias, the cursor in the alias and the delta (0, 2), when no other import
    holds a cursor: [RenderImports] reports the line the writer has when it
    comes to the alias (after the imports of the smaller keys and the tab),
    and the column it has there plus 2. *)
Theorem CursorPlusDelta_and_import_alias :
  (∀ w delta,
     Line (CursorPlusDelta w delta) = int_add (w_Line w) (Line delta) ∧
     (int_range (w_Line w + Line delta) →
      Line (CursorPlusDelta w delta) = w_Line w + Line delta) ∧
     (Line delta > 0 → Col (CursorPlusDelta w delta) = Col delta) ∧
     (Line delta = 0 →
      Col (CursorPlusDelta w delta) = int_add (w_Col w) (Col delta)) ∧
     (Line delta = 0 → int_range (w_Col w + Col delta) →
      Col (CursorPlusDelta w delta) = w_Col w + Col delta)) ∧
  (∀ d w key importDecl (before after : list string),
     int_range (w_Line w) →
     Imports d !! key = Some importDecl →
     imp_Alias importDecl ≠ "" →
     imp_CursorInAlias importDecl = true →
     imp_CursorInPath importDecl = false →
     imp_Cursor importDecl = {| Line := 0; Col := 2 |} →
     (∀ key' i, key' ≠ key → Imports d !! key' = Some i →
                imp_CursorInAlias i = false ∧ imp_CursorInPath i = false) →
     sortedKeys (Imports d) = (before ++ key :: after)%list →
     let atAlias :=
       Write (foldl (RenderImports_entry d)
                (Write w ("import (" +:+ NL), NoCursor) before).1 TAB in
     (RenderImports d w).2 =
       {| Line := w_Line atAlias; Col := int_add (w_Col atAlias) 2 |} ∧
     (int_range (w_Col atAlias + 2) →
      Col (RenderImports d w).2 = w_Col atAlias + 2)).
Proof.
  split.
  - intros w delta. split_and!.
    + apply CursorPlusDelta_Line.
    + intros Hr. rewrite CursorPlusDelta_Line. by apply int_add_exact.
    + apply CursorPlusDelta_Col_later.
    + intros Hd. apply CursorPlusDelta_Col_same. lia.
    + intros Hd Hr. rewrite CursorPlusDelta_Col_same by lia. by apply int_add_exact.
  - intros d w key i before after Hr Hi Halias HinA HinP Hcur Hothers Hkeys atAlias.
    assert ((RenderImports d w).2 =
            {| Line := w_Line atAlias; Col := int_add (w_Col atAlias) 2 |}) as Hres;
      [|split; [done|]; intros Hcol; rewrite Hres; by apply int_add_exact].
    unfold RenderImports. case_decide as Hsize.
    { apply map_size_empty_iff in Hsize. rewrite Hsize in Hi. by simplify_map_eq. }
    rewrite Hkeys, foldl_app. simpl.
    pose proof (sortedKeys_NoDup MR (Imports d)) as Hnd.
    rewrite Hkeys in Hnd. apply NoDup_app in Hnd as (_ & Hba & Hnd).
    apply NoDup_cons in Hnd as [Hka _].
    pose proof (RenderImports_entries_Line_range d before
                  (Write w ("import (" +:+ NL)) NoCursor
                  (Write_Line_range _ _ Hr)) as Hr1.
    subst atAlias.
    destruct (foldl (RenderImports_entry d) (Write w ("import (" +:+ NL), NoCursor) before)
      as [w1 c1]. simpl in *.
    assert (RenderImports_entry d (w1, c1) key =
            (Writef (Writef (Write w1 TAB) "%s " [imp_Alias i]) ("%q" +:+ NL) [imp_Path i],
             {| Line := w_Line (Write w1 TAB);
                Col := int_add (w_Col (Write w1 TAB)) 2 |})) as ->.
    { unfold RenderImports_entry. rewrite Hi. case_decide; [|done].
      rewrite HinA, HinP, Hcur. f_equal.
      unfold CursorPlusDelta. case_decide; [simpl in *; lia|]. simpl.
      f_equal. apply int_add_0_r. by apply Write_Line_range. }
    pose proof (RenderImports_entries_no_cursor d after
      (Writef (Writef (Write w1 TAB) "%s " [imp_Alias i]) ("%q" +:+ NL) [imp_Path i])
      {| Line := w_Line (Write w1 TAB); Col := int_add (w_Col (Write w1 TAB)) 2 |}) as Hc.
    destruct (foldl _ _ after) as [w2 c2]. simpl in *.
    apply Hc. intros key' i' Hin. apply Hothers. intros ->. done.
Qed.

End ImportCursor.

(** ** The blocks of constants *)

Section Constants.
Context {S : Type} {IW : IoWriter S} {CS : CursorSentinel}.

Implicit Types (w : WriterWithCursor S) (d : Declarations) (c : Cursor).

Lemma chain_from_nil h l : chain h None l → l = [].
Proof. by inversion 1. Qed.

(** The loop over a chain ends when the fuel covers the chain, and renders
    its constants in the order of the chain. *)
Lemma RenderConstants_chain_spec fuel h p l (st : WriterWithCursor S * Cursor) :
  chain h p l → (length l ≤ fuel)%nat →
  RenderConstants_chain fuel h p st = Some (foldl block_line st l).
Proof.
  intros Hch. revert fuel st.
  induction Hch as [|a k l Ha Hch IH]; intros fuel st Hlen.
  - by destruct fuel.
  - destruct fuel as [|fuel]; [simpl in Hlen; lia|].
    cbn [RenderConstants_chain]. rewrite Ha. destruct st as [w c].
    simpl. unfold block_line at 2. simpl.
    destruct (Constant_Render k (Write w TAB, c)) as [w' c'].
    apply IH. simpl in Hlen. lia.
Qed.

Lemma RenderConstants_block_spec fuel d (st : WriterWithCursor S * Cursor) key a l :
  Constants d !! key = Some a → chain (constHeap d) (Some a) l →
  (length l ≤ fuel)%nat →
  RenderConstants_block fuel d st key = Some (block_text st l).
Proof.
  intros Hkey Hch Hlen. unfold RenderConstants_block. destruct st as [w c].
  rewrite Hkey. inversion Hch as [|a' k l' Ha Hch']; subst. rewrite Ha.
  case_decide as Hnext.
  - rewrite Hnext in Hch'. apply chain_from_nil in Hch' as ->. simpl.
    by destruct (Constant_Render k (Write w "const ", c)).
  - rewrite (RenderConstants_chain_spec fuel _ _ (k :: l')); [|done..].
    destruct l' as [|k' l'].
    { inversion Hch'; subst. congruence. }
    unfold block_text. simpl.
    by destruct (foldl block_line _ l').
Qed.

Lemma RenderConstants_blocks_spec fuel d (st : WriterWithCursor S * Cursor)
    (heads : list string) (blocks : list (list Constant)) :
  Forall2 (λ key l, ∃ a, Constants d !! key = Some a ∧
                         chain (constHeap d) (Some a) l) heads blocks →
  Forall (λ l, (length l ≤ fuel)%nat) blocks →
  RenderConstants_blocks fuel d st heads = Some (foldl block_text st blocks).
Proof.
  intros Hf. revert st.
  induction Hf as [|key l heads blocks (a & Hkey & Hch) Hf IH]; intros st Hlen.
  - done.
  - apply Forall_cons in Hlen as [Hl Hlen]. simpl.
    rewrite (RenderConstants_block_spec fuel d st key a l) by done.
    by apply IH.
Qed.

Lemma RenderConstants_heads_cons d key (keys : list string) :
  RenderConstants_heads d (key :: keys) =
    match constantAt d key with
    | None => None
    | Some constDecl =>
        match RenderConstants_heads d keys with
        | None => None
        | Some headKeys =>
            Some (if decide (const_Prev constDecl = None)
                  then key :: headKeys else headKeys)
        end
    end.
Proof. reflexivity. Qed.

(** The first loop: every key gives its constant, and the heads are kept in
    the order of the enumeration. *)
Lemma RenderConstants_heads_spec d (keys : list string) :
  RenderConstants_heads d keys =
    if decide (Forall (λ key, is_Some (constantAt d key)) keys)
    then Some (filter (λ key, isHead d key = true) keys)
    else None.
Proof.
  induction keys as [|key keys IH]; [done|].
  rewrite RenderConstants_heads_cons.
  destruct (decide (Forall (λ key, is_Some (constantAt d key)) (key :: keys)))
    as [Hall'|Hall'].
  - apply Forall_cons in Hall' as [[k Hk] Hall]. rewrite Hk. rewrite IH.
    rewrite decide_True by done.
    f_equal. rewrite filter_cons.
    assert (isHead d key = bool_decide (const_Prev k = None)) as ->
      by (unfold isHead; by rewrite Hk).
    destruct (decide (const_Prev k = None)) as [Hp|Hp].
    + by rewrite bool_decide_true, decide_True.
    + by rewrite bool_decide_false, decide_False.
  - destruct (constantAt d key) as [k|] eqn:Hk; [|done].
    rewrite IH. rewrite decide_False; [done|].
    intros Hall. apply Hall'. constructor; [by rewrite Hk|done].
Qed.


(** C3. Let [heads] be the keys of the constants with no previous link,
    each once, in increasing byte-wise order, and [blocks] the chains that
    start at them, each listed from its head to its tail. [RenderConstants]
    renders block after block in that order: a chain of one constant as a
    single [const] declaration, a longer one as the lines of one
    [const ( ... )] block in the order of the chain ([block_text]). It ends
    as soon as the fuel covers the longest chain, and the result is the same
    for every order [o] in which the map is enumerated. *)
Theorem RenderConstants_chain_order (o : MapRange) (fuel : nat) d w
    (heads : list string) (blocks : list (list Constant)) :
  (∀ key a, Constants d !! key = Some a → is_Some (constHeap d !! a)) →
  Sorted String.le heads →
  NoDup heads →
  (∀ key, key ∈ heads ↔ isHead d key = true) →
  Forall2 (λ key l, ∃ a, Constants d !! key = Some a ∧
                         chain (constHeap d) (Some a) l) heads blocks →
  Forall (λ l, (length l ≤ fuel)%nat) blocks →
  RenderConstants (MR := o) fuel d w = Some (foldl block_text (w, NoCursor) blocks).
Proof.
  intros Hvalid Hsorted Hnd Hheads Hblocks Hfuel.
  unfold RenderConstants. case_decide as Hsize.
  { apply map_size_empty_iff in Hsize.
    destruct heads as [|key heads].
    - by apply Forall2_nil_inv_l in Hblocks as ->.
    - assert (isHead d key = true) as Hk by (apply Hheads; left).
      unfold isHead, constantAt in Hk. rewrite Hsize in Hk. by simplify_map_eq. }
  rewrite RenderConstants_heads_spec.
  rewrite decide_True; last first.
  { apply Forall_forall. intros key Hkey.
    rewrite rangeKeys_perm in Hkey.
    apply list_elem_of_fmap in Hkey as ([k a] & -> & Hka).
    apply elem_of_map_to_list in Hka. simpl.
    unfold constantAt. rewrite Hka. simpl. by eapply Hvalid. }
  assert (sort_Strings (filter (λ key, isHead d key = true)
                          (rangeKeys (Constants d))) = heads) as ->.
  { rewrite <- (sort_Strings_sorted heads Hsorted).
    apply sort_Strings_perm. apply NoDup_Permutation.
    - apply NoDup_filter. rewrite rangeKeys_perm. apply NoDup_fst_map_to_list.
    - done.
    - intros key. rewrite list_elem_of_filter, Hheads. split; [by intros []|].
      intros Hk. split; [done|]. rewrite rangeKeys_perm.
      unfold isHead, constantAt in Hk.
      destruct (Constants d !! key) as [a|] eqn:Ha; [|done].
      apply list_elem_of_fmap. exists (key, a). split; [done|].
      by apply elem_of_map_to_list. }
  by apply RenderConstants_blocks_spec.
Qed.

End Constants.

(** ** The composer *)

Section Composer.
Context {S : Type} {IW : IoWriter S} {SC : Strconv} {CS : CursorSentinel}
        {MR : MapRange}.

Implicit Types (w : WriterWithCursor S) (d : Declarations) (c : Cursor).

Lemma mergeCursorAndReportError_nil w c name cursor :
  mergeCursorAndReportError w c name (cursor, None) =
    if decide (w_err w ≠ None) then (true, (cursor, None))
    else (false, (mergeCursor cursor c, None)).
Proof.
  unfold mergeCursorAndReportError, Error, mergeCursor.
  case_decide; [done|]. by destruct (HasCursor c).
Qed.

Lemma createMainContentsFromDecls_phases fuel writer d mainDecl :
  createMainContentsFromDecls fuel writer d mainDecl =
    composeFrom (renderPhases fuel d) NoCursor (afterPreamble writer) mainDecl.
Proof.
  unfold createMainContentsFromDecls, afterPreamble. simpl.
  destruct (RenderImports d _) as [w1 c1].
  rewrite mergeCursorAndReportError_nil. case_decide; [done|].
  destruct (RenderTypes d w1) as [w2 c2].
  rewrite mergeCursorAndReportError_nil. case_decide; [done|].
  destruct (RenderConstants fuel d w2) as [[w3 c3]|]; [|done].
  rewrite mergeCursorAndReportError_nil. case_decide; [done|].
  destruct (RenderVariables d w3) as [w4 c4].
  rewrite mergeCursorAndReportError_nil. case_decide; [done|].
  destruct (RenderFunctions d w4) as [w5 c5].
  rewrite mergeCursorAndReportError_nil. case_decide; [done|].
  unfold entryPoint. by destruct mainDecl.
Qed.

End Composer.

Section ComposerFacts.
Context {S : Type} {IW : IoWriter S} {SC : Strconv} {CS : CursorSentinel}
        {MR : MapRange}.

Implicit Types (w : WriterWithCursor S) (d : Declarations) (c : Cursor).
Implicit Types ps : list (string * (WriterWithCursor S → option (WriterWithCursor S * Cursor))).

Lemma composeFrom_err_nil ps cursor w mainDecl r :
  composeFrom ps cursor w mainDecl = Some r → r.1.2 = None.
Proof.
  revert cursor w. induction ps as [|[name render] ps IH]; intros cursor w; simpl.
  - destruct (entryPoint cursor w mainDecl). by intros; simplify_eq.
  - destruct (render w) as [[w' c']|]; [|done].
    case_decide; [by intros; simplify_eq|]. apply IH.
Qed.

(** The error [createMainContentsFromDecls] returns is [nil] on every input:
    [mergeCursorAndReportError] wraps the result [err], which nothing has
    assigned, and not [w.Error()]. *)
Lemma createMainContentsFromDecls_err_nil fuel writer d mainDecl r :
  createMainContentsFromDecls fuel writer d mainDecl = Some r → r.1.2 = None.
Proof. rewrite createMainContentsFromDecls_phases. apply composeFrom_err_nil. Qed.

Lemma composeFrom_app before rest cursor0 w0 cursor w mainDecl :
  phases_ok before cursor0 w0 = Some (cursor, w) →
  composeFrom (before ++ rest)%list cursor0 w0 mainDecl =
    composeFrom rest cursor w mainDecl.
Proof.
  revert cursor0 w0.
  induction before as [|[name render] before IH]; intros cursor0 w0; simpl.
  - by intros; simplify_eq.
  - destruct (render w0) as [[w' c']|]; [|done].
    case_decide; [done|]. apply IH.
Qed.

(** C6, amended. When a phase leaves an error in the writer, after phases
    that left none, the composer returns at once: the cursor is the one
    merged from the phases before, and the writer is as that phase left it.
    The renderers after it and the write of the entry point are not run:
    neither [after] nor [mainDecl] has a part in the result. *)
Theorem composer_returns_after_failed_phase (fuel : nat) (writer : S) d
    (mainDecl : option Function_) before name render after cursor w w' c :
  renderPhases fuel d = (before ++ (name, render) :: after)%list →
  phases_ok before NoCursor (afterPreamble writer) = Some (cursor, w) →
  render w = Some (w', c) →
  w_err w' ≠ None →
  ∃ err, createMainContentsFromDecls fuel writer d mainDecl = Some (cursor, err, w').
Proof.
  intros Hps Hbefore Hrender Herr. exists None.
  rewrite createMainContentsFromDecls_phases, Hps.
  rewrite (composeFrom_app _ _ _ _ _ _ _ Hbefore). simpl.
  rewrite Hrender. by rewrite decide_True.
Qed.

Lemma composeFrom_entryPoint ps cursor0 w0 cursor err w mainDecl :
  composeFrom ps cursor0 w0 None = Some (cursor, err, w) →
  w_err w = None →
  composeFrom ps cursor0 w0 (Some mainDecl) =
    Some ((entryPoint cursor w (Some mainDecl)).1, err,
          (entryPoint cursor w (Some mainDecl)).2).
Proof.
  revert cursor0 w0. induction ps as [|[name render] ps IH]; intros cursor0 w0; simpl.
  - by intros; simplify_eq.
  - destruct (render w0) as [[w' c']|]; [|done].
    case_decide as Hw'; [|apply IH].
    intros; by simplify_eq.
Qed.

End ComposerFacts.

Section Determinism.
Context {S : Type} {IW : IoWriter S} {SC : Strconv} {CS : CursorSentinel}.







End Determinism.

Section MainFile.
Context {F : Type} {OF : OsFile F} {SC : Strconv} {CS : CursorSentinel}
        {MR : MapRange}.

(** The error [createMainFileFromDecls] returns for a file that was created
    is the error of [Close], wrapped, whatever the writes did: the error
    of [createMainContentsFromDecls], which would come first, is always
    [nil]. *)
Lemma createMainFileFromDecls_error_is_close_error (fuel : nat) (f : F)
    (d : Declarations) (mainDecl : option Function_) cursor err f' :
  createMainFileFromDecls fuel (inr f) d mainDecl = Some (cursor, err, f') →
  ∃ w : WriterWithCursor F,
    createMainContentsFromDecls fuel f d mainDecl = Some (cursor, None, w) ∧
    err = errors_Wrapf (file_Close (w_w w)).2 "closing main.go".
Proof.
  unfold createMainFileFromDecls.
  destruct (createMainContentsFromDecls fuel f d mainDecl) as [[[c e] w]|] eqn:Hc;
    [|done].
  pose proof (createMainContentsFromDecls_err_nil _ _ _ _ _ Hc) as He.
  simpl in He. subst e.
  destruct (file_Close (w_w w)) as [f1 e2] eqn:Hclose. simpl.
  destruct e2 as [e2|]; simpl; intros; simplify_eq; exists w; by rewrite Hclose.
Qed.

End MainFile.

(** ** Strings *)

Lemma string_app_nil_r (s : string) : s +:+ "" = s.
Proof. induction s as [|a s IH]; [done|]. unfold String.app in *. simpl. by rewrite IH. Qed.

Lemma string_app_assoc (s1 s2 s3 : string) : (s1 +:+ s2) +:+ s3 = s1 +:+ (s2 +:+ s3).
Proof.
  induction s1 as [|a s1 IH]; [done|].
  unfold String.app in *. simpl. by rewrite IH.
Qed.

Lemma strings_Split_NL_length (s : string) : (1 ≤ length (strings_Split_NL s))%nat.
Proof.
  induction s as [|a s IH]; simpl; [lia|].
  destruct (Ascii.eqb a "010"); simpl; [lia|].
  destruct (strings_Split_NL s); simpl in *; lia.
Qed.

(** A text that ends in a newline has at least two pieces, the last empty. *)
Lemma strings_Split_NL_ends (s : string) :
  (2 ≤ length (strings_Split_NL (s +:+ NL)))%nat ∧
  last (strings_Split_NL (s +:+ NL)) = Some "".
Proof.
  induction s as [|a s [IH1 IH2]]; [split; [simpl; lia|done]|].
  change (String a s +:+ NL) with (String a (s +:+ NL)).
  cbn [strings_Split_NL]. destruct (Ascii.eqb a "010").
  - split; [simpl; lia|]. rewrite last_cons, IH2. done.
  - destruct (strings_Split_NL (s +:+ NL)) as [|p ps] eqn:E; [simpl in *; lia|].
    split; [done|]. destruct ps as [|p' ps]; [simpl in IH1; lia|].
    by rewrite last_cons_cons in IH2 |- *.
Qed.

(** ** The file of a cell's lines *)

Section LinesFacts.
Context {F : Type} {OF : OsFile F} {SC : Strconv} {CS : CursorSentinel}.

Implicit Types (w : WriterWithCursor F) (skipLines : gset Z) (lines : list string).

Lemma createGoFileFromLines_loop_app skipLines cursorInCell ii lines1 lines2
    (st : WriterWithCursor F * bool * Cursor) :
  createGoFileFromLines_loop skipLines cursorInCell ii (lines1 ++ lines2)%list st =
    createGoFileFromLines_loop skipLines cursorInCell (ii + Z.of_nat (length lines1)) lines2
      (createGoFileFromLines_loop skipLines cursorInCell ii lines1 st).
Proof.
  revert ii st. induction lines1 as [|line lines1 IH]; intros ii st.
  - simpl. by rewrite Z.add_0_r.
  - cbn [app createGoFileFromLines_loop length]. rewrite IH. f_equal. lia.
Qed.

(** A line with the prefix of the directive writes the header and opens
    [func main], whatever [skipLines] holds. *)
Lemma createGoFileFromLines_line_directive skipLines cursorInCell ii line
    w (createdFuncMain : bool) (cursorInFile : Cursor) :
  is_directive line = true →
  createGoFileFromLines_line skipLines cursorInCell ii line
      (w, createdFuncMain, cursorInFile) =
    (Write w funcMainHeader, true, cursorInFile).
Proof. intros Hd. unfold createGoFileFromLines_line. by rewrite Hd. Qed.

Section Healthy.
Context (bytes : F → string) {HF : HealthyFile bytes}.

Lemma Write_healthy w content :
  w_err w = None →
  w_err (Write w content) = None ∧
  bytes (w_w (Write w content)) = bytes (w_w w) +:+ content.
Proof.
  intros Hw. unfold Write. rewrite Hw.
  destruct (healthy_Write (w_w w) content) as (f' & Hio & Hb).
  unfold ioWrite in *. rewrite Hio.
  rewrite decide_False by (by intros ?). by case_decide.
Qed.

Lemma createGoFileFromLines_line_healthy skipLines cursorInCell ii line w
    (b : bool) (c : Cursor) :
  w_err w = None →
  ∃ w' c',
    createGoFileFromLines_line skipLines cursorInCell ii line (w, b, c) =
      (w', b || is_directive line, c') ∧
    w_err w' = None ∧
    bytes (w_w w') = bytes (w_w w) +:+ lineText skipLines b ii line.
Proof.
  intros Hw. unfold createGoFileFromLines_line, lineText.
  destruct (is_directive line).
  - destruct (Write_healthy w funcMainHeader Hw) as [He Hb].
    eexists _, _. split; [by rewrite orb_true_r|done].
  - rewrite orb_false_r. case_decide.
    + eexists _, _. split; [done|]. split; [done|]. by rewrite string_app_nil_r.
    + destruct (b && bool_decide (line ≠ "")).
      * destruct (Write_healthy w TAB Hw) as [He1 Hb1].
        destruct (Write_healthy _ line He1) as [He2 Hb2].
        destruct (Write_healthy _ NL He2) as [He3 Hb3].
        eexists _, _. split; [done|]. split; [done|].
        by rewrite Hb3, Hb2, Hb1, !string_app_assoc.
      * destruct (Write_healthy w line Hw) as [He2 Hb2].
        destruct (Write_healthy _ NL He2) as [He3 Hb3].
        eexists _, _. split; [done|]. split; [done|].
        by rewrite Hb3, Hb2, !string_app_assoc.
Qed.

Lemma createGoFileFromLines_loop_healthy skipLines cursorInCell ii lines w
    (b : bool) (c : Cursor) :
  w_err w = None →
  ∃ w' c',
    createGoFileFromLines_loop skipLines cursorInCell ii lines (w, b, c) =
      (w', b || existsb is_directive lines, c') ∧
    w_err w' = None ∧
    bytes (w_w w') = bytes (w_w w) +:+ linesText skipLines b ii lines.
Proof.
  revert ii w b c. induction lines as [|line lines IH]; intros ii w b c Hw.
  - exists w, c. simpl. by rewrite orb_false_r, string_app_nil_r.
  - cbn [createGoFileFromLines_loop linesText existsb].
    destruct (createGoFileFromLines_line_healthy skipLines cursorInCell ii line w b c Hw)
      as (w1 & c1 & -> & He1 & Hb1).
    destruct (IH (ii + 1) w1 (b || is_directive line) c1 He1)
      as (w2 & c2 & -> & He2 & Hb2).
    exists w2, c2. split; [by rewrite orb_assoc|]. split; [done|].
    by rewrite Hb2, Hb1, string_app_assoc.
Qed.

(** C10. The test of the directive comes before the test of the excluded
    lines: a line with the prefix [%main] or [%%] writes the header of
    [func main], whether or not its index is in [skipLines]. On a file that
    takes every write, [createGoFileFromLines] leaves the preamble, then the
    text of every line in order ([lineText]: the header for each line with
    the prefix), then the closing of [func main] once, when at least one
    line has the prefix, and not otherwise. *)
Theorem directive_before_skipLines (f : F) (filePath : string) lines skipLines
    (cursorInCell : Cursor) :
  (∀ ii line w (createdFuncMain : bool) (cursorInFile : Cursor),
     is_directive line = true →
     createGoFileFromLines_line skipLines cursorInCell ii line
         (w, createdFuncMain, cursorInFile) =
       (Write w funcMainHeader, true, cursorInFile)) ∧
  (∀ ii line (inMain : bool),
     is_directive line = true → lineText skipLines inMain ii line = funcMainHeader) ∧
  ∃ f',
    (createGoFileFromLines (inr f) filePath lines skipLines cursorInCell).2 = Some f' ∧
    bytes f' =
      bytes f +:+ packageMain +:+ linesText skipLines false 0 lines +:+
      (if existsb is_directive lines then funcMainFooter else "").
Proof.
  split; [|split].
  - intros. by apply createGoFileFromLines_line_directive.
  - intros ii line inMain Hd. unfold lineText. by rewrite Hd.
  - unfold createGoFileFromLines.
    destruct (Write_healthy (NewWriterWithCursor f) packageMain eq_refl) as [He0 Hb0].
    destruct (createGoFileFromLines_loop_healthy skipLines cursorInCell 0 lines
                _ false NoCursor He0) as (w1 & c1 & -> & He1 & Hb1).
    simpl in Hb0. rewrite Hb0 in Hb1. cbn [orb].
    set (w2 := if existsb is_directive lines then Write w1 funcMainFooter else w1).
    assert (w_err w2 = None ∧
            bytes (w_w w2) = bytes f +:+ packageMain +:+
              linesText skipLines false 0 lines +:+
              (if existsb is_directive lines then funcMainFooter else ""))
      as [He2 Hb2].
    { subst w2. destruct (existsb is_directive lines).
      - destruct (Write_healthy w1 funcMainFooter He1) as [He Hb].
        split; [done|]. by rewrite Hb, Hb1, !string_app_assoc.
      - split; [done|]. by rewrite Hb1, string_app_nil_r, !string_app_assoc. }
    unfold Error. rewrite decide_False by (rewrite He2; by intros Hn).
    pose proof (healthy_Close (w_w w2)) as Hc.
    destruct (file_Close (w_w w2)) as [f1 e1]. simpl in Hc.
    case_decide.
    + pose proof (healthy_Close f1) as Hc'.
      destruct (file_Close f1) as [f2 e2]. simpl in *.
      exists f2. split; [done|]. by rewrite Hc', Hc, Hb2.
    + exists f1. split; [done|]. by rewrite Hc, Hb2.
Qed.

End Healthy.

End LinesFacts.

Section LinesCursor.
Context {F : Type} {OF : OsFile F} {SC : Strconv} {CS : CursorSentinel}.

Implicit Types (w : WriterWithCursor F) (skipLines : gset Z) (lines : list string).

Lemma Write_ends_NL w (s : string) :
  int_range (w_Line w) → atLineStart (Write w (s +:+ NL)).
Proof.
  intros Hr. split; [by apply Write_Line_range|].
  unfold Write. destruct (w_err w) eqn:Hw; [by rewrite Hw|].
  destruct (ioWrite (w_w w) (s +:+ NL)) as [f' [n e]].
  destruct (if decide (n ≠ len (s +:+ NL)) then _ else e); [done|].
  destruct (strings_Split_NL_ends s) as [Hlen Hlast].
  rewrite !decide_False by lia. simpl. intros _. by rewrite Hlast.
Qed.

Lemma Write_TAB_Col w :
  w_Col w = 0 → w_err (Write w TAB) = None → w_Col (Write w TAB) = 1.
Proof.
  intros Hc. unfold Write. destruct (w_err w) eqn:Hw; [by rewrite Hw|].
  destruct (ioWrite (w_w w) TAB) as [f' [n e]].
  destruct (if decide (n ≠ len TAB) then _ else e); [done|].
  simpl. by rewrite Hc.
Qed.

Lemma createGoFileFromLines_line_atLineStart skipLines cursorInCell ii line w
    (b : bool) (c : Cursor) :
  atLineStart w →
  atLineStart (createGoFileFromLines_line skipLines cursorInCell ii line (w, b, c)).1.1.
Proof.
  intros [Hr Hc]. unfold createGoFileFromLines_line.
  destruct (is_directive line).
  - simpl. apply (Write_ends_NL w ("func main() {" +:+ NL +:+ TAB +:+ "flag.Parse") Hr).
  - case_decide; [done|]. simpl.
    apply (Write_ends_NL _ ""). apply Write_Line_range.
    destruct (b && bool_decide (line ≠ "")); [by apply Write_Line_range|done].
Qed.

Lemma createGoFileFromLines_loop_atLineStart skipLines cursorInCell ii lines w
    (b : bool) (c : Cursor) :
  atLineStart w →
  atLineStart (createGoFileFromLines_loop skipLines cursorInCell ii lines (w, b, c)).1.1.
Proof.
  revert ii w b c. induction lines as [|line lines IH]; intros ii w b c Hw; [done|].
  cbn [createGoFileFromLines_loop].
  pose proof (createGoFileFromLines_line_atLineStart skipLines cursorInCell ii line
                w b c Hw) as Hw'.
  destruct (createGoFileFromLines_line _ _ _ _ _) as [[w' b'] c']. by apply IH.
Qed.

(** Only the line whose index is the line of the cursor assigns
    [cursorInFile]. *)
Lemma createGoFileFromLines_line_other skipLines cursorInCell ii line w
    (b : bool) (c : Cursor) :
  ii ≠ Line cursorInCell →
  (createGoFileFromLines_line skipLines cursorInCell ii line (w, b, c)).2 = c.
Proof.
  intros Hii. unfold createGoFileFromLines_line.
  destruct (is_directive line); [done|]. case_decide; [done|].
  by rewrite decide_False.
Qed.

Lemma createGoFileFromLines_loop_other skipLines cursorInCell ii lines w
    (b : bool) (c : Cursor) :
  Line cursorInCell < ii ∨ ii + Z.of_nat (length lines) <= Line cursorInCell →
  (createGoFileFromLines_loop skipLines cursorInCell ii lines (w, b, c)).2 = c.
Proof.
  revert ii w b c. induction lines as [|line lines IH]; intros ii w b c Hii; [done|].
  cbn [createGoFileFromLines_loop].
  pose proof (createGoFileFromLines_line_other skipLines cursorInCell ii line w b c)
    as Hc.
  destruct (createGoFileFromLines_line _ _ _ _ _) as [[w' b'] c']. simpl in Hc.
  rewrite IH; [apply Hc|]; simpl in Hii; lia.
Qed.

(** What [createGoFileFromLines] returns, from the state its loop ends in. *)
Lemma createGoFileFromLines_result (f : F) (filePath : string) lines skipLines
    (cursorInCell : Cursor) :
  let res := createGoFileFromLines (inr f) filePath lines skipLines cursorInCell in
  res.1.1 = (stateAtLine f lines skipLines cursorInCell (length lines)).2 ∧
  (Error (writerAtEnd f lines skipLines cursorInCell) = None →
   (file_Close (w_w (writerAtEnd f lines skipLines cursorInCell))).2 = None →
   res.1.2 = None).
Proof.
  unfold createGoFileFromLines, writerAtEnd, stateAtLine. rewrite firstn_all.
  destruct (createGoFileFromLines_loop _ _ _ _ _) as [[w b] c]. simpl.
  set (w2 := if b then Write w funcMainFooter else w).
  case_decide as He.
  - destruct (file_Close (w_w w2)). split; [done|]. by intros ?.
  - destruct (file_Close (w_w w2)) as [f1 e1]. simpl.
    case_decide.
    + destruct (file_Close f1). split; [done|]. by intros _ ->.
    + done.
Qed.

(** C5, amended. The cursor is in the line of index [n] of the cell. When
    that line has not the prefix of the directive and is not excluded, the
    cursor returned has the line the writer is at when the loop comes to the
    line, and the column of the writer there, after the tab of a line that
    is not empty inside [func main], plus the column of the cursor in the
    cell: 1 more than that column after the tab, and that column otherwise,
    when no write has failed. When the line has the prefix of the directive
    or is excluded, the cursor returned is [NoCursor], and the error is
    [nil] when no write fails and [Close] does not fail. *)
Theorem createGoFileFromLines_cursor (f : F) (filePath : string) lines skipLines
    (cursorInCell : Cursor) (n : nat) (line : string) :
  Line cursorInCell = Z.of_nat n →
  lines !! n = Some line →
  let '(w, createdFuncMain, _) := stateAtLine f lines skipLines cursorInCell n in
  let indent := createdFuncMain && bool_decide (line ≠ "") in
  let atLine := if indent then Write w TAB else w in
  let res := createGoFileFromLines (inr f) filePath lines skipLines cursorInCell in
  (is_directive line = false → Z.of_nat n ∉ skipLines →
   res.1.1 = {| Line := w_Line atLine;
                Col := int_add (w_Col atLine) (Col cursorInCell) |} ∧
   (w_err atLine = None → w_Col atLine = if indent then 1 else 0)) ∧
  (is_directive line = true ∨ Z.of_nat n ∈ skipLines →
   res.1.1 = NoCursor ∧
   (Error (writerAtEnd f lines skipLines cursorInCell) = None →
    (file_Close (w_w (writerAtEnd f lines skipLines cursorInCell))).2 = None →
    res.1.2 = None)).
Proof.
  intros Hn Hline.
  pose proof (createGoFileFromLines_result f filePath lines skipLines cursorInCell)
    as [Hcur Herr].
  unfold stateAtLine in *. rewrite firstn_all in Hcur.
  assert (length (take n lines) = n) as Hlen.
  { rewrite length_take. apply lookup_lt_Some in Hline. lia. }
  assert (∀ st : WriterWithCursor F * bool * Cursor,
            createGoFileFromLines_loop skipLines cursorInCell 0 lines st =
            createGoFileFromLines_loop skipLines cursorInCell (0 + Z.of_nat n + 1)
              (drop (Datatypes.S n) lines)
              (createGoFileFromLines_line skipLines cursorInCell (0 + Z.of_nat n) line
                 (createGoFileFromLines_loop skipLines cursorInCell 0 (take n lines) st)))
    as Hsplit.
  { intros st.
    pose proof (createGoFileFromLines_loop_app skipLines cursorInCell 0
                  (take n lines) (line :: drop (Datatypes.S n) lines) st) as Happ.
    rewrite take_drop_middle in Happ by done. by rewrite Happ, Hlen. }
  rewrite Hsplit in Hcur. clear Hsplit.
  pose proof (createGoFileFromLines_loop_other skipLines cursorInCell 0 (take n lines)
                (Write (NewWriterWithCursor f) packageMain) false NoCursor) as Hc0.
  pose proof (createGoFileFromLines_loop_atLineStart skipLines cursorInCell 0
                (take n lines) (Write (NewWriterWithCursor f) packageMain) false NoCursor
                (Write_ends_NL (NewWriterWithCursor f) ("package main" +:+ NL)
                   int_range_0)) as Hstart.
  destruct (createGoFileFromLines_loop skipLines cursorInCell 0 (take n lines) _)
    as [[w b] c0].
  simpl in Hc0, Hstart. rewrite Hc0 in Hcur by (rewrite Hlen; lia). clear Hc0.
  destruct Hstart as [Hr Hcol].
  set (indent := b && bool_decide (line ≠ "")) in *.
  assert (∀ st : WriterWithCursor F * bool * Cursor,
            (createGoFileFromLines_loop skipLines cursorInCell (0 + Z.of_nat n + 1)
                   (drop (Datatypes.S n) lines) st).2 = st.2) as Hrest.
  { intros [[w' b'] c']. apply createGoFileFromLines_loop_other. lia. }
  rewrite Hrest in Hcur. clear Hrest.
  split.
  - intros Hd Hskip. split.
    + rewrite Hcur. unfold createGoFileFromLines_line. rewrite Hd.
      rewrite decide_False by done. rewrite decide_True by lia. simpl.
      fold indent. unfold CursorPlusDelta. simpl. f_equal.
      apply int_add_0_r. destruct indent; [by apply Write_Line_range|done].
    + destruct indent; [|done].
      intros He. apply Write_TAB_Col; [|done].
      apply Hcol. by apply Write_ok in He as [? _].
  - intros Hd. split; [|done].
    rewrite Hcur. unfold createGoFileFromLines_line.
    destruct Hd as [->| Hskip]; [done|].
    destruct (is_directive line); [done|]. by rewrite decide_True.
Qed.


(** A write error of [createGoFileFromLines] is the error it returns,
    whatever [Close] does. *)
Lemma createGoFileFromLines_write_error_first (f : F) (filePath : string) lines
    skipLines (cursorInCell : Cursor) :
  Error (writerAtEnd f lines skipLines cursorInCell) ≠ None →
  (createGoFileFromLines (inr f) filePath lines skipLines cursorInCell).1.2 =
    Error (writerAtEnd f lines skipLines cursorInCell).
Proof.
  unfold createGoFileFromLines, writerAtEnd, stateAtLine. rewrite firstn_all.
  destruct (createGoFileFromLines_loop _ _ _ _ _) as [[w b] c]. simpl.
  intros He. rewrite decide_True by done. by destruct (file_Close _).
Qed.

(** A write error of [writeLinesToFile] is the error it returns, whatever
    [Close] does; the error of [Close] is returned when no write failed. *)
Lemma writeLinesToFile_write_error_first (f : F) (filePath : string) lines :
  let st := foldl (writeLinesToFile_line filePath) (f, None) lines in
  (st.2 ≠ None → (writeLinesToFile (inr f) filePath lines).1 = st.2) ∧
  (st.2 = None →
   (writeLinesToFile (inr f) filePath lines).1 =
     errors_Wrapf (file_Close st.1).2 (Sprintf "closing %q" [filePath])).
Proof.
  unfold writeLinesToFile.
  destruct (foldl (writeLinesToFile_line filePath) (f, None) lines) as [f1 e1].
  simpl. destruct (file_Close f1) as [f2 e2]. simpl. split.
  - intros He. rewrite decide_False; [done|]. by intros [_ ?].
  - intros ->. destruct e2; [by rewrite decide_True|].
    rewrite decide_False; [done|]. by intros [? _].
Qed.

End LinesCursor.

(** * Further properties *)

(** ** The pieces of a text *)

Lemma string_length_app (s1 s2 : string) :
  String.length (s1 +:+ s2) = (String.length s1 + String.length s2)%nat.
Proof. induction s1 as [|a s1 IH]; [done|]. unfold String.app in *. simpl. by rewrite IH. Qed.

Lemma len_app (s1 s2 : string) : len (s1 +:+ s2) = len s1 + len s2.
Proof. unfold len. rewrite string_length_app. lia. Qed.

Lemma len_nonneg (s : string) : 0 <= len s.
Proof. unfold len. lia. Qed.

(** The pieces of [a +:+ b]: the last piece of [a] and the first of [b] are
    one piece. *)
Lemma strings_Split_NL_app (a b : string) (init : list string) (la hb : string)
    (tb : list string) :
  strings_Split_NL a = (init ++ [la])%list →
  strings_Split_NL b = hb :: tb →
  strings_Split_NL (a +:+ b) = (init ++ (la +:+ hb) :: tb)%list.
Proof.
  revert init la. induction a as [|c r IH]; intros init la Ha Hb.
  - simpl in Ha. destruct init as [|x [|y init]]; simplify_eq/=. done.
  - change (String c r +:+ b) with (String c (r +:+ b)).
    cbn [strings_Split_NL] in *. destruct (Ascii.eqb c "010").
    + destruct init as [|x init]; simplify_eq/=.
      { pose proof (strings_Split_NL_length r) as Hl.
        destruct (strings_Split_NL r); simpl in *; [lia|done]. }
      by rewrite (IH init la).
    + destruct (strings_Split_NL r) as [|p ps] eqn:Hr.
      { pose proof (strings_Split_NL_length r) as Hl. rewrite Hr in Hl. simpl in Hl. lia. }
      destruct init as [|x init]; simplify_eq/=.
      * by rewrite (IH [] p eq_refl Hb).
      * by rewrite (IH (p :: init) la eq_refl Hb).
Qed.

Lemma strings_Split_NL_snoc (s : string) :
  ∃ init la, strings_Split_NL s = (init ++ [la])%list.
Proof.
  pose proof (strings_Split_NL_length s) as Hl.
  destruct (strings_Split_NL s) as [|p ps] using rev_ind; [simpl in Hl; lia|].
  by eexists _, _.
Qed.

(** A text has at most one piece more than it has bytes, and no piece is
    longer than the text. *)
Lemma strings_Split_NL_bound (s : string) :
  (length (strings_Split_NL s) ≤ Datatypes.S (String.length s))%nat ∧
  Forall (λ p, (String.length p ≤ String.length s)%nat) (strings_Split_NL s).
Proof.
  induction s as [|c r [IH1 IH2]].
  { split; [simpl; lia|]. apply Forall_cons. split; [done|constructor]. }
  cbn [strings_Split_NL]. destruct (Ascii.eqb c "010").
  - split; [simpl; lia|]. constructor; [simpl; lia|].
    eapply Forall_impl; [exact IH2|]. simpl. intros; lia.
  - destruct (strings_Split_NL r) as [|p ps].
    + split; [simpl; lia|]. apply Forall_cons. split; [simpl; lia|constructor].
    + apply Forall_cons in IH2 as [Hp Hps].
      split; [simpl in *; lia|]. constructor; [simpl; lia|].
      eapply Forall_impl; [exact Hps|]. simpl. intros; lia.
Qed.

(** ** The cursor of the writer on a sink that takes every write *)

Section CursorTracking.
Context {S : Type} {IW : IoWriter S} {SC : Strconv}.
Context (bytes : S → string) {HS : HealthySink bytes}.

Implicit Types (w : WriterWithCursor S).

Lemma Write_sink_healthy w content :
  w_err w = None →
  w_err (Write w content) = None ∧
  bytes (w_w (Write w content)) = bytes (w_w w) +:+ content.
Proof.
  intros Hw. unfold Write. rewrite Hw.
  destruct (healthy_sink (w_w w) content) as (s' & Hio & Hb). rewrite Hio.
  rewrite decide_False by (by intros ?). by case_decide.
Qed.

Lemma Writef_sink_healthy w format args :
  w_err w = None →
  w_err (Writef w format args) = None ∧
  bytes (w_w (Writef w format args)) = bytes (w_w w) +:+ Sprintf format args.
Proof. rewrite Writef_Write. apply Write_sink_healthy. Qed.

Lemma Write_endOfText w (text content : string) :
  w_err w = None →
  WriterCursor w = endOfText text →
  int_range (len (text +:+ content)) →
  WriterCursor (Write w content) = endOfText (text +:+ content).
Proof.
  intros Hw Hcur Hrange.
  destruct (strings_Split_NL_snoc text) as (init & la & Ht).
  destruct (strings_Split_NL content) as [|hc tc] eqn:Hc.
  { pose proof (strings_Split_NL_length content) as Hl. rewrite Hc in Hl. simpl in Hl. lia. }
  pose proof (strings_Split_NL_app text content init la hc tc Ht Hc) as Happ.
  pose proof (strings_Split_NL_bound (text +:+ content)) as [Hn Hp].
  rewrite Happ in Hn, Hp.
  unfold WriterCursor, endOfText in Hcur. rewrite Ht in Hcur.
  rewrite last_snoc, length_app in Hcur. simpl in Hcur.
  injection Hcur as HL HC.
  unfold Write. rewrite Hw.
  destruct (healthy_sink (w_w w) content) as (s' & Hio & _). rewrite Hio.
  rewrite decide_False by (by intros ?). rewrite Hc.
  unfold endOfText, WriterCursor. rewrite Happ.
  assert (len (text +:+ content) < 2 ^ 63) as Hlt by apply Hrange.
  unfold len in Hlt.
  destruct tc as [|x tc].
  - rewrite decide_True by done. simpl. rewrite HL, HC.
    rewrite last_snoc, !length_app. simpl. f_equal.
    apply Forall_app in Hp as [_ [Hpiece _]%Forall_cons].
    rewrite len_app. apply int_add_exact. rewrite <- len_app.
    unfold len, int_range. lia.
  - rewrite decide_False by done. simpl w_Line. simpl w_Col. rewrite HL.
    rewrite length_app in Hn |- *. cbn [length] in Hn |- *. f_equal.
    + rewrite int_add_exact; [lia|]. unfold int_range. lia.
    + rewrite last_app, last_cons_cons.
      destruct (last (x :: tc)) eqn:E; [done|]. by apply last_None in E.
Qed.

Lemma calls_endOfText (calls : list call) w (text : string) :
  w_err w = None →
  WriterCursor w = endOfText text →
  int_range (len (text +:+ calls_text calls)) →
  w_err (foldl do_call w calls) = None ∧
  bytes (w_w (foldl do_call w calls)) = bytes (w_w w) +:+ calls_text calls ∧
  WriterCursor (foldl do_call w calls) = endOfText (text +:+ calls_text calls).
Proof.
  revert w text. induction calls as [|c calls IH]; intros w text Hw Hcur Hrange.
  - simpl. by rewrite !string_app_nil_r.
  - cbn [foldl calls_text foldr] in *. fold (calls_text calls) in *.
    assert (do_call w c = Write w (call_text c)) as ->
      by (destruct c; [done|apply Writef_Write]).
    destruct (Write_sink_healthy w (call_text c) Hw) as [Hw' Hb'].
    rewrite <- string_app_assoc in Hrange.
    assert (int_range (len (text +:+ call_text c))) as Hr1.
    { unfold int_range in *. rewrite len_app in Hrange.
      pose proof (len_nonneg (text +:+ call_text c)).
      pose proof (len_nonneg (calls_text calls)). lia. }
    pose proof (Write_endOfText w text (call_text c) Hw Hcur Hr1) as Hcur'.
    destruct (IH _ _ Hw' Hcur' Hrange) as (He & Hb & Hc).
    split; [done|]. split; [|by rewrite Hc, string_app_assoc].
    by rewrite Hb, Hb', string_app_assoc.
Qed.

(** X1. On a sink that takes every write, after any sequence of calls of
    [Write] and [Writef] on a new writer, the formats of [Writef] having no
    verb but [%s] and [%q], the writer has no error, the sink holds the
    texts of the calls one after the other, and [Cursor] is the position at
    the end of that text: its number of newlines, and the number of bytes
    after the last one. The length of the text is an [int]. *)
Theorem Cursor_at_end_of_text (s : S) (calls : list call) :
  forallb call_verbs_s_q calls = true →
  int_range (len (calls_text calls)) →
  let w := foldl do_call (NewWriterWithCursor s) calls in
  Error w = None ∧
  bytes (w_w w) = bytes s +:+ calls_text calls ∧
  WriterCursor w = endOfText (calls_text calls).
Proof.
  intros _ Hrange.
  exact (calls_endOfText calls (NewWriterWithCursor s) "" eq_refl eq_refl Hrange).
Qed.

End CursorTracking.

(** ** The cursor of a cell outside its lines *)

Section LinesOutside.
Context {F : Type} {OF : OsFile F} {SC : Strconv} {CS : CursorSentinel}.

(** X2. When the line of the cursor in the cell is not the index of a line
    of the cell (it is negative, or not less than the number of lines),
    [createGoFileFromLines] returns [NoCursor], whether or not the file is
    created and whatever the writes do. *)
Theorem createGoFileFromLines_cursor_outside (created : error + F)
    (filePath : string) (lines : list string) (skipLines : gset Z)
    (cursorInCell : Cursor) :
  Line cursorInCell < 0 ∨ Z.of_nat (length lines) <= Line cursorInCell →
  (createGoFileFromLines created filePath lines skipLines cursorInCell).1.1 = NoCursor.
Proof.
  intros Hout. destruct created as [err|f]; [done|].
  destruct (createGoFileFromLines_result f filePath lines skipLines cursorInCell)
    as [-> _].
  unfold stateAtLine. rewrite firstn_all.
  apply createGoFileFromLines_loop_other. lia.
Qed.

End LinesOutside.

(** ** [writeLinesToFile] *)

Section WriteLines.
Context {F : Type} {OF : OsFile F} {SC : Strconv}.

Lemma Sprintf_s_NL (x : string) : Sprintf ("%s" +:+ NL) [x] = x +:+ NL.
Proof. reflexivity. Qed.

Lemma writeLinesToFile_lines_after_error (filePath : string) (lines : list string)
    (f : F) (e : error) :
  foldl (writeLinesToFile_line filePath) (f, Some e) lines = (f, Some e).
Proof.
  induction lines as [|line lines IH]; [done|].
  cbn [foldl].
  assert (writeLinesToFile_line filePath (f, Some e) line = (f, Some e)) as ->; [|done].
  unfold writeLinesToFile_line. by rewrite decide_True.
Qed.

(** X3. [writeLinesToFile] writes nothing after a write that fails: when the
    lines before [line] are written without error and the write of [line]
    returns the error [e], the lines after it are dropped, the file is the
    one that write left, closed, and the error returned is [e] wrapped,
    whatever [Close] returns. *)
Theorem writeLinesToFile_stops_at_failed_write (f f1 f2 : F) (filePath : string)
    (before after : list string) (line : string) (n : Z) (e : error) :
  foldl (writeLinesToFile_line filePath) (f, None) before = (f1, None) →
  ioWrite f1 (line +:+ NL) = (f2, (n, Some e)) →
  writeLinesToFile (inr f) filePath (before ++ line :: after)%list =
    (Some (ErrWrap e (Sprintf "writing to %q" [filePath])),
     Some (file_Close f2).1).
Proof.
  intros Hbefore Hwrite. unfold writeLinesToFile.
  rewrite foldl_app, Hbefore. cbn [foldl].
  assert (writeLinesToFile_line filePath (f1, None) line =
          (f2, Some (ErrWrap e (Sprintf "writing to %q" [filePath])))) as ->.
  { unfold writeLinesToFile_line. rewrite decide_False by (by intros ?).
    rewrite Sprintf_s_NL, Hwrite. by rewrite decide_True. }
  rewrite writeLinesToFile_lines_after_error.
  destruct (file_Close f2) as [f3 e3]. simpl.
  rewrite decide_False; [done|]. by intros [_ ?].
Qed.

Section HealthyLines.
Context (bytes : F → string) {HF : HealthyFile bytes}.

Lemma writeLinesToFile_loop_healthy (filePath : string) (lines : list string) (f : F) :
  ∃ f', foldl (writeLinesToFile_line filePath) (f, None) lines = (f', None) ∧
        bytes f' = bytes f +:+ foldr (λ line text, line +:+ NL +:+ text) "" lines.
Proof.
  revert f. induction lines as [|line lines IH]; intros f.
  - exists f. by rewrite string_app_nil_r.
  - cbn [foldl foldr].
    destruct (healthy_Write f (line +:+ NL)) as (f1 & Hio & Hb1).
    assert (writeLinesToFile_line filePath (f, None) line = (f1, None)) as ->.
    { unfold writeLinesToFile_line. rewrite decide_False by (by intros ?).
      rewrite Sprintf_s_NL. unfold ioWrite in *. rewrite Hio.
      by rewrite decide_False by (by intros ?). }
    destruct (IH f1) as (f' & -> & Hb). exists f'. split; [done|].
    by rewrite Hb, Hb1, !string_app_assoc.
Qed.

(** X4. On a file that takes every write, [writeLinesToFile] leaves every
    line followed by a newline, in the order of the channel, and returns the
    error of [Close], wrapped, or [nil] when [Close] succeeds. *)
Theorem writeLinesToFile_text (f : F) (filePath : string) (lines : list string) :
  ∃ f1 f',
    writeLinesToFile (inr f) filePath lines =
      (errors_Wrapf (file_Close f1).2 (Sprintf "closing %q" [filePath]), Some f') ∧
    f' = (file_Close f1).1 ∧
    bytes f' = bytes f +:+ foldr (λ line text, line +:+ NL +:+ text) "" lines.
Proof.
  destruct (writeLinesToFile_loop_healthy filePath lines f) as (f1 & Hloop & Hb).
  exists f1, (file_Close f1).1. unfold writeLinesToFile. rewrite Hloop.
  pose proof (healthy_Close f1) as Hc.
  destruct (file_Close f1) as [f' e']. simpl in *.
  split; [|by rewrite Hc, Hb].
  destruct e'; [by rewrite decide_True|].
  rewrite decide_False; [done|]. by intros [? _].
Qed.

End HealthyLines.

End WriteLines.

(** ** The loop over a chain of constants *)

Section ChainLoop.
Context {S : Type} {IW : IoWriter S} {CS : CursorSentinel}.

Lemma RenderConstants_chain_inv (fuel : nat) (h : gmap ptr Constant)
    (p : option ptr) (st r : WriterWithCursor S * Cursor) :
  RenderConstants_chain fuel h p st = Some r →
  ∃ l, chain h p l ∧ (length l ≤ fuel)%nat ∧ r = foldl block_line st l.
Proof.
  revert p st. induction fuel as [|fuel IH]; intros p st;
    destruct p as [a|]; cbn [RenderConstants_chain]; try done.
  - intros ?; simplify_eq. exists []. split; [constructor|done].
  - destruct (h !! a) as [k|] eqn:Ha; [|done]. destruct st as [w c].
    destruct (Constant_Render k (Write w TAB, c)) as [w' c'] eqn:Hk.
    intros Hr. apply IH in Hr as (l & Hch & Hlen & ->).
    exists (k :: l). split; [by econstructor|]. split; [simpl; lia|].
    cbn [foldl].
    assert (block_line (w, c) k = (Write w' NL, c')) as ->; [|done].
    unfold block_line. simpl. by rewrite Hk.
  - intros ?; simplify_eq. exists []. split; [constructor|]. split; [simpl; lia|done].
Qed.

(** X5. The loop of [RenderConstants] over a block returns exactly when the
    links [Next] lead from the head to [nil]: within [fuel] iterations when
    the chain has at most [fuel] constants, and then each constant of the
    chain has been written as one line, in the order of the chain. When the
    links never reach [nil], it returns for no fuel. *)
Theorem RenderConstants_chain_returns (fuel : nat) (h : gmap ptr Constant)
    (p : option ptr) (st r : WriterWithCursor S * Cursor) :
  RenderConstants_chain fuel h p st = Some r ↔
  ∃ l, chain h p l ∧ (length l ≤ fuel)%nat ∧ r = foldl block_line st l.
Proof.
  split; [apply RenderConstants_chain_inv|].
  intros (l & Hch & Hlen & ->). by apply RenderConstants_chain_spec.
Qed.

End ChainLoop.

(** ** Declarations that hold no cursor *)

Section NoCursorInside.
Context {S : Type} {IW : IoWriter S} {SC : Strconv} {CS : CursorSentinel}
        {MR : MapRange}.

Implicit Types (w : WriterWithCursor S) (d : Declarations) (c : Cursor).

Lemma foldl_cursor_kept {A : Type}
    (f : WriterWithCursor S * Cursor → A → WriterWithCursor S * Cursor)
    (l : list A) w c :
  (∀ w c a, (f (w, c) a).2 = c) → (foldl f (w, c) l).2 = c.
Proof.
  intros Hf. revert w c. induction l as [|a l IH]; intros w c; [done|].
  simpl. specialize (Hf w c a). destruct (f (w, c) a) as [w' c'].
  simpl in Hf. subst c'. apply IH.
Qed.

Lemma RenderImports_no_cursor d w :
  (∀ key i, Imports d !! key = Some i →
            imp_CursorInAlias i = false ∧ imp_CursorInPath i = false) →
  (RenderImports d w).2 = NoCursor.
Proof.
  intros Hno. unfold RenderImports. case_decide; [done|].
  pose proof (foldl_cursor_kept (RenderImports_entry d) (sortedKeys (Imports d))
                (Write w ("import (" +:+ NL)) NoCursor) as Hc.
  destruct (foldl _ _ _) as [w' c']. simpl in *. apply Hc.
  intros w1 c1 key. apply RenderImports_entry_no_cursor. apply Hno.
Qed.

Lemma RenderTypes_no_cursor d w :
  (∀ key t, Types d !! key = Some t →
            ty_CursorInKey t = false ∧ ty_CursorInType t = false) →
  (RenderTypes d w).2 = NoCursor.
Proof.
  intros Hno. unfold RenderTypes. case_decide; [done|].
  pose proof (foldl_cursor_kept (RenderTypes_entry d) (sortedKeys (Types d))
                w NoCursor) as Hc.
  destruct (foldl _ _ _) as [w' c']. simpl in *. apply Hc.
  intros w1 c1 key. unfold RenderTypes_entry.
  destruct (Types d !! key) as [t|] eqn:Ht; [|done].
  by destruct (Hno key t Ht) as [-> ->].
Qed.

Lemma RenderVariables_no_cursor d w :
  (∀ key v, Variables d !! key = Some v →
            var_CursorInName v = false ∧ var_CursorInType v = false ∧
            var_CursorInValue v = false) →
  (RenderVariables d w).2 = NoCursor.
Proof.
  intros Hno. unfold RenderVariables. case_decide; [done|].
  pose proof (foldl_cursor_kept (RenderVariables_entry d) (sortedKeys (Variables d))
                (Write w ("var (" +:+ NL)) NoCursor) as Hc.
  destruct (foldl _ _ _) as [w' c']. simpl in *. apply Hc.
  intros w1 c1 key. unfold RenderVariables_entry.
  destruct (Variables d !! key) as [v|] eqn:Hv; [|done].
  destruct (Hno key v Hv) as (-> & -> & ->). by repeat case_decide.
Qed.

Lemma RenderFunctions_no_cursor d w :
  (∀ key f, Functions d !! key = Some f → HasCursor (fn_Cursor f) = false) →
  (RenderFunctions d w).2 = NoCursor.
Proof.
  intros Hno. unfold RenderFunctions. case_decide; [done|].
  apply foldl_cursor_kept.
  intros w1 c1 key. unfold RenderFunctions_entry.
  destruct (Functions d !! key) as [f|] eqn:Hf; [|done].
  by rewrite (Hno key f Hf).
Qed.

Lemma Constant_Render_no_cursor (k : Constant) w c :
  const_CursorInKey k = false → const_CursorInType k = false →
  const_CursorInValue k = false →
  (Constant_Render k (w, c)).2 = c.
Proof.
  intros Hk Ht Hv. unfold Constant_Render. rewrite Hk, Ht, Hv.
  by repeat case_decide.
Qed.

Lemma RenderConstants_chain_no_cursor (fuel : nat) (h : gmap ptr Constant)
    (p : option ptr) w c (r : WriterWithCursor S * Cursor) :
  (∀ a k, h !! a = Some k →
          const_CursorInKey k = false ∧ const_CursorInType k = false ∧
          const_CursorInValue k = false) →
  RenderConstants_chain fuel h p (w, c) = Some r → r.2 = c.
Proof.
  intros Hno. revert p w. induction fuel as [|fuel IH]; intros p w;
    destruct p as [a|]; cbn [RenderConstants_chain]; try done;
    try (by intros ?; simplify_eq).
  destruct (h !! a) as [k|] eqn:Ha; [|done].
  destruct (Hno a k Ha) as (Hk & Ht & Hv).
  pose proof (Constant_Render_no_cursor k (Write w TAB) c Hk Ht Hv) as Hc.
  destruct (Constant_Render k (Write w TAB, c)) as [w' c']. simpl in Hc. subst c'.
  apply IH.
Qed.

Lemma RenderConstants_blocks_no_cursor (fuel : nat) d (keys : list string) w c
    (r : WriterWithCursor S * Cursor) :
  (∀ a k, constHeap d !! a = Some k →
          const_CursorInKey k = false ∧ const_CursorInType k = false ∧
          const_CursorInValue k = false) →
  RenderConstants_blocks fuel d (w, c) keys = Some r → r.2 = c.
Proof.
  intros Hno. revert w.
  induction keys as [|key keys IH]; intros w; cbn [RenderConstants_blocks].
  { by intros ?; simplify_eq. }
  destruct (RenderConstants_block fuel d (w, c) key) as [[w' c']|] eqn:Hb; [|done].
  assert (c' = c) as ->; [|apply IH].
  unfold RenderConstants_block in Hb.
  destruct (Constants d !! key) as [a|]; [|done].
  destruct (constHeap d !! a) as [k|] eqn:Ha; [|done].
  destruct (Hno a k Ha) as (Hk & Ht & Hv).
  case_decide.
  - pose proof (Constant_Render_no_cursor k (Write w "const ") c Hk Ht Hv) as Hc.
    destruct (Constant_Render k _) as [w1 c1]. by simplify_eq/=.
  - destruct (RenderConstants_chain _ _ _ _) as [[w1 c1]|] eqn:Hch; [|done].
    apply RenderConstants_chain_no_cursor in Hch; [|done]. by simplify_eq/=.
Qed.

Lemma RenderConstants_no_cursor (fuel : nat) d w (r : WriterWithCursor S * Cursor) :
  (∀ a k, constHeap d !! a = Some k →
          const_CursorInKey k = false ∧ const_CursorInType k = false ∧
          const_CursorInValue k = false) →
  RenderConstants fuel d w = Some r → r.2 = NoCursor.
Proof.
  intros Hno. unfold RenderConstants. case_decide; [by intros ?; simplify_eq|].
  destruct (RenderConstants_heads _ _) as [headKeys|]; [|done].
  by apply RenderConstants_blocks_no_cursor.
Qed.

Lemma composeFrom_no_cursor
    (ps : list (string * (WriterWithCursor S → option (WriterWithCursor S * Cursor))))
    w (mainDecl : option Function_) r :
  Forall (λ p, ∀ w w' c, p.2 w = Some (w', c) → c = NoCursor) ps →
  (∀ m, mainDecl = Some m → HasCursor (fn_Cursor m) = false) →
  composeFrom ps NoCursor w mainDecl = Some r → r.1.1 = NoCursor.
Proof.
  intros Hps Hmain. revert w.
  induction Hps as [|[name render] ps Hp Hps IH]; intros w; simpl.
  - unfold entryPoint. destruct mainDecl as [m|]; [|by intros ?; simplify_eq].
    rewrite (Hmain m eq_refl). by intros ?; simplify_eq.
  - destruct (render w) as [[w' c']|] eqn:Hr; [|done].
    rewrite (Hp w w' c' Hr).
    case_decide; [by intros ?; simplify_eq|].
    assert (mergeCursor NoCursor NoCursor = NoCursor) as ->
      by (unfold mergeCursor; by destruct (HasCursor NoCursor)).
    apply IH.
Qed.

End NoCursorInside.

(** ** The text the renderers write on a sink that takes every write *)

Lemma string_app_nil_l (s : string) : "" +:+ s = s.
Proof. reflexivity. Qed.

Section RenderText.
Context {S : Type} {IW : IoWriter S} {SC : Strconv} {CS : CursorSentinel}
        {MR : MapRange}.
Context (bytes : S → string) {HS : HealthySink bytes}.

Implicit Types (w : WriterWithCursor S) (d : Declarations) (c : Cursor).

Lemma appended_refl w : w_err w = None → appended bytes w w "".
Proof. intros Hw. split; [done|]. by rewrite string_app_nil_r. Qed.

Lemma appended_Write w0 w text content :
  appended bytes w0 w text → appended bytes w0 (Write w content) (text +:+ content).
Proof.
  intros [Hw Hb]. destruct (Write_sink_healthy bytes w content Hw) as [Hw' Hb'].
  split; [done|]. by rewrite Hb', Hb, string_app_assoc.
Qed.

Lemma appended_Writef w0 w text format args :
  appended bytes w0 w text →
  appended bytes w0 (Writef w format args) (text +:+ Sprintf format args).
Proof. rewrite Writef_Write. apply appended_Write. Qed.

Lemma appended_trans w0 w1 w2 text1 text2 :
  appended bytes w0 w1 text1 → appended bytes w1 w2 text2 →
  appended bytes w0 w2 (text1 +:+ text2).
Proof.
  intros [_ Hb1] [Hw2 Hb2]. split; [done|]. by rewrite Hb2, Hb1, string_app_assoc.
Qed.

Lemma appended_eq w0 w text text' :
  appended bytes w0 w text → text = text' → appended bytes w0 w text'.
Proof. by intros ? <-. Qed.

Lemma appended_err w0 w text : appended bytes w0 w text → w_err w = None.
Proof. by intros [? _]. Qed.

End RenderText.

(** The writes of a straight piece of code, one after the other. *)
Ltac appended_writes :=
  eapply appended_eq;
  [ repeat first [ apply appended_Write | apply appended_Writef ];
    first [ by apply appended_refl | exact _ ]
  | simpl; rewrite ?string_app_assoc, ?string_app_nil_l, ?string_app_nil_r;
    try reflexivity ].

Section RendererTexts.
Context {S : Type} {IW : IoWriter S} {SC : Strconv} {CS : CursorSentinel}
        {MR : MapRange}.
Context (bytes : S → string) {HS : HealthySink bytes}.

Implicit Types (w : WriterWithCursor S) (d : Declarations) (c : Cursor).

Lemma sortedKeys_canonical {T : Type} (m : gmap string T) :
  sortedKeys m = sort_Strings (map_to_list m).*1.
Proof. unfold sortedKeys. apply sort_Strings_perm, rangeKeys_perm. Qed.

(** A loop over keys whose body writes the text of the entry of each key. *)
Lemma entries_appended {T : Type} (m : gmap string T)
    (step : WriterWithCursor S * Cursor → string → WriterWithCursor S * Cursor)
    (entry : string → T → string) :
  (∀ w c key x, w_err w = None → m !! key = Some x →
                appended bytes w (step (w, c) key).1 (entry key x)) →
  (∀ w c key, m !! key = None → (step (w, c) key).1 = w) →
  ∀ keys w c, w_err w = None →
    appended bytes w (foldl step (w, c) keys).1 (entriesOf m entry keys).
Proof.
  intros Hsome Hnone keys. induction keys as [|key keys IH]; intros w c Hw.
  { by apply appended_refl. }
  cbn [foldl entriesOf foldr]. fold (entriesOf m entry keys).
  destruct (m !! key) as [x|] eqn:Hx.
  - pose proof (Hsome w c key x Hw Hx) as Hstep.
    destruct (step (w, c) key) as [w1 c1]. simpl in Hstep.
    eapply appended_trans; [exact Hstep|]. apply IH. by eapply appended_err.
  - pose proof (Hnone w c key Hx) as Hstep.
    destruct (step (w, c) key) as [w1 c1]. simpl in Hstep. subst w1. by apply IH.
Qed.

Lemma RenderImports_entry_text d w c key i :
  w_err w = None → Imports d !! key = Some i →
  appended bytes w (RenderImports_entry d (w, c) key).1 (importText i).
Proof.
  intros Hw Hi. unfold RenderImports_entry, importText. rewrite Hi.
  case_decide; simpl; appended_writes.
Qed.

Lemma RenderTypes_entry_text d w c key t :
  w_err w = None → Types d !! key = Some t →
  appended bytes w (RenderTypes_entry d (w, c) key).1 (typeText key t).
Proof.
  intros Hw Ht. unfold RenderTypes_entry, typeText. rewrite Ht.
  simpl; appended_writes.
Qed.

Lemma RenderVariables_entry_text d w c key v :
  w_err w = None → Variables d !! key = Some v →
  appended bytes w (RenderVariables_entry d (w, c) key).1 (variableText v).
Proof.
  intros Hw Hv. unfold RenderVariables_entry, variableText. rewrite Hv.
  repeat case_decide; simpl; appended_writes.
Qed.

Lemma RenderFunctions_entry_text d w c key f :
  w_err w = None → Functions d !! key = Some f →
  appended bytes w (RenderFunctions_entry d (w, c) key).1 (functionText key f).
Proof.
  intros Hw Hf. unfold RenderFunctions_entry, functionText. rewrite Hf.
  simpl; appended_writes.
Qed.

Lemma Constant_Render_text (k : Constant) w0 w c text :
  appended bytes w0 w text →
  appended bytes w0 (Constant_Render k (w, c)).1 (text +:+ constantText k).
Proof.
  intros Hw. unfold Constant_Render, constantText.
  repeat case_decide; simpl;
    (eapply appended_eq;
     [ repeat apply appended_Write; first [ exact Hw | exact _ ]
     | by rewrite ?string_app_assoc, ?string_app_nil_r ]).
Qed.

Lemma RenderImports_appended d w :
  w_err w = None → appended bytes w (RenderImports d w).1 (importsText d).
Proof.
  intros Hw. unfold RenderImports, importsText. case_decide; [by apply appended_refl|].
  pose proof (appended_Write bytes w w "" ("import (" +:+ NL) (appended_refl bytes w Hw))
    as H1.
  pose proof (entries_appended (Imports d) (RenderImports_entry d) (λ _, importText)
                (λ w c key x, RenderImports_entry_text d w c key x)
                ltac:(intros w' c' key Hk; unfold RenderImports_entry; by rewrite Hk)
                (sortedKeys (Imports d)) (Write w ("import (" +:+ NL)) NoCursor
                (appended_err bytes _ _ _ H1)) as H2.
  destruct (foldl _ _ _) as [w2 c2]. simpl in *.
  eapply (appended_eq bytes).
  - apply (appended_Write bytes). eapply (appended_trans bytes); [exact H1|exact H2].
  - unfold entriesText. rewrite <- sortedKeys_canonical.
    by rewrite ?string_app_assoc, ?string_app_nil_l.
Qed.

Lemma RenderVariables_appended d w :
  w_err w = None → appended bytes w (RenderVariables d w).1 (variablesText d).
Proof.
  intros Hw. unfold RenderVariables, variablesText.
  case_decide; [by apply appended_refl|].
  pose proof (appended_Write bytes w w "" ("var (" +:+ NL) (appended_refl bytes w Hw))
    as H1.
  pose proof (entries_appended (Variables d) (RenderVariables_entry d) (λ _, variableText)
                (λ w c key x, RenderVariables_entry_text d w c key x)
                ltac:(intros w' c' key Hk; unfold RenderVariables_entry; by rewrite Hk)
                (sortedKeys (Variables d)) (Write w ("var (" +:+ NL)) NoCursor
                (appended_err bytes _ _ _ H1)) as H2.
  destruct (foldl _ _ _) as [w2 c2]. simpl in *.
  eapply (appended_eq bytes).
  - apply (appended_Write bytes). eapply (appended_trans bytes); [exact H1|exact H2].
  - unfold entriesText. rewrite <- sortedKeys_canonical.
    by rewrite ?string_app_assoc, ?string_app_nil_l.
Qed.

Lemma RenderTypes_appended d w :
  w_err w = None → appended bytes w (RenderTypes d w).1 (typesText d).
Proof.
  intros Hw. unfold RenderTypes, typesText. case_decide; [by apply appended_refl|].
  pose proof (entries_appended (Types d) (RenderTypes_entry d) typeText
                (λ w c key x, RenderTypes_entry_text d w c key x)
                ltac:(intros w' c' key Hk; unfold RenderTypes_entry; by rewrite Hk)
                (sortedKeys (Types d)) w NoCursor Hw) as H2.
  destruct (foldl _ _ _) as [w2 c2]. simpl in *.
  eapply (appended_eq bytes).
  - apply (appended_Write bytes). exact H2.
  - unfold entriesText. by rewrite <- sortedKeys_canonical.
Qed.

Lemma RenderFunctions_appended d w :
  w_err w = None → appended bytes w (RenderFunctions d w).1 (functionsText d).
Proof.
  intros Hw. unfold RenderFunctions, functionsText, entriesText.
  case_decide as Hsize.
  - apply map_size_empty_iff in Hsize. rewrite Hsize, map_to_list_empty.
    by apply appended_refl.
  - rewrite <- sortedKeys_canonical.
    apply (entries_appended (Functions d) (RenderFunctions_entry d) functionText
             (λ w c key x, RenderFunctions_entry_text d w c key x)); [|done].
    intros w' c' key Hk. unfold RenderFunctions_entry. by rewrite Hk.
Qed.

Lemma block_line_appended (k : Constant) w0 w c text :
  appended bytes w0 w text →
  appended bytes w0 (block_line (w, c) k).1
    (text +:+ TAB +:+ constantText k +:+ NL).
Proof.
  intros Hw. unfold block_line. simpl.
  pose proof (Constant_Render_text k w0 (Write w TAB) c (text +:+ TAB)
                (appended_Write bytes _ _ _ _ Hw)) as Hk.
  destruct (Constant_Render k (Write w TAB, c)) as [w1 c1]. simpl in *.
  eapply (appended_eq bytes); [apply (appended_Write bytes); exact Hk|].
  by rewrite ?string_app_assoc.
Qed.

Lemma block_lines_appended (l : list Constant) w0 w c text :
  appended bytes w0 w text →
  appended bytes w0 (foldl block_line (w, c) l).1
    (text +:+ foldr (λ k t, TAB +:+ constantText k +:+ NL +:+ t) "" l).
Proof.
  revert w c text. induction l as [|k l IH]; intros w c text Hw.
  { simpl. by rewrite string_app_nil_r. }
  cbn [foldl foldr].
  pose proof (block_line_appended k w0 w c text Hw) as Hk.
  destruct (block_line (w, c) k) as [w1 c1]. simpl in Hk.
  eapply (appended_eq bytes); [apply IH; exact Hk|]. by rewrite ?string_app_assoc.
Qed.

Lemma block_text_appended (l : list Constant) w c :
  w_err w = None → appended bytes w (block_text (w, c) l).1 (constBlockText l).
Proof.
  intros Hw. pose proof (appended_refl bytes w Hw) as H0.
  assert (appended bytes w
            (let '(w1, c1) :=
               foldl block_line (Write w ("const (" +:+ NL), c) l in
             (Write w1 (")" +:+ NL +:+ NL), c1)).1
            ("const (" +:+ NL +:+
             foldr (λ k t, TAB +:+ constantText k +:+ NL +:+ t) "" l +:+
             ")" +:+ NL +:+ NL)) as Hblock.
  { pose proof (block_lines_appended l w (Write w ("const (" +:+ NL)) c _
                  (appended_Write bytes _ _ _ ("const (" +:+ NL) H0)) as Hl.
    destruct (foldl block_line _ l) as [w1 c1]. simpl in *.
    eapply (appended_eq bytes); [apply (appended_Write bytes); exact Hl|].
    by rewrite ?string_app_assoc, ?string_app_nil_l. }
  destruct l as [|k [|k' l]]; [exact Hblock| |exact Hblock].
  unfold block_text, constBlockText. simpl.
  pose proof (Constant_Render_text k w (Write w "const ") c _
                (appended_Write bytes _ _ _ "const " H0)) as Hk.
  destruct (Constant_Render k (Write w "const ", c)) as [w1 c1]. simpl in *.
  eapply (appended_eq bytes); [apply (appended_Write bytes); exact Hk|].
  by rewrite ?string_app_assoc, ?string_app_nil_l.
Qed.

Lemma blocks_text_appended (blocks : list (list Constant)) w c :
  w_err w = None →
  appended bytes w (foldl block_text (w, c) blocks).1 (constantsText blocks).
Proof.
  revert w c. induction blocks as [|l blocks IH]; intros w c Hw.
  { by apply appended_refl. }
  cbn [foldl constantsText foldr]. fold (constantsText blocks).
  pose proof (block_text_appended l w c Hw) as Hl.
  destruct (block_text (w, c) l) as [w1 c1]. simpl in Hl.
  eapply (appended_trans bytes); [exact Hl|]. apply IH. by eapply appended_err.
Qed.

(** [RenderConstants] on the blocks of the declarations. *)
Lemma RenderConstants_of_blocks (fuel : nat) d w (heads : list string)
    (blocks : list (list Constant)) :
  blocksOf d heads blocks →
  Forall (λ l, (length l ≤ fuel)%nat) blocks →
  RenderConstants fuel d w = Some (foldl block_text (w, NoCursor) blocks).
Proof.
  intros (Hvalid & Hsorted & Hnd & Hheads & Hblocks) Hfuel.
  unfold RenderConstants. case_decide as Hsize.
  { apply map_size_empty_iff in Hsize.
    destruct heads as [|key heads].
    - by apply Forall2_nil_inv_l in Hblocks as ->.
    - assert (isHead d key = true) as Hk by (apply Hheads; left).
      unfold isHead, constantAt in Hk. rewrite Hsize in Hk. by simplify_map_eq. }
  rewrite RenderConstants_heads_spec.
  rewrite decide_True; last first.
  { apply Forall_forall. intros key Hkey.
    rewrite rangeKeys_perm in Hkey.
    apply list_elem_of_fmap in Hkey as ([k a] & -> & Hka).
    apply elem_of_map_to_list in Hka. simpl.
    unfold constantAt. rewrite Hka. simpl. by eapply Hvalid. }
  assert (sort_Strings (filter (λ key, isHead d key = true)
                          (rangeKeys (Constants d))) = heads) as ->.
  { rewrite <- (sort_Strings_sorted heads Hsorted).
    apply sort_Strings_perm. apply NoDup_Permutation.
    - apply NoDup_filter. rewrite rangeKeys_perm. apply NoDup_fst_map_to_list.
    - done.
    - intros key. rewrite list_elem_of_filter, Hheads. split; [by intros []|].
      intros Hk. split; [done|]. rewrite rangeKeys_perm.
      unfold isHead, constantAt in Hk.
      destruct (Constants d !! key) as [a|] eqn:Ha; [|done].
      apply list_elem_of_fmap. exists (key, a). split; [done|].
      by apply elem_of_map_to_list. }
  by apply RenderConstants_blocks_spec.
Qed.

Lemma RenderConstants_appended (fuel : nat) d w (heads : list string)
    (blocks : list (list Constant)) :
  blocksOf d heads blocks →
  Forall (λ l, (length l ≤ fuel)%nat) blocks →
  w_err w = None →
  ∃ r, RenderConstants fuel d w = Some r ∧
       appended bytes w r.1 (constantsText blocks).
Proof.
  intros Hb Hfuel Hw. eexists. split; [by eapply RenderConstants_of_blocks|].
  by apply blocks_text_appended.
Qed.

Lemma entryPoint_appended cursor w (mainDecl : option Function_) :
  w_err w = None →
  appended bytes w (entryPoint cursor w mainDecl).2 (entryPointText mainDecl).
Proof.
  intros Hw. unfold entryPoint, entryPointText.
  destruct mainDecl as [m|]; [|by apply appended_refl]. simpl. appended_writes.
Qed.

Lemma createMainContentsFromDecls_appended (fuel : nat) (writer : S) d
    (mainDecl : option Function_) (heads : list string)
    (blocks : list (list Constant)) :
  blocksOf d heads blocks →
  Forall (λ l, (length l ≤ fuel)%nat) blocks →
  ∃ cursor w,
    createMainContentsFromDecls fuel writer d mainDecl = Some (cursor, None, w) ∧
    appended bytes (NewWriterWithCursor writer) w
      (packageMain +:+ importsText d +:+ typesText d +:+ constantsText blocks +:+
       variablesText d +:+ functionsText d +:+ entryPointText mainDecl).
Proof.
  intros Hb Hfuel. rewrite createMainContentsFromDecls_phases.
  unfold renderPhases. cbn [composeFrom].
  assert (appended bytes (NewWriterWithCursor writer) (afterPreamble writer) packageMain)
    as H0.
  { unfold afterPreamble. eapply (appended_eq bytes);
      [apply (appended_Writef bytes); by apply appended_refl|reflexivity]. }
  pose proof (RenderImports_appended d _ (appended_err bytes _ _ _ H0)) as H1.
  destruct (RenderImports d (afterPreamble writer)) as [w1 c1]. simpl in H1.
  rewrite decide_False by (rewrite (appended_err bytes _ _ _ H1); by intros Hn).
  pose proof (RenderTypes_appended d _ (appended_err bytes _ _ _ H1)) as H2.
  destruct (RenderTypes d w1) as [w2 c2]. simpl in H2.
  rewrite decide_False by (rewrite (appended_err bytes _ _ _ H2); by intros Hn).
  destruct (RenderConstants_appended fuel d w2 heads blocks Hb Hfuel
              (appended_err bytes _ _ _ H2)) as ([w3 c3] & -> & H3).
  simpl in H3.
  rewrite decide_False by (rewrite (appended_err bytes _ _ _ H3); by intros Hn).
  pose proof (RenderVariables_appended d _ (appended_err bytes _ _ _ H3)) as H4.
  destruct (RenderVariables d w3) as [w4 c4]. simpl in H4.
  rewrite decide_False by (rewrite (appended_err bytes _ _ _ H4); by intros Hn).
  pose proof (RenderFunctions_appended d _ (appended_err bytes _ _ _ H4)) as H5.
  destruct (RenderFunctions d w4) as [w5 c5]. simpl in H5.
  rewrite decide_False by (rewrite (appended_err bytes _ _ _ H5); by intros Hn).
  pose proof (entryPoint_appended
                (mergeCursor (mergeCursor (mergeCursor (mergeCursor
                   (mergeCursor NoCursor c1) c2) c3) c4) c5)
                w5 mainDecl (appended_err bytes _ _ _ H5)) as H6.
  destruct (entryPoint _ w5 mainDecl) as [cursor w6]. simpl in H6.
  exists cursor, w6. split; [done|].
  eapply (appended_eq bytes).
  - eapply (appended_trans bytes); [|exact H6].
    eapply (appended_trans bytes); [|exact H5].
    eapply (appended_trans bytes); [|exact H4].
    eapply (appended_trans bytes); [|exact H3].
    eapply (appended_trans bytes); [|exact H2].
    eapply (appended_trans bytes); [exact H0|exact H1].
  - by rewrite ?string_app_assoc.
Qed.

(** X7. On a sink that takes every write, [RenderImports] writes nothing
    when there is no import, and otherwise [import (], then one line for each
    import in the increasing order of the keys (a tab, the alias and a space
    when there is an alias, the path quoted), then the closing. *)
Theorem RenderImports_text d w :
  w_err w = None →
  w_err (RenderImports d w).1 = None ∧
  bytes (w_w (RenderImports d w).1) = bytes (w_w w) +:+ importsText d.
Proof. apply RenderImports_appended. Qed.

(** X8. On a sink that takes every write, [RenderTypes] writes nothing when
    there is no type, and otherwise one declaration [type key definition] for
    each type in the increasing order of the keys, then an empty line. *)
Theorem RenderTypes_text d w :
  w_err w = None →
  w_err (RenderTypes d w).1 = None ∧
  bytes (w_w (RenderTypes d w).1) = bytes (w_w w) +:+ typesText d.
Proof. apply RenderTypes_appended. Qed.

(** X9. On a sink that takes every write, [RenderVariables] writes nothing
    when there is no variable, and otherwise [var (], then one line for each
    variable in the increasing order of the keys (a tab, the name, the type
    after a space when it has one, the value after [ = ] when it has one),
    then the closing. *)
Theorem RenderVariables_text d w :
  w_err w = None →
  w_err (RenderVariables d w).1 = None ∧
  bytes (w_w (RenderVariables d w).1) = bytes (w_w w) +:+ variablesText d.
Proof. apply RenderVariables_appended. Qed.

(** X10. On a sink that takes every write, [RenderFunctions] writes the
    definition of each function in the increasing order of the keys, each
    followed by an empty line; under a key that starts with [init_] the
    first occurrence of the key in the definition is written as [init]. *)
Theorem RenderFunctions_text d w :
  w_err w = None →
  w_err (RenderFunctions d w).1 = None ∧
  bytes (w_w (RenderFunctions d w).1) = bytes (w_w w) +:+ functionsText d.
Proof. apply RenderFunctions_appended. Qed.

(** X11. On a sink that takes every write, with fuel for the longest chain,
    [RenderConstants] returns and has written the blocks of the constants
    in the increasing order of the keys of their heads: a block of one
    constant as [const] and the constant, a longer one as [const (], a line
    for each constant in the order of the chain, and the closing. *)
Theorem RenderConstants_text (fuel : nat) d w (heads : list string)
    (blocks : list (list Constant)) :
  blocksOf d heads blocks →
  Forall (λ l, (length l ≤ fuel)%nat) blocks →
  w_err w = None →
  ∃ r, RenderConstants fuel d w = Some r ∧
       w_err r.1 = None ∧
       bytes (w_w r.1) = bytes (w_w w) +:+ constantsText blocks.
Proof.
  intros Hb Hfuel Hw.
  destruct (RenderConstants_appended fuel d w heads blocks Hb Hfuel Hw)
    as (r & Hr & He & Hbytes).
  by exists r.
Qed.

(** X12. On a sink that takes every write, with fuel for the longest chain
    of constants, [createMainContentsFromDecls] returns with no error in the
    writer, and the sink has taken, in this order: the line [package main]
    and an empty line, the imports, the types, the constants, the
    variables, the functions and, when there is an entry point, an empty
    line and its definition. *)
Theorem createMainContentsFromDecls_text (fuel : nat) (writer : S) d
    (mainDecl : option Function_) (heads : list string)
    (blocks : list (list Constant)) :
  blocksOf d heads blocks →
  Forall (λ l, (length l ≤ fuel)%nat) blocks →
  ∃ cursor w,
    createMainContentsFromDecls fuel writer d mainDecl = Some (cursor, None, w) ∧
    Error w = None ∧
    bytes (w_w w) =
      bytes writer +:+ packageMain +:+ importsText d +:+ typesText d +:+
      constantsText blocks +:+ variablesText d +:+ functionsText d +:+
      entryPointText mainDecl.
Proof.
  intros Hb Hfuel.
  destruct (createMainContentsFromDecls_appended fuel writer d mainDecl heads blocks
              Hb Hfuel) as (cursor & w & Hr & He & Hbytes).
  by exists cursor, w.
Qed.

End RendererTexts.

(** ** The composer returns *)

Section ComposerReturns.
Context {S : Type} {IW : IoWriter S} {SC : Strconv} {CS : CursorSentinel}
        {MR : MapRange}.

Implicit Types (w : WriterWithCursor S) (d : Declarations) (c : Cursor).
Implicit Types ps : list (string * (WriterWithCursor S → option (WriterWithCursor S * Cursor))).

(** When every phase returns, the composer does. *)
Lemma composeFrom_returns ps cursor0 w0 (mainDecl : option Function_) :
  Forall (λ p, ∀ w, is_Some (p.2 w)) ps →
  ∃ cursor w, composeFrom ps cursor0 w0 mainDecl = Some (cursor, None, w).
Proof.
  intros Hps. revert cursor0 w0.
  induction Hps as [|[name render] ps Hp Hps IH]; intros cursor0 w0; simpl.
  - destruct (entryPoint cursor0 w0 mainDecl) as [cursor w]. by exists cursor, w.
  - destruct (Hp w0) as [[w' c'] Hr]. simpl in Hr. rewrite Hr.
    case_decide; [by exists cursor0, w'|apply IH].
Qed.

(** The constants are well linked and the fuel covers their chains: the
    composer returns, whatever the sink does. *)
Lemma createMainContentsFromDecls_returns (fuel : nat) (writer : S) d
    (mainDecl : option Function_) (heads : list string)
    (blocks : list (list Constant)) :
  blocksOf d heads blocks →
  Forall (λ l, (length l ≤ fuel)%nat) blocks →
  ∃ cursor w, createMainContentsFromDecls fuel writer d mainDecl = Some (cursor, None, w).
Proof.
  intros Hb Hfuel. rewrite createMainContentsFromDecls_phases.
  apply composeFrom_returns.
  unfold renderPhases. repeat apply Forall_cons_2; [..|constructor]; simpl;
    intros w; try done.
  by rewrite (RenderConstants_of_blocks fuel d w heads blocks Hb Hfuel).
Qed.

(** When a phase has left an error in the writer, the composer has returned
    there: the entry point changes nothing. *)
Lemma composeFrom_failed ps cursor0 w0 cursor (err : option error) w
    (mainDecl : Function_) :
  ps ≠ [] ∨ w_err w0 = None →
  composeFrom ps cursor0 w0 None = Some (cursor, err, w) →
  w_err w ≠ None →
  composeFrom ps cursor0 w0 (Some mainDecl) = Some (cursor, err, w).
Proof.
  revert cursor0 w0. induction ps as [|[name render] ps IH]; intros cursor0 w0 Hps; simpl.
  - intros Heq Hw. simplify_eq. by destruct Hps.
  - destruct (render w0) as [[w' c']|]; [|done].
    case_decide as Hw'; [done|]. apply IH. right.
    destruct (w_err w'); [|done]. by destruct Hw'.
Qed.

(** C9, amended. The constants are well linked and the fuel covers their
    chains, so the composer returns; [w] is the writer after the five
    renderers (what the composer leaves when it is given no entry point).
    When no write has failed ([w] has no error) and the entry point holds a
    cursor, the composer returns that cursor with its line increased by the
    line of the writer at the time the text of the entry point is written
    (after the separating newline), and its column as it is. When a write
    has failed, the composer has returned at that phase: the entry point is
    not written and its cursor is not returned. *)
Theorem entry_point_cursor (fuel : nat) (writer : S) d (mainDecl : Function_)
    (heads : list string) (blocks : list (list Constant)) :
  blocksOf d heads blocks →
  Forall (λ l, (length l ≤ fuel)%nat) blocks →
  HasCursor (fn_Cursor mainDecl) = true →
  ∃ cursor w,
    createMainContentsFromDecls fuel writer d None = Some (cursor, None, w) ∧
    (w_err w = None →
     let atEntry := Writef w NL [] in
     createMainContentsFromDecls fuel writer d (Some mainDecl) =
       Some ({| Line := int_add (Line (fn_Cursor mainDecl)) (w_Line atEntry);
                Col := Col (fn_Cursor mainDecl) |},
             None,
             Writef atEntry ("%s" +:+ NL) [fn_Definition mainDecl]) ∧
     (int_range (Line (fn_Cursor mainDecl) + w_Line atEntry) →
      int_add (Line (fn_Cursor mainDecl)) (w_Line atEntry) =
        Line (fn_Cursor mainDecl) + w_Line atEntry)) ∧
    (w_err w ≠ None →
     createMainContentsFromDecls fuel writer d (Some mainDecl) =
       Some (cursor, None, w)).
Proof.
  intros Hb Hfuel Hm.
  destruct (createMainContentsFromDecls_returns fuel writer d None heads blocks
              Hb Hfuel) as (cursor & w & Hnone).
  exists cursor, w. split; [done|].
  rewrite !createMainContentsFromDecls_phases in *. split.
  - intros Hw atEntry. split; [|apply int_add_exact].
    rewrite (composeFrom_entryPoint _ _ _ _ _ _ _ Hnone Hw).
    unfold entryPoint. by rewrite Hm.
  - intros Hw. apply composeFrom_failed; [by left|done..].
Qed.

(** X6. The constants are well linked and the fuel covers their chains.
    When no declaration holds the cursor (no flag [CursorIn...] is set, no
    function has a cursor) and the entry point has none, the composer
    returns, and returns [NoCursor], whatever the sink does. *)
Theorem createMainContentsFromDecls_no_cursor (fuel : nat) (writer : S) d
    (mainDecl : option Function_) (heads : list string)
    (blocks : list (list Constant)) :
  blocksOf d heads blocks →
  Forall (λ l, (length l ≤ fuel)%nat) blocks →
  (∀ key i, Imports d !! key = Some i →
            imp_CursorInAlias i = false ∧ imp_CursorInPath i = false) →
  (∀ key t, Types d !! key = Some t →
            ty_CursorInKey t = false ∧ ty_CursorInType t = false) →
  (∀ a k, constHeap d !! a = Some k →
          const_CursorInKey k = false ∧ const_CursorInType k = false ∧
          const_CursorInValue k = false) →
  (∀ key v, Variables d !! key = Some v →
            var_CursorInName v = false ∧ var_CursorInType v = false ∧
            var_CursorInValue v = false) →
  (∀ key f, Functions d !! key = Some f → HasCursor (fn_Cursor f) = false) →
  (∀ m, mainDecl = Some m → HasCursor (fn_Cursor m) = false) →
  ∃ w, createMainContentsFromDecls fuel writer d mainDecl = Some (NoCursor, None, w).
Proof.
  intros Hb Hfuel Hi Ht Hc Hv Hf Hm.
  destruct (createMainContentsFromDecls_returns fuel writer d mainDecl heads blocks
              Hb Hfuel) as (cursor & w & Hr).
  exists w. rewrite Hr. do 3 f_equal.
  rewrite createMainContentsFromDecls_phases in Hr.
  apply (composeFrom_no_cursor (renderPhases fuel d) (afterPreamble writer) mainDecl
           (cursor, None, w)); [|done..].
  unfold renderPhases. repeat apply Forall_cons_2; [..|constructor]; simpl;
    intros w1 w' c Hr1.
  - simplify_eq. pose proof (RenderImports_no_cursor d w1 Hi) as Hn.
    by rewrite Hr1 in Hn.
  - simplify_eq. pose proof (RenderTypes_no_cursor d w1 Ht) as Hn.
    by rewrite Hr1 in Hn.
  - by apply (RenderConstants_no_cursor fuel d w1 (w', c)).
  - simplify_eq. pose proof (RenderVariables_no_cursor d w1 Hv) as Hn.
    by rewrite Hr1 in Hn.
  - simplify_eq. pose proof (RenderFunctions_no_cursor d w1 Hf) as Hn.
    by rewrite Hr1 in Hn.
Qed.

End ComposerReturns.

(** ** Where the cursor of a cell is in its file *)

Lemma int_range_len_app_l (a b : string) :
  int_range (len (a +:+ b)) → int_range (len a).
Proof.
  unfold int_range. rewrite len_app.
  pose proof (len_nonneg a). pose proof (len_nonneg b). lia.
Qed.

(** A line with no newline in it, followed by a newline, is one piece. *)
Lemma strings_Split_NL_line (x rest : string) :
  strings_Split_NL x = [x] →
  strings_Split_NL (x +:+ NL +:+ rest) = x :: strings_Split_NL rest.
Proof.
  intros Hx.
  rewrite (strings_Split_NL_app x (NL +:+ rest) [] x "" (strings_Split_NL rest) Hx eq_refl).
  by rewrite string_app_nil_r.
Qed.

Lemma linesText_app (skipLines : gset Z) (b : bool) (ii : Z) (lines1 lines2 : list string) :
  linesText skipLines b ii (lines1 ++ lines2)%list =
    linesText skipLines b ii lines1 +:+
    linesText skipLines (b || existsb is_directive lines1)
      (ii + Z.of_nat (length lines1)) lines2.
Proof.
  revert b ii. induction lines1 as [|line lines1 IH]; intros b ii.
  - simpl. by rewrite orb_false_r, Z.add_0_r.
  - cbn [app linesText existsb length]. rewrite IH, string_app_assoc, orb_assoc.
    do 3 f_equal. lia.
Qed.

Section CellCursor.
Context {F : Type} {OF : OsFile F} {SC : Strconv} {CS : CursorSentinel}.
Context (bytes : F → string) {HF : HealthyFile bytes}.

Implicit Types (w : WriterWithCursor F) (skipLines : gset Z) (lines : list string).

Local Instance HealthyFile_sink : HealthySink bytes.
Proof. intros f p. apply healthy_Write. Qed.

(** The cursor [createGoFileFromLines] returns is the one the line of index
    [n] assigns. *)
Lemma createGoFileFromLines_cursor_of_line (f : F) (filePath : string) lines
    skipLines (cursorInCell : Cursor) (n : nat) (line : string) w (b : bool)
    (c0 : Cursor) :
  Line cursorInCell = Z.of_nat n →
  lines !! n = Some line →
  stateAtLine f lines skipLines cursorInCell n = (w, b, c0) →
  (createGoFileFromLines (inr f) filePath lines skipLines cursorInCell).1.1 =
    (createGoFileFromLines_line skipLines cursorInCell (Z.of_nat n) line
       (w, b, NoCursor)).2.
Proof.
  intros Hn Hline Hst.
  destruct (createGoFileFromLines_result f filePath lines skipLines cursorInCell)
    as [-> _].
  unfold stateAtLine in *. rewrite firstn_all.
  assert (length (take n lines) = n) as Hlen.
  { rewrite length_take. apply lookup_lt_Some in Hline. lia. }
  pose proof (createGoFileFromLines_loop_app skipLines cursorInCell 0
                (take n lines) (line :: drop (Datatypes.S n) lines)
                (Write (NewWriterWithCursor f) packageMain, false, NoCursor)) as Happ.
  rewrite take_drop_middle in Happ by done. rewrite Happ, Hlen. clear Happ.
  pose proof (createGoFileFromLines_loop_other skipLines cursorInCell 0 (take n lines)
                (Write (NewWriterWithCursor f) packageMain) false NoCursor) as Hc0.
  rewrite Hst in *. simpl in Hc0. rewrite Hc0 by (rewrite Hlen; lia).
  cbn [createGoFileFromLines_loop].
  destruct (createGoFileFromLines_line skipLines cursorInCell (0 + Z.of_nat n) line
              (w, b, NoCursor)) as [[w' b'] c'] eqn:Hstep.
  rewrite createGoFileFromLines_loop_other by lia.
  change (0 + Z.of_nat n) with (Z.of_nat n) in Hstep. by rewrite Hstep.
Qed.

(** The file [createGoFileFromLines] leaves. *)
Lemma createGoFileFromLines_bytes (f : F) (filePath : string) lines skipLines
    (cursorInCell : Cursor) :
  ∃ f',
    (createGoFileFromLines (inr f) filePath lines skipLines cursorInCell).2 = Some f' ∧
    bytes f' = bytes f +:+ goFileText lines skipLines.
Proof.
  unfold createGoFileFromLines, goFileText.
  destruct (Write_healthy bytes (NewWriterWithCursor f) packageMain eq_refl) as [He0 Hb0].
  destruct (createGoFileFromLines_loop_healthy bytes skipLines cursorInCell 0 lines
              _ false NoCursor He0) as (w1 & c1 & -> & He1 & Hb1).
  simpl in Hb0. rewrite Hb0 in Hb1. cbn [orb].
  set (w2 := if existsb is_directive lines then Write w1 funcMainFooter else w1).
  assert (w_err w2 = None ∧
          bytes (w_w w2) = bytes f +:+ packageMain +:+
            linesText skipLines false 0 lines +:+
            (if existsb is_directive lines then funcMainFooter else ""))
    as [He2 Hb2].
  { subst w2. destruct (existsb is_directive lines).
    - destruct (Write_healthy bytes w1 funcMainFooter He1) as [He Hb].
      split; [done|]. by rewrite Hb, Hb1, !string_app_assoc.
    - split; [done|]. by rewrite Hb1, string_app_nil_r, !string_app_assoc. }
  unfold Error. rewrite decide_False by (rewrite He2; by intros Hn).
  pose proof (healthy_Close (w_w w2)) as Hc.
  destruct (file_Close (w_w w2)) as [f1 e1]. simpl in Hc.
  case_decide.
  - pose proof (healthy_Close f1) as Hc'.
    destruct (file_Close f1) as [f2 e2]. simpl in *.
    exists f2. split; [done|]. by rewrite Hc', Hc, Hb2.
  - exists f1. split; [done|]. by rewrite Hc, Hb2.
Qed.

(** The writer of the loop is at the end of the text it has written. *)
Lemma createGoFileFromLines_line_tracks skipLines cursorInCell ii line w
    (b : bool) (c : Cursor) (text : string) :
  w_err w = None →
  WriterCursor w = endOfText text →
  int_range (len (text +:+ lineText skipLines b ii line)) →
  WriterCursor (createGoFileFromLines_line skipLines cursorInCell ii line (w, b, c)).1.1 =
    endOfText (text +:+ lineText skipLines b ii line).
Proof.
  intros Hw Hcur Hrange. unfold createGoFileFromLines_line, lineText in *.
  destruct (is_directive line).
  { simpl. by apply (Write_endOfText bytes). }
  case_decide; [simpl; by rewrite string_app_nil_r|]. simpl.
  rewrite <- !string_app_assoc in Hrange. rewrite <- !string_app_assoc.
  pose proof (int_range_len_app_l _ _ Hrange) as Hr2.
  pose proof (int_range_len_app_l _ _ Hr2) as Hr1.
  destruct (b && bool_decide (line ≠ "")).
  - destruct (Write_sink_healthy bytes w TAB Hw) as [Hw1 _].
    pose proof (Write_endOfText bytes w text TAB Hw Hcur Hr1) as Hc1.
    destruct (Write_sink_healthy bytes _ line Hw1) as [Hw2 _].
    pose proof (Write_endOfText bytes _ _ line Hw1 Hc1 Hr2) as Hc2.
    by apply (Write_endOfText bytes).
  - rewrite string_app_nil_r in *.
    destruct (Write_sink_healthy bytes w line Hw) as [Hw2 _].
    pose proof (Write_endOfText bytes w text line Hw Hcur Hr2) as Hc2.
    by apply (Write_endOfText bytes).
Qed.

Lemma createGoFileFromLines_loop_tracks skipLines cursorInCell ii lines w
    (b : bool) (c : Cursor) (text : string) :
  w_err w = None →
  WriterCursor w = endOfText text →
  int_range (len (text +:+ linesText skipLines b ii lines)) →
  WriterCursor (createGoFileFromLines_loop skipLines cursorInCell ii lines (w, b, c)).1.1 =
    endOfText (text +:+ linesText skipLines b ii lines).
Proof.
  revert ii w b c text. induction lines as [|line lines IH];
    intros ii w b c text Hw Hcur Hrange.
  { simpl. by rewrite string_app_nil_r. }
  cbn [createGoFileFromLines_loop linesText] in *.
  rewrite <- string_app_assoc in Hrange |- *.
  pose proof (createGoFileFromLines_line_tracks skipLines cursorInCell ii line w b c
                text Hw Hcur (int_range_len_app_l _ _ Hrange)) as Hc1.
  destruct (createGoFileFromLines_line_healthy bytes skipLines cursorInCell ii line
              w b c Hw) as (w1 & c1 & Hstep & Hw1 & _).
  rewrite Hstep in *. simpl in Hc1. by apply IH.
Qed.

(** X13. The cursor of the cell is in the line of index [n], a line with
    no newline in it that has not the prefix of the directive and is not
    excluded; the file is new, takes every write, and its text is not longer
    than an [int]. Then the line of the cursor [createGoFileFromLines]
    returns is, in the file it leaves, the line of the cell after its tab
    (the tab of a line that is not empty inside [func main]), and the column
    is the column in the cell plus the length of that tab. *)
Theorem createGoFileFromLines_cursor_in_file (f : F) (filePath : string) lines
    skipLines (cursorInCell : Cursor) (n : nat) (line : string) :
  bytes f = "" →
  Line cursorInCell = Z.of_nat n →
  lines !! n = Some line →
  is_directive line = false →
  Z.of_nat n ∉ skipLines →
  strings_Split_NL line = [line] →
  int_range (len (goFileText lines skipLines)) →
  let indent :=
    if existsb is_directive (take n lines) && bool_decide (line ≠ "")
    then TAB else "" in
  let res := createGoFileFromLines (inr f) filePath lines skipLines cursorInCell in
  ∃ f',
    res.2 = Some f' ∧
    0 <= Line res.1.1 ∧
    strings_Split_NL (bytes f') !! Z.to_nat (Line res.1.1) = Some (indent +:+ line) ∧
    Col res.1.1 = int_add (len indent) (Col cursorInCell).
Proof.
  intros Hempty Hn Hline Hdir Hskip Hnl Hrange indent res. subst res.
  destruct (createGoFileFromLines_bytes f filePath lines skipLines cursorInCell)
    as (f' & Hf' & Hbytes).
  exists f'. split; [exact Hf'|]. rewrite Hbytes, Hempty, string_app_nil_l.
  (* the state at the line *)
  assert (length (take n lines) = n) as Hlen.
  { rewrite length_take. apply lookup_lt_Some in Hline. lia. }
  destruct (Write_healthy bytes (NewWriterWithCursor f) packageMain eq_refl) as [He0 Hb0].
  destruct (createGoFileFromLines_loop_healthy bytes skipLines cursorInCell 0
              (take n lines) _ false NoCursor He0) as (w & c0 & Hst & Hw & _).
  cbn [orb] in Hst.
  set (b := existsb is_directive (take n lines)) in *.
  (* the text of the file around the line *)
  set (P := packageMain +:+ linesText skipLines false 0 (take n lines)).
  assert (∃ rest, goFileText lines skipLines =
                  P +:+ (indent +:+ line) +:+ NL +:+ rest) as [rest Htext].
  { eexists. unfold goFileText, P.
    rewrite <- (take_drop_middle lines n line Hline) at 1.
    rewrite linesText_app, Hlen. cbn [linesText orb]. fold b.
    unfold lineText at 1. rewrite Hdir, decide_False by (by rewrite Z.add_0_l).
    fold indent. rewrite !string_app_assoc. reflexivity. }
  rewrite Htext in Hrange |- *.
  remember (strings_Split_NL (P +:+ (indent +:+ line) +:+ NL +:+ rest)) as pieces
    eqn:Hpieces.
  (* the writer is at the end of [P], at the start of a line *)
  assert (WriterCursor w = endOfText P) as Hcur.
  { pose proof (createGoFileFromLines_loop_tracks skipLines cursorInCell 0
                  (take n lines) (Write (NewWriterWithCursor f) packageMain)
                  false NoCursor packageMain He0) as Htr.
    rewrite Hst in Htr. simpl in Htr. apply Htr.
    - apply (Write_endOfText bytes (NewWriterWithCursor f) "" packageMain eq_refl eq_refl).
      eapply int_range_len_app_l. rewrite string_app_nil_l.
      eapply int_range_len_app_l. exact Hrange.
    - eapply int_range_len_app_l. exact Hrange. }
  pose proof (createGoFileFromLines_loop_atLineStart skipLines cursorInCell 0
                (take n lines) (Write (NewWriterWithCursor f) packageMain) false NoCursor
                (Write_ends_NL (NewWriterWithCursor f) ("package main" +:+ NL)
                   int_range_0)) as [Hr Hcol].
  rewrite Hst in Hr, Hcol. simpl in Hr, Hcol. specialize (Hcol Hw).
  destruct (strings_Split_NL_snoc P) as (init & la & HP).
  unfold WriterCursor, endOfText in Hcur. rewrite HP, last_snoc, length_app in Hcur.
  simpl in Hcur. injection Hcur as HL HC.
  assert (la = "") as ->.
  { rewrite Hcol in HC. unfold len in HC. destruct la; [done|simpl in HC; lia]. }
  (* the cursor *)
  rewrite (createGoFileFromLines_cursor_of_line f filePath lines skipLines
             cursorInCell n line w b c0 Hn Hline Hst).
  unfold createGoFileFromLines_line. rewrite Hdir, decide_False by done.
  rewrite decide_True by lia. simpl. fold indent.
  assert (strings_Split_NL indent = [indent]) as Hind
    by (subst indent; by destruct (b && bool_decide (line ≠ ""))).
  set (atLine := if b && bool_decide (line ≠ "") then Write w TAB else w).
  assert (w_Line atLine = Z.of_nat (length init) ∧ w_Col atLine = len indent)
    as [HLa HCa].
  { subst atLine indent. destruct (b && bool_decide (line ≠ "")).
    - pose proof (Write_endOfText bytes w P TAB Hw) as Htab.
      unfold WriterCursor at 1, endOfText at 1 in Htab.
      rewrite HP, last_snoc, length_app in Htab. simpl in Htab.
      rewrite HL, Hcol in Htab. specialize (Htab ltac:(f_equal; lia)).
      rewrite <- !string_app_assoc in Hrange.
      do 3 apply int_range_len_app_l in Hrange. specialize (Htab Hrange).
      unfold WriterCursor, endOfText in Htab.
      rewrite (strings_Split_NL_app P TAB init "" TAB [] HP eq_refl) in Htab.
      rewrite last_snoc, length_app in Htab. simpl in Htab.
      injection Htab as -> ->. split; [lia|done].
    - split; [lia|]. by rewrite Hcol. }
  unfold CursorPlusDelta. simpl. rewrite HLa, HCa.
  assert (int_range (Z.of_nat (length init))) as Hri.
  { rewrite <- HLa. subst atLine.
    destruct (b && bool_decide (line ≠ "")); [by apply Write_Line_range|done]. }
  rewrite int_add_0_r by done.
  split; [lia|]. split; [|done].
  (* the pieces of the file *)
  assert (strings_Split_NL (indent +:+ line) = [indent +:+ line]) as Hil.
  { exact (strings_Split_NL_app indent line [] indent line [] Hind Hnl). }
  subst pieces.
  rewrite (strings_Split_NL_app P ((indent +:+ line) +:+ NL +:+ rest) init ""
             (indent +:+ line) (strings_Split_NL rest) HP
             (strings_Split_NL_line _ rest Hil)).
  rewrite Nat2Z.id, string_app_nil_l. by rewrite list_lookup_middle.
Qed.

End CellCursor.

(** ** The file [main.go] *)

Section MainFileText.
Context {F : Type} {OF : OsFile F} {SC : Strconv} {CS : CursorSentinel}
        {MR : MapRange}.
Context (bytes : F → string) {HF : HealthyFile bytes}.

Local Instance HealthyFile_main_sink : HealthySink bytes.
Proof. intros f p. apply healthy_Write. Qed.

(** X14. When [main.go] is created as a file that takes every write, with
    fuel for the longest chain of constants, [createMainFileFromDecls]
    returns, the file holds the text of the declarations and of the entry
    point after what it held, and the error is the error of [Close] wrapped
    as [closing main.go], [nil] when [Close] succeeds. *)
Theorem createMainFileFromDecls_text (fuel : nat) (f : F) (d : Declarations)
    (mainDecl : option Function_) (heads : list string)
    (blocks : list (list Constant)) :
  blocksOf d heads blocks →
  Forall (λ l, (length l ≤ fuel)%nat) blocks →
  ∃ cursor (w : WriterWithCursor F) f',
    createMainContentsFromDecls fuel f d mainDecl = Some (cursor, None, w) ∧
    createMainFileFromDecls fuel (inr f) d mainDecl =
      Some (cursor, errors_Wrapf (file_Close (w_w w)).2 "closing main.go", Some f') ∧
    bytes f' =
      bytes f +:+ packageMain +:+ importsText d +:+ typesText d +:+
      constantsText blocks +:+ variablesText d +:+ functionsText d +:+
      entryPointText mainDecl.
Proof.
  intros Hb Hfuel.
  destruct (createMainContentsFromDecls_appended bytes fuel f d mainDecl heads blocks
              Hb Hfuel) as (cursor & w & Hr & He & Hbytes).
  exists cursor, w, (file_Close (w_w w)).1. split; [exact Hr|].
  unfold createMainFileFromDecls. rewrite Hr.
  pose proof (healthy_Close (w_w w)) as Hc.
  destruct (file_Close (w_w w)) as [f1 e1]. simpl in *.
  split; [|by rewrite Hc, Hbytes].
  by destruct e1.
Qed.

End MainFileText.

(** ** The keys of a map, sorted *)

Section SortedKeysContract.
Context {MR : MapRange}.

(** X15. [sortedKeys] returns the keys of the map and nothing else, each
    once, every key before the keys that are greater: whatever the order in
    which [range] gives them. *)
Theorem sortedKeys_contract {T : Type} (m : gmap string T) :
  (∀ key, key ∈ sortedKeys m ↔ is_Some (m !! key)) ∧
  NoDup (sortedKeys m) ∧
  length (sortedKeys m) = size m ∧
  StronglySorted String.le (sortedKeys m).
Proof.
  split; [intros key; apply sortedKeys_elem_of|].
  split; [apply sortedKeys_NoDup|]. split.
  - rewrite (sortedKeys_Permutation MR m), length_fmap.
    apply length_map_to_list.
  - apply Sorted_StronglySorted; [|apply sortedKeys_Sorted].
    intros x y z. apply transitivity.
Qed.

End SortedKeysContract.

(** ** Where the cursor of a function is in the text *)

(** A text that ends in a newline ends at the start of a line. *)
Lemma endOfText_NL (text : string) : Col (endOfText (text +:+ NL)) = 0.
Proof.
  destruct (strings_Split_NL_snoc text) as (init & la & Ht).
  unfold endOfText.
  rewrite (strings_Split_NL_app text NL init la "" [""] Ht eq_refl).
  change (init ++ (la +:+ "") :: [""])%list with (init ++ [la +:+ ""; ""])%list.
  replace (init ++ [la +:+ ""; ""])%list with ((init ++ [la +:+ ""]) ++ [""])%list
    by (by rewrite <- app_assoc).
  by rewrite last_snoc.
Qed.

(** The pieces of a text that goes on, from the start of a line, with a
    text, a newline and a rest. *)
Lemma strings_Split_NL_middle (a : string) :
  Col (endOfText a) = 0 →
  ∃ init,
    Line (endOfText a) = Z.of_nat (length init) ∧
    ∀ b c, strings_Split_NL (a +:+ b +:+ NL +:+ c) =
             (init ++ strings_Split_NL b ++ strings_Split_NL c)%list.
Proof.
  intros Hcol. destruct (strings_Split_NL_snoc a) as (init & la & Ha).
  unfold endOfText in *. rewrite Ha in *. rewrite last_snoc in Hcol.
  simpl in Hcol. assert (la = "") as ->.
  { destruct la; [done|]. unfold len in Hcol. simpl in Hcol. lia. }
  exists init. split.
  { rewrite length_app. simpl. lia. }
  intros b c. destruct (strings_Split_NL_snoc b) as (ib & lb & Hb).
  assert (strings_Split_NL (b +:+ NL +:+ c) =
          (strings_Split_NL b ++ strings_Split_NL c)%list) as Hbc.
  { rewrite (strings_Split_NL_app b (NL +:+ c) ib lb "" (strings_Split_NL c) Hb eq_refl).
    rewrite Hb, string_app_nil_r, <- app_assoc. done. }
  destruct (strings_Split_NL (b +:+ NL +:+ c)) as [|hb tb] eqn:Hsplit.
  { pose proof (strings_Split_NL_length (b +:+ NL +:+ c)) as Hl.
    rewrite Hsplit in Hl. simpl in Hl. lia. }
  rewrite (strings_Split_NL_app a (b +:+ NL +:+ c) init "" hb tb Ha Hsplit).
  rewrite string_app_nil_l. by rewrite Hbc.
Qed.

Lemma entriesOf_app {T : Type} (m : gmap string T) (entry : string → T → string)
    (keys1 keys2 : list string) :
  entriesOf m entry (keys1 ++ keys2)%list =
    entriesOf m entry keys1 +:+ entriesOf m entry keys2.
Proof.
  induction keys1 as [|key keys1 IH]; [done|].
  cbn [app entriesOf foldr]. fold (entriesOf m entry (keys1 ++ keys2)%list).
  fold (entriesOf m entry keys1). rewrite IH.
  destruct (m !! key); [by rewrite string_app_assoc|done].
Qed.

Lemma functionText_written (key : string) (f : Function_) :
  functionText key f = writtenDefinition key f +:+ NL +:+ NL.
Proof. done. Qed.

(** The texts of functions end at the start of a line. *)
Lemma functions_endOfText_Col (m : gmap string Function_) (keys : list string)
    (text : string) :
  Col (endOfText text) = 0 →
  Col (endOfText (text +:+ entriesOf m functionText keys)) = 0.
Proof.
  revert text. induction keys as [|key keys IH]; intros text Hcol.
  { simpl. by rewrite string_app_nil_r. }
  cbn [entriesOf foldr]. fold (entriesOf m functionText keys).
  destruct (m !! key) as [f|]; [|by apply IH].
  rewrite <- string_app_assoc. apply IH.
  rewrite functionText_written, <- !string_app_assoc. apply endOfText_NL.
Qed.

Section FunctionCursor.
Context {S : Type} {IW : IoWriter S} {SC : Strconv} {CS : CursorSentinel}
        {MR : MapRange}.
Context (bytes : S → string) {HS : HealthySink bytes}.

Implicit Types (w : WriterWithCursor S) (d : Declarations) (c : Cursor).

(** The writer of the loop of [RenderFunctions] is at the end of the text
    it has written. *)
Lemma RenderFunctions_entries_tracks d (keys : list string) w c (text : string) :
  w_err w = None →
  WriterCursor w = endOfText text →
  int_range (len (text +:+ entriesOf (Functions d) functionText keys)) →
  w_err (foldl (RenderFunctions_entry d) (w, c) keys).1 = None ∧
  WriterCursor (foldl (RenderFunctions_entry d) (w, c) keys).1 =
    endOfText (text +:+ entriesOf (Functions d) functionText keys).
Proof.
  revert w c text. induction keys as [|key keys IH]; intros w c text Hw Hcur Hrange.
  { simpl. by rewrite string_app_nil_r. }
  cbn [foldl entriesOf foldr] in *.
  fold (entriesOf (Functions d) functionText keys) in *.
  unfold RenderFunctions_entry at 2 4.
  destruct (Functions d !! key) as [f|] eqn:Hf; [|by apply IH].
  rewrite Writef_Write.
  assert (Sprintf ("%s" +:+ NL +:+ NL)
            [if strings_HasPrefix key "init_"
             then strings_Replace1 (fn_Definition f) key "init"
             else fn_Definition f] = functionText key f) as ->.
  { reflexivity. }
  rewrite <- string_app_assoc in Hrange |- *.
  destruct (Write_sink_healthy bytes w (functionText key f) Hw) as [Hw1 _].
  apply IH; [done| |done].
  apply (Write_endOfText bytes); [done..|].
  by apply int_range_len_app_l in Hrange.
Qed.

(** Functions that hold no cursor leave the cursor of the loop. *)
Lemma RenderFunctions_entries_cursor_kept d (keys : list string) w c :
  (∀ k g, k ∈ keys → Functions d !! k = Some g → HasCursor (fn_Cursor g) = false) →
  (foldl (RenderFunctions_entry d) (w, c) keys).2 = c.
Proof.
  revert w c. induction keys as [|key keys IH]; intros w c Hno; [done|].
  cbn [foldl]. unfold RenderFunctions_entry at 2.
  destruct (Functions d !! key) as [g|] eqn:Hg.
  - rewrite (Hno key g) by (done || set_solver).
    apply IH. intros k g' Hk. apply Hno. set_solver.
  - apply IH. intros k g' Hk. apply Hno. set_solver.
Qed.

(** X16. The writer is in step with a sink that takes every write, and at
    the start of a line. The function of [key] holds a cursor, a position in
    the lines of its definition as it is written, and no function of a later
    key holds one. Then the cursor [RenderFunctions] returns is, in the text
    of the sink after the functions, in the line of the definition that the
    cursor of the function gives, at its column. The length of the text is
    an [int], as is the column. *)
Theorem RenderFunctions_cursor_in_text d w (before after : list string)
    (key : string) (f : Function_) :
  w_err w = None →
  WriterCursor w = endOfText (bytes (w_w w)) →
  w_Col w = 0 →
  int_range (len (bytes (w_w w) +:+ functionsText d)) →
  sortedKeys (Functions d) = (before ++ key :: after)%list →
  Functions d !! key = Some f →
  HasCursor (fn_Cursor f) = true →
  (∀ k g, k ∈ after → Functions d !! k = Some g → HasCursor (fn_Cursor g) = false) →
  0 <= Line (fn_Cursor f) <
    Z.of_nat (length (strings_Split_NL (writtenDefinition key f))) →
  int_range (Col (fn_Cursor f)) →
  let r := RenderFunctions d w in
  w_err r.1 = None ∧
  0 <= Line r.2 ∧
  strings_Split_NL (bytes (w_w r.1)) !! Z.to_nat (Line r.2) =
    strings_Split_NL (writtenDefinition key f) !! Z.to_nat (Line (fn_Cursor f)) ∧
  Col r.2 = Col (fn_Cursor f).
Proof.
  intros Hw Hcur Hcol Hrange Hkeys Hf Hhas Hafter Hline Hcolr r. subst r.
  destruct (RenderFunctions_appended bytes d w Hw) as [He Hb].
  split; [done|]. rewrite Hb. clear He Hb.
  assert (functionsText d =
          entriesOf (Functions d) functionText before +:+
          writtenDefinition key f +:+ NL +:+ NL +:+
          entriesOf (Functions d) functionText after) as Htext.
  { unfold functionsText, entriesText. rewrite <- sortedKeys_canonical, Hkeys.
    rewrite entriesOf_app. cbn [entriesOf foldr]. rewrite Hf.
    by rewrite functionText_written, !string_app_assoc. }
  unfold RenderFunctions.
  rewrite decide_False
    by (intros Hempty%map_size_empty_iff; by rewrite Hempty, lookup_empty in Hf).
  rewrite Hkeys, foldl_app. cbn [foldl].
  rewrite Htext, <- string_app_assoc in Hrange |- *. clear Htext.
  pose proof (RenderFunctions_entries_tracks d before w NoCursor (bytes (w_w w))
                Hw Hcur (int_range_len_app_l _ _ Hrange)) as [Hw1 Hcur1].
  destruct (foldl (RenderFunctions_entry d) (w, NoCursor) before) as [w1 c1].
  simpl in Hw1, Hcur1.
  assert ((foldl (RenderFunctions_entry d) (RenderFunctions_entry d (w1, c1) key)
             after).2 = CursorPlusDelta w1 (fn_Cursor f)) as ->.
  { unfold RenderFunctions_entry at 2. rewrite Hf, Hhas.
    by rewrite RenderFunctions_entries_cursor_kept. }
  remember (bytes (w_w w) +:+ entriesOf (Functions d) functionText before)
    as start eqn:Hstart.
  remember (entriesOf (Functions d) functionText after) as textAfter eqn:HtextAfter.
  remember (writtenDefinition key f) as def eqn:Hdef.
  assert (Col (endOfText start) = 0) as Hcol1.
  { subst start. apply functions_endOfText_Col. by rewrite <- Hcur. }
  destruct (strings_Split_NL_middle start Hcol1) as (init & Hinit & Hsplit).
  specialize (Hsplit def (NL +:+ textAfter)).
  pose proof (strings_Split_NL_bound (start +:+ def +:+ NL +:+ NL +:+ textAfter))
    as [Hn _].
  rewrite Hsplit. rewrite Hsplit, !length_app in Hn.
  pose proof (strings_Split_NL_length (NL +:+ textAfter)) as Hlc.
  unfold int_range, len in Hrange.
  assert (int_add (Line (endOfText start)) (Line (fn_Cursor f)) =
          Z.of_nat (length init) + Line (fn_Cursor f)) as HL.
  { rewrite Hinit. apply int_add_exact. unfold int_range. lia. }
  assert ((init ++ strings_Split_NL def ++ strings_Split_NL (NL +:+ textAfter))%list
            !! Z.to_nat (Z.of_nat (length init) + Line (fn_Cursor f)) =
          strings_Split_NL def !! Z.to_nat (Line (fn_Cursor f))) as Hlook.
  { replace (Z.to_nat (Z.of_nat (length init) + Line (fn_Cursor f)))
      with (length init + Z.to_nat (Line (fn_Cursor f)))%nat by lia.
    rewrite lookup_app_r by lia.
    replace (length init + Z.to_nat (Line (fn_Cursor f)) - length init)%nat
      with (Z.to_nat (Line (fn_Cursor f))) by lia.
    by rewrite lookup_app_l by lia. }
  unfold CursorPlusDelta. rewrite Hcur1.
  case_decide; cbn [Line Col]; rewrite HL.
  - split; [lia|]. by split.
  - split; [lia|]. split; [done|].
    rewrite Hcol1. unfold int_add. by apply int_wrap_id.
Qed.

End FunctionCursor.

(** ** Where the cursor of a constant is in the text *)

Section ConstantCursor.
Context {S : Type} {IW : IoWriter S} {SC : Strconv} {CS : CursorSentinel}.
Context (bytes : S → string) {HS : HealthySink bytes}.

Implicit Types (w : WriterWithCursor S) (c : Cursor).

Lemma CursorPlusDelta_position w (position delta : Cursor) :
  WriterCursor w = position →
  CursorPlusDelta w delta = positionPlusDelta position delta.
Proof. intros <-. unfold CursorPlusDelta, positionPlusDelta. by case_decide. Qed.

Lemma Write_tracks w (text content : string) :
  w_err w = None →
  WriterCursor w = endOfText text →
  int_range (len (text +:+ content)) →
  w_err (Write w content) = None ∧
  WriterCursor (Write w content) = endOfText (text +:+ content).
Proof.
  intros Hw Hcur Hrange. split.
  - by destruct (Write_sink_healthy bytes w content Hw).
  - by apply (Write_endOfText bytes).
Qed.

(** X17. On a sink that takes every write, with the writer at the end of
    [text], the cursor [Constant.Render] leaves is [CursorPlusDelta] at the
    start of the last of the fields key, type and value that is flagged
    and, for the type and the value, not empty; the flag of an empty type or
    value is lost, and with no such field the cursor is left as it was. *)
Theorem Constant_Render_cursor (k : Constant) w c (text : string) :
  w_err w = None →
  WriterCursor w = endOfText text →
  int_range (len (text +:+ constantText k)) →
  (Constant_Render k (w, c)).2 =
    if const_CursorInValue k && bool_decide (const_ValueDefinition k ≠ "") then
      positionPlusDelta
        (endOfText (text +:+ const_Key k +:+
                    (if decide (const_TypeDefinition k ≠ "")
                     then " " +:+ const_TypeDefinition k else "") +:+ " = "))
        (const_Cursor k)
    else if const_CursorInType k && bool_decide (const_TypeDefinition k ≠ "") then
      positionPlusDelta (endOfText (text +:+ const_Key k +:+ " ")) (const_Cursor k)
    else if const_CursorInKey k then
      positionPlusDelta (endOfText text) (const_Cursor k)
    else c.
Proof.
  intros Hw Hcur Hrange. unfold Constant_Render, constantText in *.
  rewrite (CursorPlusDelta_position w (endOfText text)) by done.
  assert (int_range (len (text +:+ const_Key k))) as Hr1.
  { rewrite <- string_app_assoc in Hrange. by apply int_range_len_app_l in Hrange. }
  destruct (Write_tracks w text (const_Key k) Hw Hcur Hr1) as [Hw1 Hcur1].
  destruct (decide (const_TypeDefinition k ≠ "")) as [Ht|Ht];
    destruct (decide (const_ValueDefinition k ≠ "")) as [Hv|Hv];
    rewrite ?(bool_decide_eq_true_2 _ Ht), ?(bool_decide_eq_false_2 _ Ht),
      ?(bool_decide_eq_true_2 _ Hv), ?(bool_decide_eq_false_2 _ Hv),
      ?andb_true_r, ?andb_false_r; cbn [fst snd].
  - assert (int_range (len ((text +:+ const_Key k) +:+ " "))) as Hr2.
    { rewrite <- !string_app_assoc in Hrange.
      by do 3 apply int_range_len_app_l in Hrange. }
    destruct (Write_tracks _ _ " " Hw1 Hcur1 Hr2) as [Hw2 Hcur2].
    assert (int_range (len (((text +:+ const_Key k) +:+ " ") +:+
                            const_TypeDefinition k))) as Hr3.
    { rewrite <- !string_app_assoc in Hrange.
      by do 2 apply int_range_len_app_l in Hrange. }
    destruct (Write_tracks _ _ (const_TypeDefinition k) Hw2 Hcur2 Hr3) as [Hw3 Hcur3].
    assert (int_range (len ((((text +:+ const_Key k) +:+ " ") +:+
                             const_TypeDefinition k) +:+ " = "))) as Hr4.
    { rewrite <- !string_app_assoc in Hrange.
      by apply int_range_len_app_l in Hrange. }
    destruct (Write_tracks _ _ " = " Hw3 Hcur3 Hr4) as [Hw4 Hcur4].
    rewrite (CursorPlusDelta_position _ _ _ Hcur2).
    rewrite (CursorPlusDelta_position _ _ _ Hcur4).
    rewrite <- !string_app_assoc.
    by destruct (const_CursorInValue k), (const_CursorInType k), (const_CursorInKey k).
  - assert (int_range (len ((text +:+ const_Key k) +:+ " "))) as Hr2.
    { rewrite <- !string_app_assoc in Hrange.
      by do 2 apply int_range_len_app_l in Hrange. }
    destruct (Write_tracks _ _ " " Hw1 Hcur1 Hr2) as [Hw2 Hcur2].
    rewrite (CursorPlusDelta_position _ _ _ Hcur2).
    rewrite <- !string_app_assoc.
    by destruct (const_CursorInValue k), (const_CursorInType k), (const_CursorInKey k).
  - assert (int_range (len ((text +:+ const_Key k) +:+ " = "))) as Hr4.
    { rewrite string_app_nil_l, <- !string_app_assoc in Hrange.
      by apply int_range_len_app_l in Hrange. }
    destruct (Write_tracks _ _ " = " Hw1 Hcur1 Hr4) as [Hw4 Hcur4].
    rewrite (CursorPlusDelta_position _ _ _ Hcur4).
    rewrite string_app_nil_l, <- !string_app_assoc.
    by destruct (const_CursorInValue k), (const_CursorInType k), (const_CursorInKey k).
  - by destruct (const_CursorInValue k), (const_CursorInType k), (const_CursorInKey k).
Qed.

End ConstantCursor.

(** * The model on inputs *)

Section Examples.

Local Existing Instance asciiQuote.
Local Existing Instance specSentinel.

(** C1 on a sink with room for 20 bytes and two imports: the write of
    [import (] fails after 6 of its 9 bytes, in the phase of the imports. The
    writer holds the error and the sink nothing after the bytes that went
    through, and the composer returns the error [nil]. *)
Theorem createMainContentsFromDecls_loses_write_error :
  ∃ w : WriterWithCursor MemFile,
    createMainContentsFromDecls (MR := forwardRange) 0 (emptyFile 20) twoImports None =
      Some (NoCursor, None, w) ∧
    Error w = Some (ErrShortWrite ("import (" +:+ NL) 9 6) ∧
    mf_data (w_w w) = "package main" +:+ NL +:+ NL +:+ "import".
Proof. eexists. split_and!; by vm_compute. Qed.

(** C7 on a file with room for 20 bytes whose [Close] fails, and two
    imports: the write of [import (] fails, then [Close] fails, and the error
    [createMainFileFromDecls] returns is the one of [Close]. *)
Theorem createMainFileFromDecls_returns_close_error :
  (λ r, r.1.2) <$>
    createMainFileFromDecls (MR := forwardRange) 0 (inr smallFileBadClose) twoImports None =
    Some (Some (ErrWrap (ErrIO "close failed") "closing main.go")) ∧
  (λ r, Error r.2) <$>
    createMainContentsFromDecls (MR := forwardRange) 0 smallFileBadClose twoImports None =
    Some (Some (ErrShortWrite ("import (" +:+ NL) 9 6)).
Proof. split; by vm_compute. Qed.

(** C4 at a writer whose first write failed. *)
Lemma sticky_first_error_witness :
  Error failedWriter = Some (ErrShortWrite "hello" 5 3) ∧
  foldl do_call failedWriter [CallWrite "world"; CallWritef "%s!" ["again"]] =
    failedWriter.
Proof.
  assert (Error failedWriter = Some (ErrShortWrite "hello" 5 3)) as He
    by (by vm_compute).
  split; [exact He|].
  exact (proj1 (sticky_first_error failedWriter _
                  [CallWrite "world"; CallWritef "%s!" ["again"]] He)).
Defined.

(** C2 at the two imports: the alias [f] of ["fmt"] starts at line 1,
    column 1, after the tab, and the cursor is 2 bytes further. *)
Lemma CursorPlusDelta_and_import_alias_witness :
  (RenderImports (MR := backwardRange) twoImports
     (NewWriterWithCursor (emptyFile 1000))).2 = {| Line := 1; Col := 3 |}.
Proof.
  edestruct (proj2 (CursorPlusDelta_and_import_alias (MR := backwardRange))
               twoImports (NewWriterWithCursor (emptyFile 1000)) "fmt" importFmt
               [] ["os"]) as [Hcursor _]; [..|rewrite Hcursor; by vm_compute].
  - by vm_compute.
  - by vm_compute.
  - done.
  - done.
  - done.
  - done.
  - intros key' i Hne Hi. unfold twoImports in Hi. simpl in Hi.
    rewrite lookup_insert_ne in Hi by done.
    apply lookup_singleton_Some in Hi as [_ <-]. done.
  - by vm_compute.
Defined.

(** C3 at the four constants, enumerated backwards, with fuel for three
    iterations. *)
Lemma RenderConstants_chain_order_witness :
  (λ r, mf_data (w_w r.1)) <$>
    RenderConstants (MR := backwardRange) 3 fourConstants
      (NewWriterWithCursor (emptyFile 1000)) =
    Some ("const (" +:+ NL +:+
          TAB +:+ "A int = iota" +:+ NL +:+
          TAB +:+ "B" +:+ NL +:+
          TAB +:+ "C" +:+ NL +:+
          ")" +:+ NL +:+ NL +:+
          "const Pi = 3.14" +:+ NL +:+ NL).
Proof.
  rewrite (RenderConstants_chain_order backwardRange 3 fourConstants
             (NewWriterWithCursor (emptyFile 1000))
             ["A"; "Pi"] [[constA; constB; constC]; [constPi]]).
  - by vm_compute.
  - apply (bool_decide_unpack _). by vm_compute.
  - apply (bool_decide_unpack _). by vm_compute.
  - apply (bool_decide_unpack _). by vm_compute.
  - intros key. split.
    + intros Hk. set_unfold. by destruct Hk as [->|[->|[]]].
    + intros Hk.
      destruct (decide (key = "A")) as [->|HA]; [set_solver|].
      destruct (decide (key = "Pi")) as [->|HPi]; [set_solver|].
      destruct (decide (key = "B")) as [->|HB]; [by vm_compute in Hk|].
      destruct (decide (key = "C")) as [->|HC]; [by vm_compute in Hk|].
      unfold isHead, constantAt, fourConstants in Hk. simpl in Hk.
      rewrite !lookup_insert_ne in Hk by done.
      by rewrite lookup_singleton_ne in Hk by done.
  - repeat constructor.
    + exists 1%positive. split; [done|].
      repeat (eapply chain_cons; [by vm_compute|simpl]). constructor.
    + exists 4%positive. split; [done|].
      repeat (eapply chain_cons; [by vm_compute|simpl]). constructor.
  - repeat constructor; simpl; lia.
Defined.

(** C6 as the spec has it, on a sink with room for 20 bytes: the write of
    [import (] fails in the phase of the imports. The composer returns
    [NoCursor]; had it gone on to the entry point, as [composeAllPhases]
    does, it would have returned the cursor of the entry point, at line 2. *)
Lemma composer_stops_at_failed_phase :
  (λ r, r.1.1) <$>
    createMainContentsFromDecls (MR := forwardRange) 0 (emptyFile 20) twoImports
      (Some mainWithCursor) = Some {| Line := -1; Col := -1 |} ∧
  fst <$>
    composeAllPhases (MR := forwardRange) 0 (emptyFile 20) twoImports
      (Some mainWithCursor) = Some {| Line := 2; Col := 3 |} ∧
  (λ r, Error r.2) <$>
    createMainContentsFromDecls (MR := forwardRange) 0 (emptyFile 20) twoImports
      (Some mainWithCursor) = Some (Some (ErrShortWrite ("import (" +:+ NL) 9 6)).
Proof. split_and!; by vm_compute. Qed.

(** C6, amended, on that sink: the phase of the imports is the one that
    fails, and the composer returns the writer as that phase left it. *)
Lemma composer_returns_after_failed_phase_witness :
  ∃ err,
    createMainContentsFromDecls (MR := forwardRange) 0 (emptyFile 20) twoImports
      (Some mainWithCursor) =
    Some (NoCursor, err,
          (RenderImports (MR := forwardRange) twoImports
             (afterPreamble (emptyFile 20))).1).
Proof.
  apply (composer_returns_after_failed_phase (MR := forwardRange) 0 (emptyFile 20)
           twoImports (Some mainWithCursor) [] "imports"
           (λ w, Some (RenderImports (MR := forwardRange) twoImports w))
           (tail (renderPhases (MR := forwardRange) 0 twoImports))
           NoCursor (afterPreamble (emptyFile 20)) _
           (RenderImports (MR := forwardRange) twoImports
              (afterPreamble (emptyFile 20))).2).
  - reflexivity.
  - reflexivity.
  - by destruct (RenderImports _ _).
  - by vm_compute.
Defined.

(** C5 as the spec has it. Inside [func main] the column returned is one
    more than the column of the cursor in the cell, 0 here; and when the line
    of the cursor is excluded and a write fails, the error is not [nil]. *)
Lemma createGoFileFromLines_cursor_not_replaced :
  (createGoFileFromLines (inr (emptyFile 1000)) "main.go" ["%%"; "x"] ∅
     {| Line := 1; Col := 0 |}).1.1 = {| Line := 4; Col := 1 |} ∧
  (createGoFileFromLines (inr (emptyFile 5)) "main.go" ["x"] {[ 0 ]}
     {| Line := 0; Col := 0 |}).1 =
    (NoCursor, Some (ErrShortWrite packageMain 14 5)).
Proof. split; by vm_compute. Qed.

(** C5, amended, on the first of these inputs. *)
Lemma createGoFileFromLines_cursor_witness :
  (createGoFileFromLines (inr (emptyFile 1000)) "main.go" ["%%"; "x"] ∅
     {| Line := 1; Col := 0 |}).1.1 = {| Line := 4; Col := 1 |}.
Proof.
  pose proof (createGoFileFromLines_cursor (emptyFile 1000) "main.go" ["%%"; "x"] ∅
                {| Line := 1; Col := 0 |} 1 "x" eq_refl eq_refl) as Hc.
  destruct (stateAtLine _ _ _ _ _) as [[w b] c] eqn:Hst.
  vm_compute in Hst. simplify_eq.
  destruct Hc as [Hc _]. destruct (Hc eq_refl) as [-> _]; [set_solver|].
  by vm_compute.
Defined.

Local Instance Buffer_healthy : HealthyFile buf_data.
Proof. split; [|done]. intros f p. by eexists. Qed.

(** C10 on a cell whose directive is its second line, with the index of
    that line excluded. *)
Lemma directive_before_skipLines_witness :
  ∃ f',
    (createGoFileFromLines (inr (mkBuffer "" 0)) "main.go"
       ["x := 1"; "%%"; "print(x)"] {[ 1 ]} NoCursor).2 = Some f' ∧
    buf_data f' =
      "package main" +:+ NL +:+ NL +:+
      "x := 1" +:+ NL +:+
      "func main() {" +:+ NL +:+ TAB +:+ "flag.Parse" +:+ NL +:+
      TAB +:+ "print(x)" +:+ NL +:+
      NL +:+ "}" +:+ NL.
Proof.
  destruct (directive_before_skipLines buf_data (mkBuffer "" 0) "main.go"
              ["x := 1"; "%%"; "print(x)"] {[ 1 ]} NoCursor) as (_ & _ & f' & Hf & Hb).
  exists f'. split; [exact Hf|]. rewrite Hb. by vm_compute.
Defined.

(** ** The further properties on inputs *)

Local Instance Buffer_sink : HealthySink buf_data.
Proof. intros b p. by eexists. Qed.

(** X1 at three calls: two newlines, and [yz] after the last. *)
Lemma Cursor_at_end_of_text_witness :
  WriterCursor (foldl do_call (NewWriterWithCursor (mkBuffer "" 0)) threeCalls) =
    {| Line := 2; Col := 2 |}.
Proof.
  destruct (Cursor_at_end_of_text buf_data (mkBuffer "" 0) threeCalls)
    as (_ & _ & ->); [reflexivity|by split; vm_compute|by vm_compute].
Defined.

(** X2 at a cell of one line and a cursor in a sixth line. *)
Lemma createGoFileFromLines_cursor_outside_witness :
  (createGoFileFromLines (inr (emptyFile 1000)) "main.go" ["x"] ∅
     {| Line := 5; Col := 0 |}).1.1 = NoCursor.
Proof.
  apply (createGoFileFromLines_cursor_outside (inr (emptyFile 1000)) "main.go" ["x"] ∅
           {| Line := 5; Col := 0 |}).
  right. by vm_compute.
Defined.

(** X3 at a file with room for 12 bytes: the first line takes 11, the second
    fails after one byte, and the third is not written. *)
Lemma writeLinesToFile_stops_at_failed_write_witness :
  (writeLinesToFile (inr (emptyFile 12)) "a.go" ["0123456789"; "abc"; "zz"]).1 =
    Some (ErrWrap (ErrIO "no space left on device")
            ("writing to " +:+ DQUOTE +:+ "a.go" +:+ DQUOTE)) ∧
  mf_data <$> (writeLinesToFile (inr (emptyFile 12)) "a.go"
                 ["0123456789"; "abc"; "zz"]).2 =
    Some ("0123456789" +:+ NL +:+ "a").
Proof.
  pose proof (writeLinesToFile_stops_at_failed_write
                (emptyFile 12) (mkMemFile ("0123456789" +:+ NL) 1 None 0)
                (mkMemFile ("0123456789" +:+ NL +:+ "a") 0 None 0)
                "a.go" ["0123456789"] ["zz"] "abc" 1
                (ErrIO "no space left on device")
                ltac:(by vm_compute) ltac:(by vm_compute)) as Hw.
  change (["0123456789"] ++ ["abc"; "zz"])%list
    with ["0123456789"; "abc"; "zz"] in Hw.
  rewrite Hw. split; by vm_compute.
Defined.

(** X4 at two lines. *)
Lemma writeLinesToFile_text_witness :
  buf_data <$> (writeLinesToFile (inr (mkBuffer "" 0)) "a.go" ["a"; "b"]).2 =
    Some ("a" +:+ NL +:+ "b" +:+ NL).
Proof.
  destruct (writeLinesToFile_text buf_data (mkBuffer "" 0) "a.go" ["a"; "b"])
    as (f1 & f' & -> & _ & Hb).
  simpl. rewrite Hb. by vm_compute.
Defined.

(** The block of the constant of [plainDeclarations]. *)
Lemma plainDeclarations_blocks : blocksOf plainDeclarations ["Pi"] [[constPi]].
Proof.
  split_and!.
  - intros key a Hk. unfold plainDeclarations in Hk. simpl in Hk.
    apply lookup_singleton_Some in Hk as [_ <-]. by eexists.
  - repeat constructor.
  - apply NoDup_singleton.
  - intros key. split.
    + intros Hk. apply list_elem_of_singleton in Hk as ->. by vm_compute.
    + intros Hk. destruct (decide (key = "Pi")) as [->|Hne]; [set_solver|].
      unfold isHead, constantAt, plainDeclarations in Hk. simpl in Hk.
      by rewrite lookup_singleton_ne in Hk by done.
  - repeat constructor. exists 1%positive. split; [done|].
    repeat (eapply chain_cons; [by vm_compute|simpl]). constructor.
Qed.

Lemma plainDeclarations_fuel :
  Forall (λ l : list Constant, (length l ≤ 1)%nat) [[constPi]].
Proof. repeat constructor. Qed.

(** X6 at [plainDeclarations] and no entry point. *)
Lemma createMainContentsFromDecls_no_cursor_witness :
  (λ r, r.1.1) <$>
    createMainContentsFromDecls (MR := backwardRange) 1 (emptyFile 1000)
      plainDeclarations None = Some NoCursor.
Proof.
  destruct (createMainContentsFromDecls_no_cursor (MR := backwardRange) 1
              (emptyFile 1000) plainDeclarations None ["Pi"] [[constPi]]
              plainDeclarations_blocks plainDeclarations_fuel) as [w ->];
    [..|done].
  - intros key i Hi. unfold plainDeclarations in Hi. simpl in Hi.
    by apply lookup_singleton_Some in Hi as [_ <-].
  - intros key t Ht. unfold plainDeclarations in Ht. simpl in Ht.
    by rewrite lookup_empty in Ht.
  - intros a k Hk. unfold plainDeclarations in Hk. simpl in Hk.
    by apply lookup_singleton_Some in Hk as [_ <-].
  - intros key v Hv. unfold plainDeclarations in Hv. simpl in Hv.
    by rewrite lookup_empty in Hv.
  - intros key f Hf. unfold plainDeclarations in Hf. simpl in Hf.
    by apply lookup_singleton_Some in Hf as [_ <-].
  - by intros m Hm.
Defined.

(** C9 as the spec has it, on a sink with room for 40 bytes: the entry point
    holds a cursor in its line 0, but the write of [ = ] fails in the phase
    of the constants and the composer returns there. The cursor it returns
    is [NoCursor], of line -1: not line 0 plus a line of the sink, and the
    text of the entry point is not written. *)
Lemma entry_point_cursor_lost :
  HasCursor (fn_Cursor mainWithCursor) = true ∧
  Line (fn_Cursor mainWithCursor) = 0 ∧
  (λ r, (r.1.1, w_Line r.2, mf_data (w_w r.2))) <$>
    createMainContentsFromDecls (MR := forwardRange) 1 (emptyFile 40)
      plainDeclarations (Some mainWithCursor) =
    Some ({| Line := -1; Col := -1 |}, 6,
          "package main" +:+ NL +:+ NL +:+ "import (" +:+ NL +:+ TAB +:+ DQUOTE +:+
          "os" +:+ DQUOTE +:+ NL +:+ ")" +:+ NL +:+ NL +:+ "const Pi").
Proof. split_and!; by vm_compute. Qed.

(** C9, amended, on a sink with room: the entry point is written from line
    11 on. *)
Lemma entry_point_cursor_witness :
  (λ r, r.1.1) <$>
    createMainContentsFromDecls (MR := forwardRange) 1 (emptyFile 1000)
      plainDeclarations (Some mainWithCursor) = Some {| Line := 11; Col := 3 |}.
Proof.
  destruct (entry_point_cursor (MR := forwardRange) 1 (emptyFile 1000)
              plainDeclarations mainWithCursor ["Pi"] [[constPi]]
              plainDeclarations_blocks plainDeclarations_fuel
              ltac:(by vm_compute)) as (cursor & w & Hnone & Hok & _).
  vm_compute in Hnone. simplify_eq.
  destruct (Hok eq_refl) as [-> _]. by vm_compute.
Defined.

(** The blocks of the constants of [sampleDeclarations]. *)
Lemma sampleDeclarations_blocks :
  blocksOf sampleDeclarations ["A"; "Pi"] [[constA; constB; constC]; [constPi]].
Proof.
  split_and!.
  - apply (bool_decide_unpack _). by vm_compute.
  - apply (bool_decide_unpack _). by vm_compute.
  - apply (bool_decide_unpack _). by vm_compute.
  - intros key. split.
    + intros Hk. set_unfold. by destruct Hk as [->|[->|[]]].
    + intros Hk.
      destruct (decide (key = "A")) as [->|HA]; [set_solver|].
      destruct (decide (key = "Pi")) as [->|HPi]; [set_solver|].
      destruct (decide (key = "B")) as [->|HB]; [by vm_compute in Hk|].
      destruct (decide (key = "C")) as [->|HC]; [by vm_compute in Hk|].
      unfold isHead, constantAt, sampleDeclarations, fourConstants in Hk.
      simpl in Hk. rewrite !lookup_insert_ne in Hk by done.
      by rewrite lookup_singleton_ne in Hk by done.
  - repeat constructor.
    + exists 1%positive. split; [done|].
      repeat (eapply chain_cons; [by vm_compute|simpl]). constructor.
    + exists 4%positive. split; [done|].
      repeat (eapply chain_cons; [by vm_compute|simpl]). constructor.
Qed.

Lemma sampleDeclarations_fuel :
  Forall (λ l : list Constant, (length l ≤ 3)%nat)
    [[constA; constB; constC]; [constPi]].
Proof. repeat constructor; simpl; lia. Qed.

(** X7 at the imports of [sampleDeclarations]. *)
Lemma RenderImports_text_witness :
  buf_data (w_w (RenderImports (MR := backwardRange) sampleDeclarations
                   (NewWriterWithCursor (mkBuffer "" 0))).1) =
    "import (" +:+ NL +:+ TAB +:+ "f " +:+ DQUOTE +:+ "fmt" +:+ DQUOTE +:+
        NL +:+ TAB +:+ DQUOTE +:+ "os" +:+ DQUOTE +:+ NL +:+ ")" +:+ NL +:+ NL.
Proof.
  destruct (RenderImports_text (MR := backwardRange) buf_data sampleDeclarations
              (NewWriterWithCursor (mkBuffer "" 0)) eq_refl) as [_ ->].
  by vm_compute.
Defined.

(** X8 at the type of [sampleDeclarations]. *)
Lemma RenderTypes_text_witness :
  buf_data (w_w (RenderTypes (MR := backwardRange) sampleDeclarations
                   (NewWriterWithCursor (mkBuffer "" 0))).1) =
    "type T struct{}" +:+ NL +:+ NL.
Proof.
  destruct (RenderTypes_text (MR := backwardRange) buf_data sampleDeclarations
              (NewWriterWithCursor (mkBuffer "" 0)) eq_refl) as [_ ->].
  by vm_compute.
Defined.

(** X9 at the variables of [sampleDeclarations]. *)
Lemma RenderVariables_text_witness :
  buf_data (w_w (RenderVariables (MR := backwardRange) sampleDeclarations
                   (NewWriterWithCursor (mkBuffer "" 0))).1) =
    "var (" +:+ NL +:+ TAB +:+ "x int = 1" +:+ NL +:+ TAB +:+ "y = 2" +:+
        NL +:+ ")" +:+ NL +:+ NL.
Proof.
  destruct (RenderVariables_text (MR := backwardRange) buf_data sampleDeclarations
              (NewWriterWithCursor (mkBuffer "" 0)) eq_refl) as [_ ->].
  by vm_compute.
Defined.

(** X10 at the functions of [sampleDeclarations]: [init_a] is written as
    [init]. *)
Lemma RenderFunctions_text_witness :
  buf_data (w_w (RenderFunctions (MR := backwardRange) sampleDeclarations
                   (NewWriterWithCursor (mkBuffer "" 0))).1) =
    "func f() {}" +:+ NL +:+ NL +:+ "func init() {}" +:+ NL +:+ NL.
Proof.
  destruct (RenderFunctions_text (MR := backwardRange) buf_data sampleDeclarations
              (NewWriterWithCursor (mkBuffer "" 0)) eq_refl) as [_ ->].
  by vm_compute.
Defined.

(** X11 at the constants of [sampleDeclarations]. *)
Lemma RenderConstants_text_witness :
  (λ r, buf_data (w_w r.1)) <$>
    RenderConstants (MR := backwardRange) 3 sampleDeclarations
      (NewWriterWithCursor (mkBuffer "" 0)) =
    Some ("const (" +:+ NL +:+ TAB +:+ "A int = iota" +:+ NL +:+ TAB +:+ "B" +:+
        NL +:+ TAB +:+ "C" +:+ NL +:+ ")" +:+ NL +:+ NL +:+ "const Pi = 3.14"
        +:+ NL +:+ NL).
Proof.
  destruct (RenderConstants_text (MR := backwardRange) buf_data 3 sampleDeclarations
              (NewWriterWithCursor (mkBuffer "" 0)) _ _
              sampleDeclarations_blocks sampleDeclarations_fuel eq_refl)
    as (r & -> & _ & Hb).
  simpl. rewrite Hb. by vm_compute.
Defined.

(** X12 at [sampleDeclarations] and an entry point. *)
Lemma createMainContentsFromDecls_text_witness :
  (λ r, buf_data (w_w r.2)) <$>
    createMainContentsFromDecls (MR := backwardRange) 3 (mkBuffer "" 0)
      sampleDeclarations (Some mainWithCursor) =
    Some ("package main" +:+ NL +:+ NL +:+ "import (" +:+ NL +:+ TAB +:+ "f "
        +:+ DQUOTE +:+ "fmt" +:+ DQUOTE +:+ NL +:+ TAB +:+ DQUOTE +:+ "os" +:+
        DQUOTE +:+ NL +:+ ")" +:+ NL +:+ NL +:+ "type T struct{}" +:+ NL +:+
        NL +:+ "const (" +:+ NL +:+ TAB +:+ "A int = iota" +:+ NL +:+ TAB +:+
        "B" +:+ NL +:+ TAB +:+ "C" +:+ NL +:+ ")" +:+ NL +:+ NL +:+
        "const Pi = 3.14" +:+ NL +:+ NL +:+ "var (" +:+ NL +:+ TAB +:+ "x int = 1" +:+
        NL +:+ TAB +:+ "y = 2" +:+ NL +:+ ")" +:+ NL +:+ NL +:+ "func f() {}"
        +:+ NL +:+ NL +:+ "func init() {}" +:+ NL +:+ NL +:+ NL +:+
        "func main() {}" +:+ NL).
Proof.
  destruct (createMainContentsFromDecls_text (MR := backwardRange) buf_data 3
              (mkBuffer "" 0) sampleDeclarations (Some mainWithCursor) _ _
              sampleDeclarations_blocks sampleDeclarations_fuel)
    as (cursor & w & -> & _ & Hb).
  simpl. rewrite Hb. by vm_compute.
Defined.

(** X13 at a cell whose second line is inside [func main]: line 4 of the
    file is that line after its tab. *)
Lemma createGoFileFromLines_cursor_in_file_witness :
  ∃ f',
    (createGoFileFromLines (inr (mkBuffer "" 0)) "main.go" ["%%"; "x"] ∅
       {| Line := 1; Col := 0 |}).2 = Some f' ∧
    strings_Split_NL (buf_data f') !! 4%nat = Some (TAB +:+ "x") ∧
    (createGoFileFromLines (inr (mkBuffer "" 0)) "main.go" ["%%"; "x"] ∅
       {| Line := 1; Col := 0 |}).1.1 = {| Line := 4; Col := 1 |}.
Proof.
  destruct (createGoFileFromLines_cursor_in_file buf_data (mkBuffer "" 0) "main.go"
              ["%%"; "x"] ∅ {| Line := 1; Col := 0 |} 1 "x")
    as (f' & Hf & _ & Hline & _); [done..|].
  exists f'. split; [exact Hf|]. split; [|by vm_compute].
  assert (Z.to_nat (Line (createGoFileFromLines (inr (mkBuffer "" 0)) "main.go"
                            ["%%"; "x"] ∅ {| Line := 1; Col := 0 |}).1.1) = 4%nat)
    as Hfour by (by vm_compute).
  rewrite Hfour in Hline. exact Hline.
Defined.

(** X14 at [sampleDeclarations], on a buffer. *)
Lemma createMainFileFromDecls_text_witness :
  (λ r : Cursor * option error * option Buffer, (r.1.2, buf_data <$> r.2)) <$>
    createMainFileFromDecls (MR := backwardRange) 3 (inr (mkBuffer "" 0))
      sampleDeclarations (Some mainWithCursor) =
    Some (@None error, Some ("package main" +:+ NL +:+ NL +:+ "import (" +:+ NL +:+ TAB +:+ "f "
        +:+ DQUOTE +:+ "fmt" +:+ DQUOTE +:+ NL +:+ TAB +:+ DQUOTE +:+ "os" +:+
        DQUOTE +:+ NL +:+ ")" +:+ NL +:+ NL +:+ "type T struct{}" +:+ NL +:+
        NL +:+ "const (" +:+ NL +:+ TAB +:+ "A int = iota" +:+ NL +:+ TAB +:+
        "B" +:+ NL +:+ TAB +:+ "C" +:+ NL +:+ ")" +:+ NL +:+ NL +:+
        "const Pi = 3.14" +:+ NL +:+ NL +:+ "var (" +:+ NL +:+ TAB +:+ "x int = 1" +:+
        NL +:+ TAB +:+ "y = 2" +:+ NL +:+ ")" +:+ NL +:+ NL +:+ "func f() {}"
        +:+ NL +:+ NL +:+ "func init() {}" +:+ NL +:+ NL +:+ NL +:+
        "func main() {}" +:+ NL)).
Proof.
  destruct (createMainFileFromDecls_text (MR := backwardRange) buf_data 3
              (mkBuffer "" 0) sampleDeclarations (Some mainWithCursor) _ _
              sampleDeclarations_blocks sampleDeclarations_fuel)
    as (cursor & w & f' & _ & -> & Hb).
  simpl. rewrite Hb. by vm_compute.
Defined.

(** X16 at [cursorFunctions]: [f] is written from line 2 of the text, and
    the cursor is in its second line. *)
Lemma RenderFunctions_cursor_in_text_witness :
  (RenderFunctions (MR := backwardRange) cursorFunctions
     (NewWriterWithCursor (mkBuffer "" 0))).2 = {| Line := 3; Col := 4 |} ∧
  strings_Split_NL
    (buf_data (w_w (RenderFunctions (MR := backwardRange) cursorFunctions
                      (NewWriterWithCursor (mkBuffer "" 0))).1)) !! 3%nat =
    Some (TAB +:+ "return").
Proof.
  destruct (RenderFunctions_cursor_in_text (MR := backwardRange) buf_data
              cursorFunctions (NewWriterWithCursor (mkBuffer "" 0)) ["a"] ["g"] "f"
              (mkFunction {| Line := 1; Col := 4 |}
                 ("func f() {" +:+ NL +:+ TAB +:+ "return" +:+ NL +:+ "}")))
    as (_ & _ & Hline & _).
  - done.
  - done.
  - done.
  - by split; vm_compute.
  - by vm_compute.
  - by vm_compute.
  - by vm_compute.
  - intros k g Hk Hg. apply list_elem_of_singleton in Hk as ->.
    vm_compute in Hg. by simplify_eq.
  - by split; vm_compute.
  - by split; vm_compute.
  - split; [by vm_compute|].
    assert (Z.to_nat (Line (RenderFunctions (MR := backwardRange) cursorFunctions
                              (NewWriterWithCursor (mkBuffer "" 0))).2) = 3%nat)
      as Hthree by (by vm_compute).
    rewrite Hthree in Hline. rewrite Hline. by vm_compute.
Defined.

(** X17 at [constE] on a new writer: the value starts after twelve bytes. *)
Lemma Constant_Render_cursor_witness :
  (Constant_Render constE (NewWriterWithCursor (mkBuffer "" 0), NoCursor)).2 =
    {| Line := 0; Col := 14 |}.
Proof.
  rewrite (Constant_Render_cursor buf_data constE
             (NewWriterWithCursor (mkBuffer "" 0)) NoCursor "" eq_refl eq_refl
             ltac:(by split; vm_compute)).
  by vm_compute.
Defined.

End Examples.
